(** * Enhanced QR code server: the generation, decoding and quality engine

    A shallow embedding of [src/qr-utils.ts] (class [QRCodeEnhanced]),
    of the schemas and error classes of [src/types.ts], and of the tool
    handlers of [src/index.ts] that the engine's contract depends on.

    Modelling conventions.
    - A JavaScript string is a [string]; one character stands for one
      UTF-16 code unit (code units above 255 are outside the model), so
      [String.length] is the [.length] of the source.
    - Numbers that the data model declares as integers (sizes, margins,
      pixel dimensions, counters, timestamps) are [Z] or [nat]; fractions
      (the logo size, canvas coordinates) are rationals [Q].
    - An optional property is an [option]; reading an absent property
      gives [None], which plays the part of [undefined].
    - The libraries the engine calls (the QR encoder and decoder, the image
      loaders, the canvas rasteriser, the path helpers, the uuid source,
      the clock's text rendering) are the fields of a record [Externals];
      the engine is a function of them.
    - Asynchronous methods run to completion one after another; a method
      is a function from the state before the call to an outcome (a value
      returned or a value thrown) and the state after it. *)

From Stdlib Require Import ZArith QArith Ascii String List Lia.
From stdpp Require Import base strings list gmap.

Local Open Scope Z_scope.
Local Open Scope stdpp_scope.

(** ** JavaScript strings *)

Module JsString.

(** ECMAScript [WhiteSpace] and [LineTerminator] code units below 256:
    TAB, LF, VT, FF, CR, SP and NBSP.  These are what [trim] strips. *)
Definition isWhiteSpace (c : ascii) : bool :=
  match N_of_ascii c with
  | 9%N | 10%N | 11%N | 12%N | 13%N | 32%N | 160%N => true
  | _ => false
  end.

Fixpoint trimStart (s : string) : string :=
  match s with
  | EmptyString => EmptyString
  | String c s' => if isWhiteSpace c then trimStart s' else s
  end.

Definition trimEnd (s : string) : string :=
  String.rev (trimStart (String.rev s)).

(** [String.prototype.trim] *)
Definition trim (s : string) : string := trimEnd (trimStart s).

(** Every code unit of the string is white space. *)
Fixpoint allWhiteSpace (s : string) : bool :=
  match s with
  | EmptyString => true
  | String c s' => isWhiteSpace c && allWhiteSpace s'
  end.

(** The string has no line terminator (LF or CR). *)
Fixpoint singleLine (s : string) : bool :=
  match s with
  | EmptyString => true
  | String c s' =>
      negb (N.eqb (N_of_ascii c) 10 || N.eqb (N_of_ascii c) 13) && singleLine s'
  end.

(** Truthiness of a string value: only the empty string is falsy. *)
Definition truthy (s : string) : bool :=
  match s with EmptyString => false | _ => true end.

(** [o || d] for an optional string property. *)
Definition orElse (o : option string) (d : string) : string :=
  match o with
  | Some s => if truthy s then s else d
  | None => d
  end.

Definition isHexDigit (c : ascii) : bool :=
  let n := N_of_ascii c in
  ((48 <=? n) && (n <=? 57) || (65 <=? n) && (n <=? 70)
   || (97 <=? n) && (n <=? 102))%N.

(** The regular expression [/^#[0-9A-Fa-f]{6}$/] of the style schema. *)
Definition isHexColor (s : string) : bool :=
  match s with
  | String "#" (String a (String b (String c (String d (String e
      (String f EmptyString)))))) =>
      forallb isHexDigit [a; b; c; d; e; f]
  | _ => false
  end.

End JsString.

(** ** Data model ([src/types.ts]) *)

Inductive ErrorCorrectionLevel := LevelL | LevelM | LevelQ | LevelH.

Inductive Format := png | svg | pdf | jpeg.

Definition Format_toString (f : Format) : string :=
  match f with png => "png" | svg => "svg" | pdf => "pdf" | jpeg => "jpeg" end.

Definition Level_toString (l : ErrorCorrectionLevel) : string :=
  match l with LevelL => "L" | LevelM => "M" | LevelQ => "Q" | LevelH => "H" end.

(** [Partial<QRConfig>]: every property may be absent. *)
Record QRConfig := mkQRConfig {
  config_size : option Z;
  config_margin : option Z;
  config_errorCorrectionLevel : option ErrorCorrectionLevel;
  config_format : option Format;
}.

Definition emptyConfig : QRConfig := mkQRConfig None None None None.

Inductive DotStyle := square | round | diamond.

(** [Partial<QRStyle>] *)
Record QRStyle := mkQRStyle {
  style_foregroundColor : option string;
  style_backgroundColor : option string;
  style_logoPath : option string;
  style_logoSize : option Q;
  style_cornerRadius : option Z;
  style_dotStyle : option DotStyle;
  style_gradientStart : option string;
  style_gradientEnd : option string;
  style_borderWidth : option Z;
  style_borderColor : option string;
}.

Definition emptyStyle : QRStyle :=
  mkQRStyle None None None None None None None None None None.

Inductive Security := WEP | WPA | WPA2 | WPA3 | nopass.

Definition Security_toString (s : Security) : string :=
  match s with
  | WEP => "WEP" | WPA => "WPA" | WPA2 => "WPA2" | WPA3 => "WPA3"
  | nopass => "nopass"
  end.

(** A network credential as the encoder receives it.  [hidden] is optional
    here so that objects built without the schema default are covered. *)
Record WiFi := mkWiFi {
  wifi_ssid : string;
  wifi_password : option string;
  wifi_security : Security;
  wifi_hidden : option bool;
}.

Inductive Category := business | personal | event | marketing | social.

Record QRTemplate := mkQRTemplate {
  template_name : string;
  template_description : string;
  template_style : QRStyle;
  template_config : QRConfig;
  template_category : Category;
}.

(** File contents and artifact payloads: a byte buffer or text. *)
Inductive Data :=
| Buffer (bytes : list Byte.byte)
| Text (s : string).

Definition Data_length (d : Data) : nat :=
  match d with
  | Buffer b => length b
  | Text s => String.length s
  end.

Record Metadata := mkMetadata {
  generatedAt : string;
  originalContent : string;
  estimatedSize : nat;
}.

Record QRGenerationResult := mkGenerationResult {
  gen_success : bool;
  gen_filePath : option string;
  gen_data : option Data;
  gen_format : string;
  gen_size : nat;
  gen_contentType : string;
  gen_metadata : option Metadata;
  gen_error : option string;
}.

Inductive Readability := excellent | good | fair | poor.

Record Quality := mkQuality {
  score : Z;
  readability : Readability;
  recommendations : list string;
}.

Record DecodeMetadata := mkDecodeMetadata {
  version : Z;
  errorCorrectionLevel : string;
  maskPattern : Z;
  modules : Z;
}.

Record QRAnalysisResult := mkAnalysisResult {
  an_success : bool;
  an_content : option string;
  an_format : option string;
  an_quality : option Quality;
  an_metadata : option DecodeMetadata;
  an_error : option string;
}.

(** *** Schemas *)

(** [z.number().min(lo).max(hi)] on a present value; an absent value takes
    the schema's default and is accepted. *)
Definition inRange (lo hi : Z) (o : option Z) : bool :=
  match o with
  | Some n => (lo <=? n) && (n <=? hi)
  | None => true
  end.

Definition QRConfigSchema_accepts (c : QRConfig) : bool :=
  inRange 50 2000 (config_size c) && inRange 0 10 (config_margin c).

(** [QRConfigSchema.safeParse(..).data]: absent properties get the defaults. *)
Definition QRConfigSchema_data (c : QRConfig) : QRConfig :=
  {| config_size := Some (default 300 (config_size c));
     config_margin := Some (default 1 (config_margin c));
     config_errorCorrectionLevel :=
       Some (default LevelM (config_errorCorrectionLevel c));
     config_format := Some (default png (config_format c)) |}.

Definition optColor (o : option string) : bool :=
  match o with Some s => JsString.isHexColor s | None => true end.

Definition inRangeQ (lo hi : Q) (o : option Q) : bool :=
  match o with
  | Some q => Qle_bool lo q && Qle_bool q hi
  | None => true
  end.

Definition QRStyleSchema_accepts (s : QRStyle) : bool :=
  optColor (style_foregroundColor s) && optColor (style_backgroundColor s)
  && inRangeQ (1 # 10) (4 # 10) (style_logoSize s)
  && inRange 0 50 (style_cornerRadius s)
  && optColor (style_gradientStart s) && optColor (style_gradientEnd s)
  && inRange 0 20 (style_borderWidth s)
  && optColor (style_borderColor s).

(** ** Errors ([src/types.ts]) *)

Inductive ErrorCode := VALIDATION_ERROR | GENERATION_ERROR | ANALYSIS_ERROR.

(** The [details] argument of the error constructors at their call sites. *)
Inductive Details :=
| NoDetails
| SchemaIssues
| BasicDetails (content : string) (config : QRConfig)
| StyledDetails (content : string) (style : QRStyle) (config : QRConfig)
| ImagePathDetails (imagePath : string).

(** What a [throw] can carry: one of the three [QRError] subclasses (told
    apart by the [code] their constructor fixes), another [Error] raised
    by a library, or a value that is not an [Error]. *)
Inductive Thrown :=
| QRError (code : ErrorCode) (message : string) (details : Details)
| LibraryError (message : string)
| NotAnError.

Definition QRValidationError (message : string) (d : Details) : Thrown :=
  QRError VALIDATION_ERROR message d.
Definition QRGenerationError (message : string) (d : Details) : Thrown :=
  QRError GENERATION_ERROR message d.
Definition QRAnalysisError (message : string) (d : Details) : Thrown :=
  QRError ANALYSIS_ERROR message d.

(** [error instanceof Error ? error.message : 'Unknown error'] *)
Definition messageOf (e : Thrown) : string :=
  match e with
  | QRError _ m _ => m
  | LibraryError m => m
  | NotAnError => "Unknown error"
  end.

(** The [errorType] the request dispatcher of [src/index.ts] reports. *)
Definition errorType (e : Thrown) : string :=
  match e with
  | QRError VALIDATION_ERROR _ _ => "ValidationError"
  | QRError GENERATION_ERROR _ _ => "GenerationError"
  | QRError ANALYSIS_ERROR _ _ => "AnalysisError"
  | _ => "UnknownError"
  end.

(** ** Payload encoders *)

(** [`WIFI:T:${wifi.security};S:${wifi.ssid};P:${wifi.password || ''};H:${wifi.hidden ? 'true' : 'false'};;`] *)
Definition buildWiFiContent (wifi : WiFi) : string :=
  "WIFI:T:" +:+ Security_toString (wifi_security wifi)
  +:+ ";S:" +:+ wifi_ssid wifi
  +:+ ";P:" +:+ JsString.orElse (wifi_password wifi) EmptyString
  +:+ ";H:" +:+ (if default false (wifi_hidden wifi) then "true" else "false")
  +:+ ";;".

(** ** Quality assessor *)

(** The part of sharp's [metadata()] and [stats()] the assessor reads. *)
Record ImageMetadata := mkImageMetadata {
  meta_width : option Z;
  meta_height : option Z;
}.

Record ChannelStats := mkChannelStats {
  channel_min : option Z;
  channel_max : option Z;
}.

Record ImageStats := mkImageStats {
  stats_channels : option (list ChannelStats);
}.

(** [a < b] where [a] may be [undefined] or [NaN]: then the test is false. *)
Definition ltNumber (a : option Z) (b : Z) : bool :=
  match a with Some x => x <? b | None => false end.

(** [a - b]; [NaN] when an operand is [undefined]. *)
Definition subNumber (a b : option Z) : option Z :=
  match a, b with Some x, Some y => Some (x - y) | _, _ => None end.

Definition assessQuality (metadata : ImageMetadata) (stats : ImageStats)
    (content : string) : Quality :=
  let score := 100 in
  let recommendations := [] in
  let '(score, recommendations) :=
    if ltNumber (meta_width metadata) 200 || ltNumber (meta_height metadata) 200
    then (score - 20,
          recommendations ++ ["Increase image resolution for better readability"])
    else (score, recommendations) in
  let channel0 := stats_channels stats ≫= head in
  let contrast :=
    subNumber (channel0 ≫= channel_max) (channel0 ≫= channel_min) in
  let '(score, recommendations) :=
    if ltNumber contrast 128
    then (score - 30,
          recommendations ++ ["Improve contrast between foreground and background"])
    else (score, recommendations) in
  let '(score, recommendations) :=
    if (1000 <? String.length content)%nat
    then (score - 10,
          recommendations
            ++ ["Consider reducing content length for better reliability"])
    else (score, recommendations) in
  let readability :=
    if 90 <=? score then excellent
    else if 70 <=? score then good
    else if 50 <=? score then fair
    else poor in
  {| score := Z.max 0 score;
     readability := readability;
     recommendations := recommendations |}.

(** ** The libraries the engine calls *)

(** Options object of [QRCode.toBuffer] and [QRCode.toDataURL]. *)
Record RenderOptions := mkRenderOptions {
  opt_width : option Z;
  opt_margin : option Z;
  opt_errorCorrectionLevel : option ErrorCorrectionLevel;
  opt_color : option (option string * option string);
}.

(** Options object of [new QRCodeSVG(..)]. *)
Record SvgOptions := mkSvgOptions {
  svg_content : string;
  svg_width : option Z;
  svg_height : option Z;
  svg_padding : option Z;
  svg_color : string;
  svg_background : string;
  svg_ecl : option ErrorCorrectionLevel;
}.

(** [image.bitmap] of Jimp. *)
Record Bitmap := mkBitmap {
  bitmap_data : list Byte.byte;
  bitmap_width : Z;
  bitmap_height : Z;
}.

(** What [jsQR] returns when it finds a symbol. *)
Record QRCode := mkQRCode {
  code_data : string;
  code_version : Z;
  code_errorCorrectionLevel : string;
  code_maskPattern : Z;
  code_modules : Z;
}.

Record Image := mkImage { image_pixels : list Byte.byte }.

Inductive DrawOp :=
| DrawImage (img : Image) (x y w h : Q)
| FillRect (fillStyle : string) (x y w h : Q).

Record Canvas := mkCanvas {
  canvas_width : Z;
  canvas_height : Z;
  canvas_ops : list DrawOp;
}.

(** The calls that leave the engine, in the order they are made. *)
Inductive Event :=
| EnsureDir (dir : string)
| WriteFile (path : string) (data : Data)
| PathExists (path : string)
| EncodeBuffer (content : string) (opts : RenderOptions)
| EncodeDataURL (content : string) (opts : RenderOptions)
| EncodeSVG (opts : SvgOptions)
| LoadImage (src : string)
| ReadBitmap (path : string)
| DecodeBitmap (bitmap : Bitmap)
| ProbeImage (path : string)
| Warn (message : string).

(** An encode attempt is a call of one of the three QR encoders. *)
Definition isEncode (e : Event) : bool :=
  match e with
  | EncodeBuffer _ _ | EncodeDataURL _ _ | EncodeSVG _ => true
  | _ => false
  end.

Record Externals := mkExternals {
  QRCode_toBuffer : string -> RenderOptions -> Thrown + list Byte.byte;
  QRCode_toDataURL : string -> RenderOptions -> Thrown + string;
  QRCodeSVG_svg : SvgOptions -> Thrown + string;
  (** [Jimp.read(path)], given what the path holds when it is a file *)
  Jimp_read : string -> option Data -> Thrown + Bitmap;
  jsQR : list Byte.byte -> Z -> Z -> option QRCode;
  (** [loadImage(src)] of canvas: a data URL, or a path and its file *)
  loadImage : string -> option Data -> Thrown + Image;
  canvas_toBuffer : Canvas -> list Byte.byte;
  (** [sharp(path).metadata()] and [.stats()] *)
  sharp_probe : string -> option Data -> Thrown + (ImageMetadata * ImageStats);
  (** the n-th identifier [uuidv4()] hands out *)
  uuidv4 : nat -> string;
  (** [new Date(t).toISOString()] *)
  toISOString : Z -> string;
  path_join : string -> string -> string;
  path_dirname : string -> string;
  path_basename : string -> string;
  (** the message of the error [fs.ensureDir] raises on a directory, if any *)
  ensureDir_fault : string -> option string;
  (** the message of the error [fs.writeFile] raises on a path, if any *)
  writeFile_fault : string -> option string;
  (** milliseconds a call takes *)
  latency : Event -> Z;
}.

(** ** State *)

(** A value of the plain object [byTemplate]: the number of uses, or the
    text that [+ 1] makes of a value that is not a number. *)
Inductive Tally :=
| Uses (n : nat)
| Spoilt (text : string).

Record Statistics := mkStatistics {
  totalGenerated : nat;
  byFormat : gmap string nat;
  (** the own properties of the object *)
  byTemplate : gmap string Tally;
  averageSize : Z;
  averageGenerationTime : Z;
  generationTimes : list Z;
  sizes : list nat;
  topContentTypes : list (string * nat);
  lastGenerated : string;
}.

(** The file system, the process environment and clock, the calls made so
    far, and the two fields of the [QRCodeEnhanced] instance. *)
Record State := mkState {
  files : gmap string Data;
  directories : gset string;
  QR_OUTPUT_DIR : option string;
  clock : Z;
  uuidsDrawn : nat;
  trace : list Event;
  statistics : Statistics;
  templates : list (string * QRTemplate);
}.

Definition with_files (f : gmap string Data) (s : State) : State :=
  mkState f (directories s) (QR_OUTPUT_DIR s) (clock s) (uuidsDrawn s)
          (trace s) (statistics s) (templates s).

Definition with_directories (d : gset string) (s : State) : State :=
  mkState (files s) d (QR_OUTPUT_DIR s) (clock s) (uuidsDrawn s)
          (trace s) (statistics s) (templates s).

Definition with_uuidsDrawn (n : nat) (s : State) : State :=
  mkState (files s) (directories s) (QR_OUTPUT_DIR s) (clock s) n
          (trace s) (statistics s) (templates s).

Definition with_statistics (st : Statistics) (s : State) : State :=
  mkState (files s) (directories s) (QR_OUTPUT_DIR s) (clock s) (uuidsDrawn s)
          (trace s) st (templates s).

Definition with_templates (t : list (string * QRTemplate)) (s : State) : State :=
  mkState (files s) (directories s) (QR_OUTPUT_DIR s) (clock s) (uuidsDrawn s)
          (trace s) (statistics s) t.

(** ** Methods: state passing with exceptions *)

Definition Js (A : Type) : Type := State -> (Thrown + A) * State.

Definition ret {A} (a : A) : Js A := fun s => (inr a, s).

Definition throw {A} (e : Thrown) : Js A := fun s => (inl e, s).

Definition bind {A B} (m : Js A) (k : A -> Js B) : Js B :=
  fun s =>
    match m s with
    | (inr a, s') => k a s'
    | (inl e, s') => (inl e, s')
    end.

(** [try { body } catch (error) { handler }]: what the body did to the
    state before it threw stays done. *)
Definition try_catch {A} (body : Js A) (handler : Thrown -> Js A) : Js A :=
  fun s =>
    match body s with
    | (inr a, s') => (inr a, s')
    | (inl e, s') => handler e s'
    end.

Definition liftResult {A} (r : Thrown + A) : Js A :=
  match r with
  | inr a => ret a
  | inl e => throw e
  end.

Declare Scope js_scope.
Delimit Scope js_scope with js.
Notation "'let*' x ':=' m 'in' k" := (bind m (fun x => k))
  (at level 10, x name, m at level 100, k at level 200) : js_scope.
Notation "m ';;' k" := (bind m (fun _ => k))
  (at level 100, k at level 200, right associativity) : js_scope.
Local Open Scope js_scope.

(** [Map.prototype.set] on an insertion-ordered map: an existing key keeps
    its place, a new key goes last. *)
Fixpoint Map_set {V} (k : string) (v : V) (m : list (string * V))
    : list (string * V) :=
  match m with
  | [] => [(k, v)]
  | (k', v') :: m' =>
      if decide (k' = k) then (k, v) :: m' else (k', v') :: Map_set k v m'
  end.

Fixpoint Map_get {V} (k : string) (m : list (string * V)) : option V :=
  match m with
  | [] => None
  | (k', v') :: m' => if decide (k' = k) then Some v' else Map_get k m'
  end.

(** [array.slice(-n)]: the last [n] elements. *)
Definition slice_last {A} (n : nat) (l : list A) : list A :=
  drop (length l - n) l.

(** [(counters[key] || 0) + 1] stored back under [key]. *)
Definition increment (key : string) (counters : gmap string nat)
    : gmap string nat :=
  <[key := (default 0 (counters !! key) + 1)%nat]> counters.

(** ** The engine ([src/qr-utils.ts]) *)

Section Engine.

Variable ext : Externals.

(** A call that leaves the engine is logged and takes its time. *)
Definition call (e : Event) : Js unit :=
  fun s =>
    (inr tt,
     mkState (files s) (directories s) (QR_OUTPUT_DIR s)
             (clock s + latency ext e) (uuidsDrawn s)
             (trace s ++ [e]) (statistics s) (templates s)).

(** [Date.now()] *)
Definition Date_now : Js Z := fun s => (inr (clock s), s).

(** [new Date().toISOString()] *)
Definition Date_toISOString : Js string :=
  fun s => (inr (toISOString ext (clock s)), s).

Definition fs_pathExists (path : string) : Js bool :=
  call (PathExists path) ;;
  fun s =>
    (inr (bool_decide (is_Some (files s !! path))
          || bool_decide (path ∈ directories s)), s).

Definition fs_ensureDir (dir : string) : Js unit :=
  call (EnsureDir dir) ;;
  match ensureDir_fault ext dir with
  | Some message => throw (LibraryError message)
  | None => fun s => (inr tt, with_directories ({[dir]} ∪ directories s) s)
  end.

Definition fs_writeFile (path : string) (data : Data) : Js unit :=
  call (WriteFile path data) ;;
  match writeFile_fault ext path with
  | Some message => throw (LibraryError message)
  | None => fun s => (inr tt, with_files (<[path := data]> (files s)) s)
  end.

Definition readFileAt (path : string) : Js (option Data) :=
  fun s => (inr (files s !! path), s).

Definition validateContent (content : string) : Js unit :=
  if negb (JsString.truthy content)
     || (String.length (JsString.trim content) =? 0)%nat
  then throw (QRValidationError "Content cannot be empty" NoDetails)
  else if (4296 <? String.length content)%nat
  then throw (QRValidationError
                "Content exceeds maximum length of 4296 characters" NoDetails)
  else ret tt.

Definition generateOutputPath (format : string) : Js string :=
  fun s =>
    let outputDir := JsString.orElse (QR_OUTPUT_DIR s) "./qr-codes" in
    let filename := "qr-" +:+ uuidv4 ext (uuidsDrawn s) +:+ "." +:+ format in
    (inr (path_join ext outputDir filename),
     with_uuidsDrawn (S (uuidsDrawn s)) s).

(** The effect of [updateStatistics] on the [statistics] field, given the
    text of the current time. *)
Definition updateStatistics_on (now : string) (result : QRGenerationResult)
    (generationTime : Z) (st : Statistics) : Statistics :=
  let times := generationTimes st ++ [generationTime] in
  let szs := sizes st ++ [gen_size result] in
  {| totalGenerated := S (totalGenerated st);
     byFormat := increment (gen_format result) (byFormat st);
     byTemplate := byTemplate st;
     averageSize := averageSize st;
     averageGenerationTime := averageGenerationTime st;
     generationTimes :=
       if (1000 <? length times)%nat then slice_last 1000 times else times;
     sizes := if (1000 <? length szs)%nat then slice_last 1000 szs else szs;
     topContentTypes := topContentTypes st;
     lastGenerated := now |}.

Definition updateStatistics (result : QRGenerationResult) (generationTime : Z)
    : Js unit :=
  fun s =>
    (inr tt,
     with_statistics
       (updateStatistics_on (toISOString ext (clock s)) result generationTime
          (statistics s)) s).

Definition generatePNG (content : string) (config : QRConfig)
    (outputPath : string) : Js QRGenerationResult :=
  let opts := {| opt_width := config_size config;
                 opt_margin := config_margin config;
                 opt_errorCorrectionLevel := config_errorCorrectionLevel config;
                 opt_color := None |} in
  call (EncodeBuffer content opts) ;;
  let* buffer := liftResult (QRCode_toBuffer ext content opts) in
  fs_writeFile outputPath (Buffer buffer) ;;
  let* now := Date_toISOString in
  ret {| gen_success := true;
         gen_filePath := Some outputPath;
         gen_data := Some (Buffer buffer);
         gen_format := "png";
         gen_size := length buffer;
         gen_contentType := "image/png";
         gen_metadata :=
           Some {| generatedAt := now;
                   originalContent := content;
                   estimatedSize := length buffer |};
         gen_error := None |}.

Definition generateSVG (content : string) (config : QRConfig)
    (outputPath : string) : Js QRGenerationResult :=
  let opts := {| svg_content := content;
                 svg_width := config_size config;
                 svg_height := config_size config;
                 svg_padding := (fun m => m * 10) <$> config_margin config;
                 svg_color := "#000000";
                 svg_background := "#ffffff";
                 svg_ecl := config_errorCorrectionLevel config |} in
  call (EncodeSVG opts) ;;
  let* svgString := liftResult (QRCodeSVG_svg ext opts) in
  fs_writeFile outputPath (Text svgString) ;;
  let* now := Date_toISOString in
  ret {| gen_success := true;
         gen_filePath := Some outputPath;
         gen_data := Some (Text svgString);
         gen_format := "svg";
         gen_size := String.length svgString;
         gen_contentType := "image/svg+xml";
         gen_metadata :=
           Some {| generatedAt := now;
                   originalContent := content;
                   estimatedSize := String.length svgString |};
         gen_error := None |}.

(** [finalConfig.format || 'png'] *)
Definition formatOrPng (config : QRConfig) : string :=
  match config_format config with
  | Some f => Format_toString f
  | None => "png"
  end.

Definition generateBasic (content : string) (config : QRConfig)
    : Js QRGenerationResult :=
  let* startTime := Date_now in
  try_catch
    (validateContent content ;;
     let finalConfig := config in
     let* outputPath := generateOutputPath (formatOrPng finalConfig) in
     fs_ensureDir (path_dirname ext outputPath) ;;
     let* result :=
       match config_format finalConfig with
       | Some svg => generateSVG content finalConfig outputPath
       | Some png | _ => generatePNG content finalConfig outputPath
       end in
     let* now := Date_now in
     updateStatistics result (now - startTime) ;;
     ret result)
    (fun error =>
       throw (QRGenerationError
                ("Failed to generate basic QR code: " +:+ messageOf error)
                (BasicDetails content config))).

(** [x || d] on an optional number: [undefined] and [0] give [d]. *)
Definition orElseZ (o : option Z) (d : Z) : Z :=
  match o with
  | Some n => if n =? 0 then d else n
  | None => d
  end.

Definition orElseQ (o : option Q) (d : Q) : Q :=
  match o with
  | Some q => if Qeq_bool q 0 then d else q
  | None => d
  end.

Definition canvas_draw (op : DrawOp) (c : Canvas) : Canvas :=
  mkCanvas (canvas_width c) (canvas_height c) (canvas_ops c ++ [op]).

Definition canvas_loadImage (src : string) : Js Image :=
  call (LoadImage src) ;;
  let* file := readFileAt src in
  liftResult (loadImage ext src file).

Definition applyAdvancedStyling (baseQR : string) (style : QRStyle)
    (config : QRConfig) (outputPath : string) : Js QRGenerationResult :=
  let canvas :=
    mkCanvas (orElseZ (config_size config) 300)
             (orElseZ (config_size config) 300) [] in
  let* img := canvas_loadImage baseQR in
  let canvas :=
    canvas_draw (DrawImage img 0 0 (inject_Z (canvas_width canvas))
                           (inject_Z (canvas_height canvas))) canvas in
  let* canvas :=
    match style_logoPath style with
    | Some logoPath =>
        if JsString.truthy logoPath then
          let* present := fs_pathExists logoPath in
          if present then
            try_catch
              (let* logo := canvas_loadImage logoPath in
               let logoSize :=
                 (inject_Z (canvas_width canvas)
                  * orElseQ (style_logoSize style) (2 # 10))%Q in
               let x := ((inject_Z (canvas_width canvas) - logoSize) / 2)%Q in
               let y := ((inject_Z (canvas_height canvas) - logoSize) / 2)%Q in
               let fillStyle :=
                 JsString.orElse (style_backgroundColor style) "#ffffff" in
               let canvas :=
                 canvas_draw (FillRect fillStyle (x - 5) (y - 5)
                                       (logoSize + 10) (logoSize + 10))%Q
                             canvas in
               let canvas :=
                 canvas_draw (DrawImage logo x y logoSize logoSize) canvas in
               ret canvas)
              (fun error =>
                 call (Warn ("Failed to apply logo: " +:+ messageOf error)) ;;
                 ret canvas)
          else ret canvas
        else ret canvas
    | None => ret canvas
    end in
  let buffer := canvas_toBuffer ext canvas in
  fs_writeFile outputPath (Buffer buffer) ;;
  let* now := Date_toISOString in
  ret {| gen_success := true;
         gen_filePath := Some outputPath;
         gen_data := Some (Buffer buffer);
         gen_format := "png";
         gen_size := length buffer;
         gen_contentType := "image/png";
         gen_metadata :=
           Some {| generatedAt := now;
                   originalContent := "styled content";
                   estimatedSize := length buffer |};
         gen_error := None |}.

Definition generateStyled (content : string) (style : QRStyle)
    (config : QRConfig) : Js QRGenerationResult :=
  let* startTime := Date_now in
  try_catch
    (validateContent content ;;
     let finalStyle := style in
     let finalConfig := config in
     let* outputPath := generateOutputPath (formatOrPng finalConfig) in
     fs_ensureDir (path_dirname ext outputPath) ;;
     let opts :=
       {| opt_width := config_size finalConfig;
          opt_margin := config_margin finalConfig;
          opt_errorCorrectionLevel := config_errorCorrectionLevel finalConfig;
          opt_color := Some (style_foregroundColor finalStyle,
                             style_backgroundColor finalStyle) |} in
     call (EncodeDataURL content opts) ;;
     let* baseQR := liftResult (QRCode_toDataURL ext content opts) in
     let* styledResult :=
       applyAdvancedStyling baseQR finalStyle finalConfig outputPath in
     let* now := Date_now in
     updateStatistics styledResult (now - startTime) ;;
     ret styledResult)
    (fun error =>
       throw (QRGenerationError
                ("Failed to generate styled QR code: " +:+ messageOf error)
                (StyledDetails content style config))).

Definition generateWiFi (wifi : WiFi) (config : QRConfig)
    : Js QRGenerationResult :=
  let wifiContent := buildWiFiContent wifi in
  generateBasic wifiContent config.

Definition decodeFromImage (imagePath : string) : Js QRAnalysisResult :=
  try_catch
    (let* present := fs_pathExists imagePath in
     (if negb present
      then throw (QRAnalysisError ("Image file not found: " +:+ imagePath)
                                  NoDetails)
      else ret tt) ;;
     call (ReadBitmap imagePath) ;;
     let* file := readFileAt imagePath in
     let* image := liftResult (Jimp_read ext imagePath file) in
     let width := bitmap_width image in
     let height := bitmap_height image in
     let imageData := mkBitmap (bitmap_data image) width height in
     call (DecodeBitmap imageData) ;;
     match jsQR ext (bitmap_data imageData) width height with
     | None =>
         ret {| an_success := false;
                an_content := None;
                an_format := None;
                an_quality := None;
                an_metadata := None;
                an_error := Some "No QR code found in image" |}
     | Some code =>
         ret {| an_success := true;
                an_content := Some (code_data code);
                an_format := Some "text";
                an_quality := None;
                an_metadata :=
                  Some {| version := code_version code;
                          errorCorrectionLevel := code_errorCorrectionLevel code;
                          maskPattern := code_maskPattern code;
                          modules := code_modules code |};
                an_error := None |}
     end)
    (fun error =>
       throw (QRAnalysisError
                ("Failed to decode QR code: " +:+ messageOf error)
                (ImagePathDetails imagePath))).

Definition with_quality (q : Quality) (r : QRAnalysisResult)
    : QRAnalysisResult :=
  mkAnalysisResult (an_success r) (an_content r) (an_format r) (Some q)
                   (an_metadata r) (an_error r).

Definition analyzeQuality (imagePath : string) : Js QRAnalysisResult :=
  try_catch
    (let* decodeResult := decodeFromImage imagePath in
     if negb (an_success decodeResult)
     then
       ret (with_quality
              {| score := 0;
                 readability := poor;
                 recommendations :=
                   ["QR code could not be decoded";
                    "Check image quality and contrast"] |}
              decodeResult)
     else
       call (ProbeImage imagePath) ;;
       let* file := readFileAt imagePath in
       let* probe := liftResult (sharp_probe ext imagePath file) in
       let quality :=
         assessQuality (fst probe) (snd probe)
                       (default EmptyString (an_content decodeResult)) in
       ret (with_quality quality decodeResult))
    (fun error =>
       throw (QRAnalysisError
                ("Failed to analyze QR code quality: " +:+ messageOf error)
                (ImagePathDetails imagePath))).

(** [{ ...base, ...overrides }], property by property. *)
Definition spread {A} (base overrides : option A) : option A :=
  match overrides with
  | Some v => Some v
  | None => base
  end.

Definition mergeStyle (base overrides : QRStyle) : QRStyle :=
  {| style_foregroundColor :=
       spread (style_foregroundColor base) (style_foregroundColor overrides);
     style_backgroundColor :=
       spread (style_backgroundColor base) (style_backgroundColor overrides);
     style_logoPath := spread (style_logoPath base) (style_logoPath overrides);
     style_logoSize := spread (style_logoSize base) (style_logoSize overrides);
     style_cornerRadius :=
       spread (style_cornerRadius base) (style_cornerRadius overrides);
     style_dotStyle := spread (style_dotStyle base) (style_dotStyle overrides);
     style_gradientStart :=
       spread (style_gradientStart base) (style_gradientStart overrides);
     style_gradientEnd :=
       spread (style_gradientEnd base) (style_gradientEnd overrides);
     style_borderWidth :=
       spread (style_borderWidth base) (style_borderWidth overrides);
     style_borderColor :=
       spread (style_borderColor base) (style_borderColor overrides) |}.

Definition mergeConfig (base overrides : QRConfig) : QRConfig :=
  {| config_size := spread (config_size base) (config_size overrides);
     config_margin := spread (config_margin base) (config_margin overrides);
     config_errorCorrectionLevel :=
       spread (config_errorCorrectionLevel base)
              (config_errorCorrectionLevel overrides);
     config_format := spread (config_format base) (config_format overrides) |}.

Definition addTemplate (template : QRTemplate) : Js unit :=
  fun s =>
    (inr tt,
     with_templates (Map_set (template_name template) template (templates s)) s).

Definition getTemplates : Js (list QRTemplate) :=
  fun s => (inr (map snd (templates s)), s).

(** What a plain object inherits: [String(Object.prototype[name])] for the
    properties of [Object.prototype] (functions, rendered as Node renders
    them, and the prototype itself under [__proto__]), [None] for every
    other name. *)
Definition Object_prototype (name : string) : option string :=
  if bool_decide (name = "__proto__") then Some "[object Object]"
  else if bool_decide (name = "constructor")
  then Some "function Object() { [native code] }"
  else if bool_decide
            (name ∈ ["__defineGetter__"; "__defineSetter__"; "hasOwnProperty";
                     "__lookupGetter__"; "__lookupSetter__"; "isPrototypeOf";
                     "propertyIsEnumerable"; "toString"; "valueOf";
                     "toLocaleString"])
  then Some ("function " +:+ name +:+ "() { [native code] }")
  else None.

(** [(byTemplate[name] || 0) + 1]: the property read is the object's own
    or, failing that, the inherited one; a number counts on, anything else
    that is truthy is joined with the text of 1. *)
Definition nextTally (name : string) (counters : gmap string Tally) : Tally :=
  match counters !! name with
  | Some (Uses n) => Uses (n + 1)
  | Some (Spoilt text) =>
      if JsString.truthy text then Spoilt (text +:+ "1") else Uses 1
  | None =>
      match Object_prototype name with
      | Some text => Spoilt (text +:+ "1")
      | None => Uses 1
      end
  end.

(** [byTemplate[name] = value]: an own property is set, except under
    [__proto__], whose inherited setter ignores a value that is no object. *)
Definition setTally (name : string) (value : Tally)
    (counters : gmap string Tally) : gmap string Tally :=
  if bool_decide (name = "__proto__") then counters
  else <[name := value]> counters.

(** The effect of the template usage update on the [statistics] field. *)
Definition bumpTemplate_on (templateName : string) (st : Statistics)
    : Statistics :=
  mkStatistics (totalGenerated st) (byFormat st)
               (setTally templateName
                  (nextTally templateName (byTemplate st)) (byTemplate st))
               (averageSize st) (averageGenerationTime st)
               (generationTimes st) (sizes st) (topContentTypes st)
               (lastGenerated st).

Definition bumpTemplate (templateName : string) : Js unit :=
  fun s =>
    (inr tt,
     with_statistics (bumpTemplate_on templateName (statistics s)) s).

(** [overrides] is a [Partial<QRStyle & QRConfig>]: its style properties
    and its config properties. *)
Definition generateFromTemplate (content templateName : string)
    (overrides : QRStyle * QRConfig) : Js QRGenerationResult :=
  let* found := (fun s => (inr (Map_get templateName (templates s)), s)) in
  match found with
  | None =>
      throw (QRValidationError ("Template not found: " +:+ templateName)
                               NoDetails)
  | Some template =>
      let mergedStyle := mergeStyle (template_style template) (fst overrides) in
      let mergedConfig :=
        mergeConfig (template_config template) (snd overrides) in
      let* result := generateStyled content mergedStyle mergedConfig in
      bumpTemplate templateName ;;
      ret result
  end.

End Engine.

Definition businessTemplate : QRTemplate :=
  {| template_name := "business";
     template_description := "Professional business card style";
     template_category := business;
     template_style :=
       {| style_foregroundColor := Some "#1a365d";
          style_backgroundColor := Some "#ffffff";
          style_logoPath := None;
          style_logoSize := None;
          style_cornerRadius := Some 5;
          style_dotStyle := Some square;
          style_gradientStart := None;
          style_gradientEnd := None;
          style_borderWidth := Some 2;
          style_borderColor := Some "#1a365d" |};
     template_config :=
       {| config_size := Some 300;
          config_margin := Some 2;
          config_errorCorrectionLevel := Some LevelM;
          config_format := Some png |} |}.

Definition socialTemplate : QRTemplate :=
  {| template_name := "social";
     template_description := "Colorful social media style";
     template_category := social;
     template_style :=
       {| style_foregroundColor := Some "#e53e3e";
          style_backgroundColor := Some "#fff5f5";
          style_logoPath := None;
          style_logoSize := None;
          style_cornerRadius := Some 15;
          style_dotStyle := Some round;
          style_gradientStart := Some "#e53e3e";
          style_gradientEnd := Some "#c53030";
          style_borderWidth := None;
          style_borderColor := None |};
     template_config :=
       {| config_size := Some 400;
          config_margin := Some 1;
          config_errorCorrectionLevel := Some LevelM;
          config_format := Some png |} |}.

(** [initializeDefaultTemplates] on the empty map of a new instance. *)
Definition initializeDefaultTemplates : list (string * QRTemplate) :=
  Map_set "social" socialTemplate (Map_set "business" businessTemplate []).

(** The [statistics] field of a new instance, created at time [t]. *)
Definition initialStatistics (ext : Externals) (t : Z) : Statistics :=
  {| totalGenerated := 0;
     byFormat := ∅;
     byTemplate := ∅;
     averageSize := 0;
     averageGenerationTime := 0;
     generationTimes := [];
     sizes := [];
     topContentTypes := [];
     lastGenerated := toISOString ext t |}.

(** ** Tool handlers ([src/index.ts])

    A handler's reply is a text that renders the values computed here; the
    model returns the values. *)

Record BasicArgs := mkBasicArgs {
  basic_content : string;
  basic_config : QRConfig;
}.

Record StyledArgs := mkStyledArgs {
  styled_content : string;
  styled_style : option QRStyle;
  styled_config : option QRConfig;
}.

Record BatchItem := mkBatchItem {
  item_content : string;
  item_filename : option string;
  item_style : option QRStyle;
}.

Record BatchArgs := mkBatchArgs {
  batch_items : list BatchItem;
  batch_outputDir : option string;
  batch_format : option Format;
  batch_baseConfig : option QRConfig;
}.

Definition BatchQRSchema_accepts (args : BatchArgs) : bool :=
  forallb (fun item =>
             match item_style item with
             | Some st => QRStyleSchema_accepts st
             | None => true
             end) (batch_items args)
  && match batch_format args with
     | Some jpeg => false
     | _ => true
     end
  && match batch_baseConfig args with
     | Some c => QRConfigSchema_accepts c
     | None => true
     end.

Record BatchEntry := mkBatchEntry {
  entry_index : nat;
  entry_success : bool;
  entry_file : option string;
  entry_error : option string;
}.

Record BatchReport := mkBatchReport {
  report_successful : nat;
  report_failed : nat;
  report_outputDir : string;
  report_results : list BatchEntry;
}.

Section Server.

Variable ext : Externals.

Definition handleGenerateBasic (args : BasicArgs) : Js QRGenerationResult :=
  if negb (QRConfigSchema_accepts (basic_config args))
  then throw (QRValidationError "Invalid basic QR configuration" SchemaIssues)
  else generateBasic ext (basic_content args)
                     (QRConfigSchema_data (basic_config args)).

Definition handleGenerateStyled (args : StyledArgs) : Js QRGenerationResult :=
  generateStyled ext (styled_content args)
                 (default emptyStyle (styled_style args))
                 (default emptyConfig (styled_config args)).

(** [{ ...args.baseConfig, format: args.format }] *)
Definition batchConfig (args : BatchArgs) : QRConfig :=
  let base := default emptyConfig (batch_baseConfig args) in
  {| config_size := config_size base;
     config_margin := config_margin base;
     config_errorCorrectionLevel := config_errorCorrectionLevel base;
     config_format := batch_format args |}.

(** One turn of the [for] loop: the entry pushed for item [i]. *)
Definition batchItem (args : BatchArgs) (i : nat) (item : BatchItem)
    : Js BatchEntry :=
  try_catch
    (let* result :=
       generateStyled ext (item_content item)
                      (default emptyStyle (item_style item))
                      (batchConfig args) in
     ret {| entry_index := i;
            entry_success := true;
            entry_file := gen_filePath result;
            entry_error := None |})
    (fun error =>
       ret {| entry_index := i;
              entry_success := false;
              entry_file := None;
              entry_error := Some (messageOf error) |}).

(** The loop from index [i] on, over the items still to do. *)
Fixpoint batchLoop (args : BatchArgs) (i : nat) (items : list BatchItem)
    (results : list BatchEntry) : Js (list BatchEntry) :=
  match items with
  | [] => ret results
  | item :: rest =>
      let* entry := batchItem args i item in
      batchLoop args (S i) rest (results ++ [entry])
  end.

Definition handleGenerateBatch (args : BatchArgs) : Js BatchReport :=
  if negb (BatchQRSchema_accepts args)
  then throw (QRValidationError "Invalid batch parameters" SchemaIssues)
  else
    let outputDir := JsString.orElse (batch_outputDir args) "./qr-codes" in
    fs_ensureDir ext outputDir ;;
    let* results := batchLoop args 0 (batch_items args) [] in
    let successful := length (filter (fun r => entry_success r = true) results) in
    let failed := (length results - successful)%nat in
    ret {| report_successful := successful;
           report_failed := failed;
           report_outputDir := outputDir;
           report_results := results |}.

End Server.

(** ** A small set of libraries to run the engine on

    A toy codec, enough to execute the methods: the encoder stores the
    content's bytes after a marker byte and refuses content longer than 64
    characters; the bitmap reader accepts any non-empty buffer; the decoder
    finds a symbol exactly in the bitmaps that start with the marker. *)

Definition marker : Byte.byte := Byte.x51.

Definition demo_toBuffer (content : string) (_ : RenderOptions)
    : Thrown + list Byte.byte :=
  if (64 <? String.length content)%nat
  then inl (LibraryError "The amount of data is too big to be stored in a QR Code")
  else inr (marker :: list_byte_of_string content).

Definition demo_read (path : string) (file : option Data) : Thrown + Bitmap :=
  match file with
  | Some (Buffer (b :: bs)) => inr (mkBitmap (b :: bs) 300 300)
  | _ => inl (LibraryError "Could not find MIME for Buffer")
  end.

Definition demo_jsQR (data : list Byte.byte) (width height : Z)
    : option QRCode :=
  match data with
  | b :: bs =>
      if Byte.eqb b marker
      then Some (mkQRCode (string_of_list_byte bs) 1 "M" 0 21)
      else None
  | [] => None
  end.

Definition demo_loadImage (src : string) (file : option Data)
    : Thrown + Image :=
  match file with
  | Some (Buffer bs) => inr (mkImage bs)
  | Some (Text _) => inl (LibraryError "Unsupported image type")
  | None => inr (mkImage (list_byte_of_string src))
  end.

Definition demo_rasterise (c : Canvas) : list Byte.byte :=
  flat_map (fun op =>
              match op with
              | DrawImage img _ _ _ _ => image_pixels img
              | FillRect _ _ _ _ _ => []
              end) (canvas_ops c).

Fixpoint demo_digits (fuel n : nat) : string :=
  match fuel with
  | O => EmptyString
  | S fuel' =>
      let d := String (ascii_of_nat (48 + n mod 10)) EmptyString in
      if (n <? 10)%nat then d else demo_digits fuel' (n / 10) +:+ d
  end.

Definition demoExt : Externals :=
  {| QRCode_toBuffer := demo_toBuffer;
     QRCode_toDataURL := fun content opts =>
       match demo_toBuffer content opts with
       | inr bs => inr (string_of_list_byte bs)
       | inl e => inl e
       end;
     QRCodeSVG_svg := fun opts =>
       inr ("<svg>" +:+ svg_content opts +:+ "</svg>");
     Jimp_read := demo_read;
     jsQR := demo_jsQR;
     loadImage := demo_loadImage;
     canvas_toBuffer := demo_rasterise;
     sharp_probe := fun _ _ =>
       inr (mkImageMetadata (Some 300) (Some 300),
            mkImageStats (Some [mkChannelStats (Some 0) (Some 255)]));
     uuidv4 := fun n => demo_digits (S n) n;
     toISOString := fun t => "T" +:+ demo_digits (S (Z.to_nat t)) (Z.to_nat t);
     path_join := fun dir file => dir +:+ "/" +:+ file;
     path_dirname := fun _ => "./qr-codes";
     path_basename := fun p => p;
     ensureDir_fault := fun _ => None;
     writeFile_fault := fun _ => None;
     latency := fun _ => 1 |}.

(** A fresh process: nothing on disk but one photograph without a symbol,
    a new [QRCodeEnhanced] instance. *)
Definition demoState : State :=
  {| files := {[ "photo.png" := Buffer [Byte.x89; Byte.x50; Byte.x4e; Byte.x47] ]};
     directories := ∅;
     QR_OUTPUT_DIR := None;
     clock := 0;
     uuidsDrawn := 0;
     trace := [];
     statistics := initialStatistics demoExt 0;
     templates := initializeDefaultTemplates |}.

(** ** Vocabulary of the properties

    What the statements below are written with: the words of the
    specification as functions, the options the engine passes to the
    encoders, runs of several calls, and a predicate for what a method does
    to the state. *)

(** *** Content and paths *)

(** What [validateContent] lets through: some character is not white
    space, and there are at most 4296 of them. *)
Definition validContent (content : string) : bool :=
  negb (JsString.allWhiteSpace content)
  && (String.length content <=? 4296)%nat.

(** The options [generatePNG] passes to [QRCode.toBuffer]. *)
Definition pngOptions (config : QRConfig) : RenderOptions :=
  {| opt_width := config_size config;
     opt_margin := config_margin config;
     opt_errorCorrectionLevel := config_errorCorrectionLevel config;
     opt_color := None |}.

(** The options [generateStyled] passes to [QRCode.toDataURL]. *)
Definition dataURLOptions (style : QRStyle) (config : QRConfig)
    : RenderOptions :=
  {| opt_width := config_size config;
     opt_margin := config_margin config;
     opt_errorCorrectionLevel := config_errorCorrectionLevel config;
     opt_color := Some (style_foregroundColor style,
                        style_backgroundColor style) |}.

(** The path [generateOutputPath] hands out in state [s]. *)
Definition outputPathOf (ext : Externals) (s : State) (format : string)
    : string :=
  path_join ext (JsString.orElse (QR_OUTPUT_DIR s) "./qr-codes")
            ("qr-" +:+ uuidv4 ext (uuidsDrawn s) +:+ "." +:+ format).

(** What [decodeFromImage] throws for a path at which nothing exists. *)
Definition notFound (imagePath : string) : Thrown :=
  QRAnalysisError
    ("Failed to decode QR code: Image file not found: " +:+ imagePath)
    (ImagePathDetails imagePath).

(** The state after the three calls of a decoding that reaches [jsQR]. *)
Definition afterDecode (ext : Externals) (imagePath : string)
    (bitmap : Bitmap) (s : State) : State :=
  (call ext (DecodeBitmap bitmap)
     (call ext (ReadBitmap imagePath)
        (call ext (PathExists imagePath) s).2).2).2.

(** *** The WiFi grammar *)

(** The single-line grammar, in the words of the specification. *)
Definition wifiGrammar (security ssid password hidden : string) : string :=
  "WIFI:T:" +:+ security +:+ ";S:" +:+ ssid +:+ ";P:" +:+ password
  +:+ ";H:" +:+ hidden +:+ ";;".

Definition passwordOrEmpty (password : option string) : string :=
  default EmptyString password.

Definition hiddenFlag (hidden : option bool) : string :=
  match hidden with
  | Some true => "true"
  | Some false | None => "false"
  end.

(** *** The scoring rule *)

(** The scoring rule in the words of the specification. *)
Definition dimensionBelow (limit : Z) (metadata : ImageMetadata) : bool :=
  match meta_width metadata, meta_height metadata with
  | Some w, Some h => (w <? limit) || (h <? limit)
  | Some w, None => w <? limit
  | None, Some h => h <? limit
  | None, None => false
  end.

Definition luminanceRangeBelow (limit : Z) (stats : ImageStats) : bool :=
  match stats_channels stats with
  | Some (luminance :: _) =>
      match channel_max luminance, channel_min luminance with
      | Some hi, Some lo => hi - lo <? limit
      | _, _ => false
      end
  | _ => false
  end.

Definition specScore (metadata : ImageMetadata) (stats : ImageStats)
    (content : string) : Z :=
  Z.max 0
    (100
     - (if dimensionBelow 200 metadata then 20 else 0)
     - (if luminanceRangeBelow 128 stats then 30 else 0)
     - (if (1000 <? String.length content)%nat then 10 else 0)).

Definition specTier (score : Z) : Readability :=
  if 90 <=? score then excellent
  else if 70 <=? score then good
  else if 50 <=? score then fair
  else poor.

(** *** Outcomes of methods *)

(** [wp m s Q]: running [m] from [s] ends in an outcome and a state that
    satisfy [Q].  Methods are total functions, so this is a statement about
    the one run there is. *)
Definition wp {A} (m : Js A) (s : State) (Q : Thrown + A -> State -> Prop)
    : Prop :=
  Q (m s).1 (m s).2.

(** The part of the state a method leaves alone unless it says so. *)
Definition sameDisk (s s' : State) : Prop :=
  files s' = files s /\ statistics s' = statistics s.

(** The results of the calls that returned. *)
Fixpoint successes {A} (outcomes : list (Thrown + A)) : list A :=
  match outcomes with
  | [] => []
  | inr a :: rest => a :: successes rest
  | inl _ :: rest => successes rest
  end.

(** The errors of the calls that threw. *)
Fixpoint failures {A} (outcomes : list (Thrown + A)) : list Thrown :=
  match outcomes with
  | [] => []
  | inl e :: rest => e :: failures rest
  | inr _ :: rest => failures rest
  end.

Definition succeeded {A} (o : Thrown + A) : Prop :=
  match o with inr _ => True | inl _ => False end.

(** *** Runs of generation calls *)

(** A generation request, and a run of requests one after another. *)
Inductive Request :=
| BasicRequest (content : string) (config : QRConfig)
| StyledRequest (content : string) (style : QRStyle) (config : QRConfig)
| TemplateRequest (content templateName : string)
                  (overrides : QRStyle * QRConfig).

Definition generate (ext : Externals) (request : Request)
    : Js QRGenerationResult :=
  match request with
  | BasicRequest content config => generateBasic ext content config
  | StyledRequest content style config =>
      generateStyled ext content style config
  | TemplateRequest content templateName overrides =>
      generateFromTemplate ext content templateName overrides
  end.

Fixpoint generateAll (ext : Externals) (requests : list Request) (s : State)
    : list (Thrown + QRGenerationResult) * State :=
  match requests with
  | [] => ([], s)
  | request :: rest =>
      let '(o, s1) := generate ext request s in
      let '(os, s2) := generateAll ext rest s1 in
      (o :: os, s2)
  end.

(** One successful generation, seen from the statistics. *)
Definition recorded (r : QRGenerationResult) (st st' : Statistics) : Prop :=
  totalGenerated st' = S (totalGenerated st)
  /\ sizes st' = slice_last 1000 (sizes st ++ [gen_size r])
  /\ exists t,
       generationTimes st' = slice_last 1000 (generationTimes st ++ [t]).

(** *** Batch entries *)

(** The entry the loop pushes for item [i], given how its generation
    ended. *)
Definition entryOf (i : nat) (o : Thrown + QRGenerationResult) : BatchEntry :=
  match o with
  | inr result =>
      {| entry_index := i;
         entry_success := true;
         entry_file := gen_filePath result;
         entry_error := None |}
  | inl error =>
      {| entry_index := i;
         entry_success := false;
         entry_file := None;
         entry_error := Some (messageOf error) |}
  end.

Fixpoint entriesFrom (i : nat) (outcomes : list (Thrown + QRGenerationResult))
    : list BatchEntry :=
  match outcomes with
  | [] => []
  | o :: rest => entryOf i o :: entriesFrom (S i) rest
  end.

(** Styled generation of each item in turn, each from the state the one
    before it left, whether that one returned or threw. *)
Fixpoint itemRuns (ext : Externals) (args : BatchArgs)
    (items : list BatchItem) (s : State)
    : list (Thrown + QRGenerationResult) * State :=
  match items with
  | [] => ([], s)
  | item :: rest =>
      let '(o, s1) :=
        generateStyled ext (item_content item)
                       (default emptyStyle (item_style item))
                       (batchConfig args) s in
      let '(os, s2) := itemRuns ext args rest s1 in
      (o :: os, s2)
  end.

(** *** Inputs for the runs on the small set of libraries *)

Definition pdfConfig : QRConfig := mkQRConfig None None None (Some pdf).

(** A size below 50 and a margin above 10. *)
Definition tinyConfig : QRConfig := mkQRConfig (Some 10) (Some 50) None None.

Definition threeItems : BatchArgs :=
  {| batch_items :=
       [mkBatchItem "first" None None; mkBatchItem EmptyString None None;
        mkBatchItem "third" None None];
     batch_outputDir := None;
     batch_format := None;
     batch_baseConfig := None |}.

(** A full window of sizes 0 .. 999. *)
Definition fullWindow : Statistics :=
  {| totalGenerated := 1000;
     byFormat := {[ "png" := 1000%nat ]};
     byTemplate := ∅;
     averageSize := 0;
     averageGenerationTime := 0;
     generationTimes := Z.of_nat <$> seq 0 1000;
     sizes := seq 0 1000;
     topContentTypes := [];
     lastGenerated := "T0" |}.

Definition demoRequests : list Request :=
  [BasicRequest "hello" emptyConfig;
   BasicRequest EmptyString emptyConfig;
   StyledRequest "styled" emptyStyle emptyConfig;
   TemplateRequest "card" "business" (emptyStyle, emptyConfig);
   TemplateRequest "card" "missing" (emptyStyle, emptyConfig)].

(** ** More of the engine

    The contact and calendar payload encoders, the structured generators,
    and the remaining string operations of the standard library that the
    handlers use. *)

Module JsText.

(** The line feed of the template literals. *)
Definition LF : string := String "010" EmptyString.

(** [s.startsWith(p)] *)
Definition startsWith (p s : string) : bool := String.prefix p s.

(** [s.replace(pattern, replacement)] with a string pattern: the first
    occurrence only.  (The replacements used have no dollar sign.) *)
Fixpoint replaceFirst (pattern replacement s : string) : string :=
  if String.prefix pattern s
  then replacement +:+ String.substring (String.length pattern)
                         (String.length s - String.length pattern) s
  else match s with
       | EmptyString => EmptyString
       | String c s' => String c (replaceFirst pattern replacement s')
       end.

(** [s.split(c)[0]]: what comes before the first [c], all of [s] when
    there is none. *)
Fixpoint beforeFirst (c : ascii) (s : string) : string :=
  match s with
  | EmptyString => EmptyString
  | String c' s' =>
      if Ascii.eqb c' c then EmptyString else String c' (beforeFirst c s')
  end.

(** [s.replace(/[...]/g, '')] for a character class. *)
Fixpoint removeAll (class : ascii -> bool) (s : string) : string :=
  match s with
  | EmptyString => EmptyString
  | String c s' =>
      if class c then removeAll class s' else String c (removeAll class s')
  end.

(** Truthiness of an optional string property. *)
Definition present (o : option string) : bool :=
  match o with
  | Some s => JsString.truthy s
  | None => false
  end.

End JsText.

(** A regular expression over code units, matched by derivatives; enough
    for the expressions of the handlers. *)
Module Regex.

Inductive t :=
| Never
| Empty
| Class (accepts : ascii -> bool)
| Seq (r1 r2 : t)
| Alt (r1 r2 : t)
| Star (r : t).

(** [r+] *)
Definition Plus (r : t) : t := Seq r (Star r).

Fixpoint nullable (r : t) : bool :=
  match r with
  | Never => false
  | Empty => true
  | Class _ => false
  | Seq r1 r2 => nullable r1 && nullable r2
  | Alt r1 r2 => nullable r1 || nullable r2
  | Star _ => true
  end.

Fixpoint derive (c : ascii) (r : t) : t :=
  match r with
  | Never => Never
  | Empty => Never
  | Class accepts => if accepts c then Empty else Never
  | Seq r1 r2 =>
      if nullable r1
      then Alt (Seq (derive c r1) r2) (derive c r2)
      else Seq (derive c r1) r2
  | Alt r1 r2 => Alt (derive c r1) (derive c r2)
  | Star r1 => Seq (derive c r1) (Star r1)
  end.

(** [/^r$/.test(s)] *)
Fixpoint test (r : t) (s : string) : bool :=
  match s with
  | EmptyString => nullable r
  | String c s' => test (derive c r) s'
  end.

(** The strings of [r], as a relation. *)
Inductive Matches : t -> string -> Prop :=
| MEmpty : Matches Empty EmptyString
| MClass accepts c :
    accepts c = true -> Matches (Class accepts) (String c EmptyString)
| MSeq r1 r2 s1 s2 :
    Matches r1 s1 -> Matches r2 s2 -> Matches (Seq r1 r2) (s1 +:+ s2)
| MAltL r1 r2 s : Matches r1 s -> Matches (Alt r1 r2) s
| MAltR r1 r2 s : Matches r2 s -> Matches (Alt r1 r2) s
| MStarNil r : Matches (Star r) EmptyString
| MStarCons r s1 s2 :
    Matches r s1 -> Matches (Star r) s2 -> Matches (Star r) (s1 +:+ s2).

End Regex.

Record Address := mkAddress {
  addr_street : option string;
  addr_city : option string;
  addr_state : option string;
  addr_zip : option string;
  addr_country : option string;
}.

Record VCard := mkVCard {
  vcard_firstName : string;
  vcard_lastName : string;
  vcard_organization : option string;
  vcard_title : option string;
  vcard_phone : option string;
  vcard_email : option string;
  vcard_website : option string;
  vcard_address : option Address;
}.

(** The calendar event of [EventSchema] (the type [Event] of the source). *)
Record CalendarEvent := mkCalendarEvent {
  event_title : string;
  event_description : option string;
  event_location : option string;
  event_startDate : string;
  event_endDate : option string;
  event_allDay : bool;
}.

(** [if (value) { content += `${tag}${value}\n`; }] *)
Definition appendLineIf (tag : string) (value : option string)
    (content : string) : string :=
  match value with
  | Some v =>
      if JsString.truthy v then content +:+ tag +:+ v +:+ JsText.LF
      else content
  | None => content
  end.

Definition buildVCardContent (vcard : VCard) : string :=
  let content := "BEGIN:VCARD" +:+ JsText.LF +:+ "VERSION:3.0" +:+ JsText.LF in
  let content :=
    content +:+ "FN:" +:+ vcard_firstName vcard +:+ " "
    +:+ vcard_lastName vcard +:+ JsText.LF in
  let content :=
    content +:+ "N:" +:+ vcard_lastName vcard +:+ ";"
    +:+ vcard_firstName vcard +:+ ";;;" +:+ JsText.LF in
  let content := appendLineIf "ORG:" (vcard_organization vcard) content in
  let content := appendLineIf "TITLE:" (vcard_title vcard) content in
  let content := appendLineIf "TEL:" (vcard_phone vcard) content in
  let content := appendLineIf "EMAIL:" (vcard_email vcard) content in
  let content := appendLineIf "URL:" (vcard_website vcard) content in
  let content :=
    match vcard_address vcard with
    | Some addr =>
        content +:+ "ADR:;;" +:+ JsString.orElse (addr_street addr) EmptyString
        +:+ ";" +:+ JsString.orElse (addr_city addr) EmptyString
        +:+ ";" +:+ JsString.orElse (addr_state addr) EmptyString
        +:+ ";" +:+ JsString.orElse (addr_zip addr) EmptyString
        +:+ ";" +:+ JsString.orElse (addr_country addr) EmptyString
        +:+ JsText.LF
    | None => content
    end in
  content +:+ "END:VCARD".

Definition isDash (c : ascii) : bool := Ascii.eqb c "-".

Definition isDashOrColon (c : ascii) : bool :=
  Ascii.eqb c "-" || Ascii.eqb c ":".

Section Calendar.

Variable ext : Externals.

(** [new Date(dateStr)]: the time value, [None] for an invalid date. *)
Variable Date_parse : string -> option Z.

(** [date.toISOString()], which throws a RangeError on an invalid date. *)
Definition Date_toISO (dateStr : string) : Thrown + string :=
  match Date_parse dateStr with
  | Some t => inr (toISOString ext t)
  | None => inl (LibraryError "Invalid time value")
  end.

Definition formatDateForEvent (dateStr : string) (allDay : bool)
    : Thrown + string :=
  match Date_toISO dateStr with
  | inl e => inl e
  | inr iso =>
      if allDay
      then inr (JsText.removeAll isDash (JsText.beforeFirst "T" iso))
      else inr (JsText.beforeFirst "." (JsText.removeAll isDashOrColon iso)
                +:+ "Z")
  end.

Definition buildEventContent (event : CalendarEvent) : Thrown + string :=
  let content := "BEGIN:VEVENT" +:+ JsText.LF in
  let content := content +:+ "SUMMARY:" +:+ event_title event +:+ JsText.LF in
  match formatDateForEvent (event_startDate event) (event_allDay event) with
  | inl e => inl e
  | inr start =>
      let content := content +:+ "DTSTART:" +:+ start +:+ JsText.LF in
      let withEnd :=
        match event_endDate event with
        | Some endDate =>
            if JsString.truthy endDate then
              match formatDateForEvent endDate (event_allDay event) with
              | inl e => inl e
              | inr finish =>
                  inr (content +:+ "DTEND:" +:+ finish +:+ JsText.LF)
              end
            else inr content
        | None => inr content
        end in
      match withEnd with
      | inl e => inl e
      | inr content =>
          let content :=
            appendLineIf "DESCRIPTION:" (event_description event) content in
          let content :=
            appendLineIf "LOCATION:" (event_location event) content in
          inr (content +:+ "END:VEVENT")
      end
  end.

Definition generateVCard (vcard : VCard) (config : QRConfig)
    : Js QRGenerationResult :=
  let vcardContent := buildVCardContent vcard in
  generateBasic ext vcardContent config.

Definition generateEvent (event : CalendarEvent) (config : QRConfig)
    : Js QRGenerationResult :=
  match buildEventContent event with
  | inl e => throw e
  | inr eventContent => generateBasic ext eventContent config
  end.

End Calendar.

(** ** More of the tool handlers ([src/index.ts]) *)

Record WiFiArgs := mkWiFiArgs {
  wifiArgs_ssid : string;
  wifiArgs_password : option string;
  wifiArgs_security : option Security;
  wifiArgs_hidden : option bool;
  wifiArgs_config : option QRConfig;
}.

(** [WiFiSchema.safeParse(args).data]: the defaults are filled in.  (The
    schema refuses only arguments of the wrong type, which [WiFiArgs]
    leaves out.) *)
Definition WiFiSchema_data (args : WiFiArgs) : WiFi :=
  {| wifi_ssid := wifiArgs_ssid args;
     wifi_password := wifiArgs_password args;
     wifi_security := default WPA2 (wifiArgs_security args);
     wifi_hidden := Some (default false (wifiArgs_hidden args)) |}.

Inductive ContentType := ctUrl | ctText | ctEmail | ctPhone | ctWifi | ctVcard.

Definition ContentType_toString (c : ContentType) : string :=
  match c with
  | ctUrl => "url" | ctText => "text" | ctEmail => "email"
  | ctPhone => "phone" | ctWifi => "wifi" | ctVcard => "vcard"
  end.

Record ValidateArgs := mkValidateArgs {
  validate_content : string;
  validate_contentType : option ContentType;
}.

(** What the reply of [validate_qr_content] renders. *)
Inductive ValidateReply :=
| ValidationSuccessful (contentLength : nat) (contentType : string)
    (complexity : string) (recommendations : list string)
| ValidationFailed (message : string).

Record OptimizeArgs := mkOptimizeArgs {
  optimize_content : string;
  optimize_targetSize : option Z;
}.

(** What the reply of [optimize_qr_content] renders. *)
Record OptimizeReply := mkOptimizeReply {
  originalLength : nat;
  optimizedLength : nat;
  sizeReduction : Z;
  optimizedContent : string;
  optimizations : list string;
}.

(** [[^\s@]] *)
Definition notSpaceNorAt (c : ascii) : bool :=
  negb (JsString.isWhiteSpace c || Ascii.eqb c "@").

(** [/^[^\s@]+@[^\s@]+\.[^\s@]+$/] *)
Definition emailRegex : Regex.t :=
  Regex.Seq (Regex.Plus (Regex.Class notSpaceNorAt))
    (Regex.Seq (Regex.Class (fun c => Ascii.eqb c "@"))
       (Regex.Seq (Regex.Plus (Regex.Class notSpaceNorAt))
          (Regex.Seq (Regex.Class (fun c => Ascii.eqb c "."))
             (Regex.Plus (Regex.Class notSpaceNorAt))))).

Definition estimateQRComplexity (content : string) : string :=
  if (String.length content <? 50)%nat then "Low"
  else if (String.length content <? 200)%nat then "Medium"
  else if (String.length content <? 500)%nat then "High"
  else "Very High".

Section MoreHandlers.

Variable ext : Externals.

(** Whether [new URL(content)] returns rather than throws. *)
Variable URL_parses : string -> bool.

Definition handleGenerateWiFi (args : WiFiArgs) : Js QRGenerationResult :=
  generateWiFi ext (WiFiSchema_data args)
               (default emptyConfig (wifiArgs_config args)).

Definition handleGenerateFromTemplate (content templateName : string)
    (overrides : option (QRStyle * QRConfig)) : Js QRGenerationResult :=
  generateFromTemplate ext content templateName
                       (default (emptyStyle, emptyConfig) overrides).

(** The handler catches what its own checks throw and replies with the
    message; it changes no state. *)
Definition handleValidateContent (args : ValidateArgs) : ValidateReply :=
  let content := validate_content args in
  if negb (JsString.truthy content)
     || (String.length (JsString.trim content) =? 0)%nat
  then ValidationFailed "Content cannot be empty"
  else if (4296 <? String.length content)%nat
  then ValidationFailed "Content exceeds maximum length of 4296 characters"
  else
    let recommendations := [] in
    let recommendations :=
      match validate_contentType args with
      | Some ctUrl =>
          if URL_parses content then recommendations
          else recommendations
                 ++ ["Content does not appear to be a valid URL"]
      | _ => recommendations
      end in
    let recommendations :=
      match validate_contentType args with
      | Some ctEmail =>
          if negb (Regex.test emailRegex content)
          then recommendations
                 ++ ["Content does not appear to be a valid email address"]
          else recommendations
      | _ => recommendations
      end in
    ValidationSuccessful (String.length content)
      (match validate_contentType args with
       | Some c => ContentType_toString c
       | None => "text"
       end)
      (estimateQRComplexity content) recommendations.

End MoreHandlers.

Definition handleOptimizeContent (args : OptimizeArgs) : OptimizeReply :=
  let optimized := optimize_content args in
  let recommendations := [] in
  let '(optimized, recommendations) :=
    if JsText.startsWith "http://" optimized
    then (JsText.replaceFirst "http://" "https://" optimized,
          recommendations ++ ["Upgraded HTTP to HTTPS"])
    else (optimized, recommendations) in
  let trimmed := JsString.trim optimized in
  let '(optimized, recommendations) :=
    if negb (String.eqb trimmed optimized)
    then (trimmed,
          recommendations ++ ["Removed leading/trailing whitespace"])
    else (optimized, recommendations) in
  let recommendations :=
    if JsText.startsWith "https://" optimized
       && (100 <? String.length optimized)%nat
    then recommendations ++ ["Consider using a URL shortener for long URLs"]
    else recommendations in
  {| originalLength := String.length (optimize_content args);
     optimizedLength := String.length optimized;
     sizeReduction :=
       Z.of_nat (String.length (optimize_content args))
       - Z.of_nat (String.length optimized);
     optimizedContent := optimized;
     optimizations := recommendations |}.

(** ** More vocabulary of the properties *)

(** The last white space of a string stripped, by recursion from the
    front. *)
Fixpoint stripEnd (s : string) : string :=
  match s with
  | EmptyString => EmptyString
  | String c s' =>
      match stripEnd s' with
      | EmptyString =>
          if JsString.isWhiteSpace c then EmptyString
          else String c EmptyString
      | t => String c t
      end
  end.

(** A string neither begins nor ends with white space. *)
Definition trimmed (s : string) : Prop := JsString.trim s = s.

(** The line of an optional property, if it makes one. *)
Definition optionalLine (tag : string) (value : option string) : list string :=
  match value with
  | Some v => if JsString.truthy v then [tag +:+ v] else []
  | None => []
  end.

Definition addressLine (address : option Address) : list string :=
  match address with
  | Some addr =>
      ["ADR:;;" +:+ default EmptyString (addr_street addr)
       +:+ ";" +:+ default EmptyString (addr_city addr)
       +:+ ";" +:+ default EmptyString (addr_state addr)
       +:+ ";" +:+ default EmptyString (addr_zip addr)
       +:+ ";" +:+ default EmptyString (addr_country addr)]
  | None => []
  end.

(** The lines of a contact card. *)
Definition vcardLines (vcard : VCard) : list string :=
  ["BEGIN:VCARD"; "VERSION:3.0";
   "FN:" +:+ vcard_firstName vcard +:+ " " +:+ vcard_lastName vcard;
   "N:" +:+ vcard_lastName vcard +:+ ";" +:+ vcard_firstName vcard +:+ ";;;"]
  ++ optionalLine "ORG:" (vcard_organization vcard)
  ++ optionalLine "TITLE:" (vcard_title vcard)
  ++ optionalLine "TEL:" (vcard_phone vcard)
  ++ optionalLine "EMAIL:" (vcard_email vcard)
  ++ optionalLine "URL:" (vcard_website vcard)
  ++ addressLine (vcard_address vcard)
  ++ ["END:VCARD"].

(** No character of the string is one of the separators of an ISO time
    stamp. *)
Fixpoint freeOf (separators : list ascii) (s : string) : bool :=
  match s with
  | EmptyString => true
  | String c s' =>
      negb (bool_decide (c ∈ separators)) && freeOf separators s'
  end.

Definition isoSeparators : list ascii := ["-"; ":"; "."; "T"]%char.

(** [YYYY-MM-DDTHH:mm:ss.sssZ], from its parts. *)
Definition isoStamp (year month day hour minute second millis : string)
    : string :=
  year +:+ "-" +:+ month +:+ "-" +:+ day +:+ "T" +:+ hour +:+ ":"
  +:+ minute +:+ ":" +:+ second +:+ "." +:+ millis +:+ "Z".

(** The result describes the file it reports: that file holds the result's
    data, and the sizes are the length of the data. *)
Definition describesFile (r : QRGenerationResult) (s : State) : Prop :=
  gen_success r = true
  /\ gen_error r = None
  /\ exists path data,
       gen_filePath r = Some path
       /\ gen_data r = Some data
       /\ files s !! path = Some data
       /\ gen_size r = Data_length data
       /\ estimatedSize <$> gen_metadata r = Some (gen_size r).

(** The registry's keys are distinct and are the names of its templates. *)
Definition wellKeyed (registry : list (string * QRTemplate)) : Prop :=
  NoDup (map fst registry)
  /\ Forall (fun entry => template_name (snd entry) = fst entry) registry.

(** Every generation counted falls under png or svg, and nothing else is
    counted. *)
Definition formatsAddUp (st : Statistics) : Prop :=
  (default 0 (byFormat st !! "png") + default 0 (byFormat st !! "svg"))%nat
  = totalGenerated st
  /\ forall format,
       format <> "png" -> format <> "svg" -> byFormat st !! format = None.

(** A non-empty run of characters that are neither white space nor [@]. *)
Definition plainPart (s : string) : Prop :=
  s <> EmptyString /\ JsText.removeAll notSpaceNorAt s = EmptyString.

(** A toy clock whose text is a fixed ISO time stamp, and a date parser
    that knows the dates written with a digit first. *)
Definition isoExt : Externals :=
  mkExternals (QRCode_toBuffer demoExt) (QRCode_toDataURL demoExt)
    (QRCodeSVG_svg demoExt) (Jimp_read demoExt) (jsQR demoExt)
    (loadImage demoExt) (canvas_toBuffer demoExt) (sharp_probe demoExt)
    (uuidv4 demoExt) (fun _ => "2024-03-15T09:30:00.000Z")
    (path_join demoExt) (path_dirname demoExt) (path_basename demoExt)
    (ensureDir_fault demoExt) (writeFile_fault demoExt) (latency demoExt).

Definition demo_Date_parse (dateStr : string) : option Z :=
  match dateStr with
  | String c _ =>
      if (48 <=? N_of_ascii c)%N && (N_of_ascii c <=? 57)%N
      then Some 1710495000000
      else None
  | EmptyString => None
  end.

Definition demo_URL_parses (content : string) : bool :=
  JsText.startsWith "http://" content || JsText.startsWith "https://" content.

(** Each line followed by a line feed, as the encoders write them. *)
Fixpoint linesWithLF (lines : list string) : string :=
  match lines with
  | [] => EmptyString
  | line :: rest => line +:+ JsText.LF +:+ linesWithLF rest
  end.

Definition emptyAddress : Address := mkAddress None None None None None.

(** The lines of a calendar event whose dates were rendered as [start] and
    [finish]. *)
Definition eventLines (event : CalendarEvent) (start : string)
    (finish : option string) : list string :=
  ["BEGIN:VEVENT"; "SUMMARY:" +:+ event_title event; "DTSTART:" +:+ start]
  ++ match finish with Some f => ["DTEND:" +:+ f] | None => [] end
  ++ optionalLine "DESCRIPTION:" (event_description event)
  ++ optionalLine "LOCATION:" (event_location event)
  ++ ["END:VEVENT"].

(** A name of 4300 characters. *)
Definition longName : string :=
  string_of_list_ascii (repeat "a"%char 4300).

Definition demoEvent : CalendarEvent :=
  {| event_title := "Launch";
     event_description := Some "Room 4";
     event_location := None;
     event_startDate := "2024-03-15";
     event_endDate := Some "2024-03-16";
     event_allDay := false |}.

(** Files, statistics, templates and the output directory setting are in
    [s'] as they are in [s]. *)
Definition untouched (s s' : State) : Prop :=
  files s' = files s
  /\ statistics s' = statistics s
  /\ templates s' = templates s
  /\ QR_OUTPUT_DIR s' = QR_OUTPUT_DIR s.

(** The state [s] with the file [data] stored under [path]. *)
Definition withFile (path : string) (data : Data) (s : State) : State :=
  with_files (<[path := data]> (files s)) s.

(** What a generation that returned [r] under [path] has done to the
    state [s]: one file stored, one generation recorded. *)
Definition generated (ext : Externals) (path : string)
    (r : QRGenerationResult) (s s' : State) : Prop :=
  gen_success r = true
  /\ gen_error r = None
  /\ gen_filePath r = Some path
  /\ exists data,
       gen_data r = Some data
       /\ gen_size r = Data_length data
       /\ estimatedSize <$> gen_metadata r = Some (gen_size r)
       /\ exists now t,
            untouched
              (with_statistics
                 (updateStatistics_on now r t (statistics s))
                 (withFile path data s)) s'.

(** What the three writers return and leave on disk. *)
Definition written (path : string) (r : QRGenerationResult) (s s' : State)
    : Prop :=
  gen_success r = true
  /\ gen_error r = None
  /\ gen_filePath r = Some path
  /\ exists data,
       gen_data r = Some data
       /\ gen_size r = Data_length data
       /\ estimatedSize <$> gen_metadata r = Some (gen_size r)
       /\ untouched (withFile path data s) s'.

(** The options [generateSVG] passes to [QRCodeSVG]. *)
Definition svgOptions (content : string) (config : QRConfig) : SvgOptions :=
  {| svg_content := content;
     svg_width := config_size config;
     svg_height := config_size config;
     svg_padding := (fun m => m * 10) <$> config_margin config;
     svg_color := "#000000";
     svg_background := "#ffffff";
     svg_ecl := config_errorCorrectionLevel config |}.

Definition svgConfig : QRConfig :=
  mkQRConfig (Some 200) (Some 2) None (Some svg).

Definition eventTemplate : QRTemplate :=
  {| template_name := "event";
     template_description := "Tickets";
     template_category := event;
     template_style := emptyStyle;
     template_config := mkQRConfig (Some 500) None None None |}.

(** The quality [analyzeQuality] attaches when nothing was decoded. *)
Definition undecodedQuality : Quality :=
  {| score := 0;
     readability := poor;
     recommendations :=
       ["QR code could not be decoded"; "Check image quality and contrast"] |}.

Definition isProbe (e : Event) : bool :=
  match e with ProbeImage _ => true | _ => false end.

(** A batch whose output directory and file names are given. *)
Definition namedBatch : BatchArgs :=
  {| batch_items :=
       [mkBatchItem "first" (Some "one.png") None;
        mkBatchItem "second" (Some "two.png") None];
     batch_outputDir := Some "./elsewhere";
     batch_format := Some svg;
     batch_baseConfig := None |}.

(** The shape the address pattern asks for: local@domain.tld, each part a
    non-empty run without white space and without [@]. *)
Definition emailShape (s : string) : Prop :=
  exists localPart domain tld,
    s = localPart +:+ "@" +:+ domain +:+ "." +:+ tld
    /\ plainPart localPart /\ plainPart domain /\ plainPart tld.

(** A registry that also holds a template named like a property every
    object inherits. *)
Definition inheritedNameState : State :=
  (addTemplate
     (mkQRTemplate "constructor" "Builder style" emptyStyle emptyConfig
                   business)
     demoState).2.


(** The same for a basic generation, whose encoder goes by the format. *)
Definition basicServed (ext : Externals) (content : string)
    (config : QRConfig) (s : State) : Prop :=
  validContent content = true
  /\ ensureDir_fault ext
       (path_dirname ext (outputPathOf ext s (formatOrPng config))) = None
  /\ writeFile_fault ext (outputPathOf ext s (formatOrPng config)) = None
  /\ match config_format config with
     | Some svg =>
         exists svgString,
           QRCodeSVG_svg ext (svgOptions content config) = inr svgString
     | _ =>
         exists buf, QRCode_toBuffer ext content (pngOptions config) = inr buf
     end.




(** The names the engine hands out for a format: [qr-<uuid>.<format>] in
    the directory of the QR_OUTPUT_DIR setting, ./qr-codes without one. *)
Definition enginePath (ext : Externals) (s : State) (format path : string)
    : Prop :=
  exists uuid,
    path = path_join ext (JsString.orElse (QR_OUTPUT_DIR s) "./qr-codes")
             ("qr-" +:+ uuid +:+ "." +:+ format).

(** From [s] to [s'] nothing was stored but under such names: every other
    path holds what it held. *)
Definition storedByEngine (ext : Externals) (format : string) (s s' : State)
    : Prop :=
  forall path,
    ~ enginePath ext s format path -> files s' !! path = files s !! path.

(** * Properties *)

(** ** White space and content validation *)

Lemma allWhiteSpace_rev_app (s1 s2 : string) :
  JsString.allWhiteSpace (String.rev_app s1 s2)
  = JsString.allWhiteSpace s1 && JsString.allWhiteSpace s2.
Proof.
  revert s2. induction s1 as [|c s1 IH]; intros s2; simpl; [done|].
  rewrite IH. simpl. destruct (JsString.isWhiteSpace c); simpl; [done|].
  by rewrite andb_false_r.
Qed.

Lemma rev_app_empty (s1 s2 : string) :
  String.rev_app s1 s2 = EmptyString -> s1 = EmptyString /\ s2 = EmptyString.
Proof.
  revert s2. induction s1 as [|c s1 IH]; intros s2 H; simpl in H; [done|].
  apply IH in H as [_ H]. discriminate H.
Qed.

Lemma trimStart_empty_iff (s : string) :
  JsString.trimStart s = EmptyString <-> JsString.allWhiteSpace s = true.
Proof.
  induction s as [|c s IH]; simpl; [done|].
  destruct (JsString.isWhiteSpace c); simpl; [done|].
  split; discriminate.
Qed.

Lemma allWhiteSpace_trimStart (s : string) :
  JsString.allWhiteSpace (JsString.trimStart s) = JsString.allWhiteSpace s.
Proof.
  induction s as [|c s IH]; simpl; [done|].
  destruct (JsString.isWhiteSpace c) eqn:Hc; simpl; [done|].
  by rewrite Hc.
Qed.

(** [content.trim()] is empty exactly when the content is all white space. *)
Lemma trim_empty_iff (s : string) :
  JsString.trim s = EmptyString <-> JsString.allWhiteSpace s = true.
Proof.
  unfold JsString.trim, JsString.trimEnd, String.rev.
  rewrite <- (allWhiteSpace_trimStart s).
  set (t := JsString.trimStart s). split.
  - intros H. apply rev_app_empty in H as [H _].
    apply trimStart_empty_iff in H.
    rewrite allWhiteSpace_rev_app in H. simpl in H.
    by rewrite andb_true_r in H.
  - intros H.
    assert (JsString.trimStart (String.rev_app t EmptyString) = EmptyString)
      as ->; [|done].
    apply trimStart_empty_iff. rewrite allWhiteSpace_rev_app. simpl.
    by rewrite andb_true_r.
Qed.

Lemma blank_test (content : string) :
  negb (JsString.truthy content)
  || (String.length (JsString.trim content) =? 0)%nat
  = JsString.allWhiteSpace content.
Proof.
  destruct (JsString.allWhiteSpace content) eqn:Hw.
  - apply trim_empty_iff in Hw. rewrite Hw. simpl. apply orb_true_r.
  - destruct content as [|c content]; [done|]. simpl.
    destruct (JsString.trim (String c content)) eqn:Ht; [|done].
    apply trim_empty_iff in Ht. congruence.
Qed.

Lemma validateContent_blank (content : string) (s : State) :
  JsString.allWhiteSpace content = true ->
  validateContent content s
  = (inl (QRValidationError "Content cannot be empty" NoDetails), s).
Proof. intros H. unfold validateContent. by rewrite blank_test, H. Qed.

Lemma validateContent_valid (content : string) (s : State) :
  validContent content = true -> validateContent content s = (inr tt, s).
Proof.
  unfold validContent, validateContent. intros [Hw Hl]%andb_true_iff.
  rewrite blank_test. apply negb_true_iff in Hw. rewrite Hw. simpl.
  apply Nat.leb_le in Hl.
  destruct (4296 <? String.length content)%nat eqn:Hlt; [|done].
  apply Nat.ltb_lt in Hlt. lia.
Qed.

Lemma validateContent_inv (content : string) (s s' : State) :
  validateContent content s = (inr tt, s') ->
  validContent content = true /\ s' = s.
Proof.
  unfold validContent, validateContent. rewrite blank_test.
  destruct (JsString.allWhiteSpace content); simpl; [discriminate|].
  destruct (4296 <? String.length content)%nat eqn:Hlt; [discriminate|].
  intros [= <-]. split; [|done]. apply Nat.ltb_ge in Hlt.
  by apply Nat.leb_le.
Qed.

(** ** Payload encoders *)

Lemma singleLine_app (s1 s2 : string) :
  JsString.singleLine (s1 +:+ s2)
  = JsString.singleLine s1 && JsString.singleLine s2.
Proof.
  induction s1 as [|c s1 IH]; [done|].
  change (String c s1 +:+ s2) with (String c (s1 +:+ s2)).
  simpl. rewrite IH. by rewrite andb_assoc.
Qed.

(** C5. For every network credential the WiFi payload encoder returns
    exactly [WIFI:T:<security>;S:<ssid>;P:<password-or-empty>;H:<true|false>;;],
    with an empty [P] when no password is given and [H:false] when [hidden]
    is absent or false; the encoder adds no line break of its own, so the
    payload is a single line whenever the ssid and the password are; and the
    credential with ssid Guest and security nopass gives
    [WIFI:T:nopass;S:Guest;P:;H:false;;]. *)
Theorem buildWiFiContent_grammar :
  (forall wifi : WiFi,
     buildWiFiContent wifi
     = wifiGrammar (Security_toString (wifi_security wifi)) (wifi_ssid wifi)
                   (passwordOrEmpty (wifi_password wifi))
                   (hiddenFlag (wifi_hidden wifi))
     /\ JsString.singleLine (buildWiFiContent wifi)
        = JsString.singleLine (wifi_ssid wifi)
          && JsString.singleLine (passwordOrEmpty (wifi_password wifi)))
  /\ passwordOrEmpty None = EmptyString
  /\ hiddenFlag None = "false" /\ hiddenFlag (Some false) = "false"
  /\ buildWiFiContent (mkWiFi "Guest" None nopass None)
     = "WIFI:T:nopass;S:Guest;P:;H:false;;".
Proof.
  split; [|by repeat split].
  intros [ssid password security hidden].
  assert (JsString.orElse password EmptyString = passwordOrEmpty password) as Hp.
  { destruct password as [[|c p]|]; reflexivity. }
  assert ((if default false hidden then "true" else "false") = hiddenFlag hidden)
    as Hh.
  { destruct hidden as [[|]|]; reflexivity. }
  unfold buildWiFiContent, wifiGrammar. simpl. rewrite Hp, Hh. split; [done|].
  rewrite !singleLine_app.
  assert (JsString.singleLine (Security_toString security) = true) as ->
    by (by destruct security).
  assert (JsString.singleLine (hiddenFlag hidden) = true) as ->
    by (by destruct hidden as [[|]|]).
  simpl. by rewrite !andb_true_r.
Qed.

(** ** Quality assessor *)

Lemma ltNumber_dimensions (metadata : ImageMetadata) :
  ltNumber (meta_width metadata) 200 || ltNumber (meta_height metadata) 200
  = dimensionBelow 200 metadata.
Proof.
  unfold dimensionBelow.
  destruct (meta_width metadata), (meta_height metadata); simpl;
    try done; by rewrite ?orb_false_r.
Qed.

Lemma ltNumber_contrast (stats : ImageStats) :
  ltNumber
    (subNumber ((stats_channels stats ≫= head) ≫= channel_max)
               ((stats_channels stats ≫= head) ≫= channel_min)) 128
  = luminanceRangeBelow 128 stats.
Proof.
  unfold luminanceRangeBelow.
  destruct (stats_channels stats) as [[|ch chs]|]; simpl; try done.
  by destruct (channel_max ch), (channel_min ch).
Qed.

(** C6. For every metadata, statistics and decoded content, the assessor's
    score is 100 minus 20 when a dimension is below 200, minus 30 when the
    luminance range (max - min) is below 128, minus 10 when the content is
    longer than 1000 characters, clamped at 0; the tier is excellent from
    90, good from 70, fair from 50 and poor below; the score lies between 0
    and 100; and equal inputs give the equal score and tier. *)
Theorem assessQuality_scoring (metadata : ImageMetadata) (stats : ImageStats)
    (content : string) :
  score (assessQuality metadata stats content)
  = specScore metadata stats content
  /\ readability (assessQuality metadata stats content)
     = specTier (specScore metadata stats content)
  /\ 0 <= score (assessQuality metadata stats content) <= 100
  /\ forall metadata' stats' content',
       metadata = metadata' -> stats = stats' -> content = content' ->
       score (assessQuality metadata stats content)
       = score (assessQuality metadata' stats' content')
       /\ readability (assessQuality metadata stats content)
          = readability (assessQuality metadata' stats' content').
Proof.
  assert (forall m st c,
            score (assessQuality m st c) = specScore m st c
            /\ readability (assessQuality m st c) = specTier (specScore m st c))
    as Hspec.
  { intros m st c. unfold assessQuality, specScore.
    rewrite ltNumber_dimensions.
    pose proof (ltNumber_contrast st) as Hc. simpl in Hc. rewrite Hc.
    destruct (dimensionBelow 200 m), (luminanceRangeBelow 128 st),
      (1000 <? String.length c)%nat; by compute. }
  destruct (Hspec metadata stats content) as [Hs Ht].
  split; [done|]. split; [done|]. split.
  - rewrite Hs. unfold specScore.
    destruct (dimensionBelow 200 metadata),
      (luminanceRangeBelow 128 stats),
      (1000 <? String.length content)%nat; lia.
  - by intros ? ? ? <- <- <-.
Qed.

Lemma assessQuality_scoring_example :
  score (assessQuality (mkImageMetadata (Some 150) (Some 400))
           (mkImageStats (Some [mkChannelStats (Some 100) (Some 180)]))
           "https://example.com") = 50
  /\ readability (assessQuality (mkImageMetadata (Some 150) (Some 400))
           (mkImageStats (Some [mkChannelStats (Some 100) (Some 180)]))
           "https://example.com") = fair.
Proof.
  destruct (assessQuality_scoring (mkImageMetadata (Some 150) (Some 400))
              (mkImageStats (Some [mkChannelStats (Some 100) (Some 180)]))
              "https://example.com") as (Hs & Ht & _ & Hdet).
  destruct (Hdet _ _ _ eq_refl eq_refl eq_refl) as [_ _].
  rewrite Ht, Hs. split; reflexivity.
Defined.

(** ** Reasoning about methods *)

Lemma wp_run {A} (m : Js A) s Q out s' :
  wp m s Q -> m s = (out, s') -> Q out s'.
Proof. unfold wp. intros H E. by rewrite E in H. Qed.

Lemma wp_ret {A} (a : A) s (Q : Thrown + A -> State -> Prop) :
  Q (inr a) s -> wp (ret a) s Q.
Proof. done. Qed.

Lemma wp_throw {A} e s (Q : Thrown + A -> State -> Prop) :
  Q (inl e) s -> wp (throw e) s Q.
Proof. done. Qed.

Lemma wp_bind {A B} (m : Js A) (k : A -> Js B) s Q :
  wp m s (fun o s1 =>
            match o with
            | inr a => wp (k a) s1 Q
            | inl e => Q (inl e) s1
            end) ->
  wp (bind m k) s Q.
Proof. unfold wp, bind. by destruct (m s) as [[e|a] s1]. Qed.

Lemma wp_try_catch {A} (body : Js A) handler s Q :
  wp body s (fun o s1 =>
               match o with
               | inr a => Q (inr a) s1
               | inl e => wp (handler e) s1 Q
               end) ->
  wp (try_catch body handler) s Q.
Proof. unfold wp, try_catch. by destruct (body s) as [[e|a] s1]. Qed.

Lemma wp_mono {A} (m : Js A) s (P Q : Thrown + A -> State -> Prop) :
  wp m s P -> (forall o s1, P o s1 -> Q o s1) -> wp m s Q.
Proof. unfold wp. auto. Qed.

Lemma wp_liftResult {A} (r : Thrown + A) s Q : Q r s -> wp (liftResult r) s Q.
Proof. by destruct r. Qed.

Lemma wp_fun {A} (f : State -> (Thrown + A) * State) s Q :
  Q (f s).1 (f s).2 -> wp f s Q.
Proof. done. Qed.

Ltac wp_step :=
  lazymatch goal with
  | |- wp (bind _ _) _ _ => apply wp_bind
  | |- wp (try_catch _ _) _ _ => apply wp_try_catch
  | |- wp (ret _) _ _ => apply wp_ret
  | |- wp (throw _) _ _ => apply wp_throw
  | |- wp (liftResult ?r) _ _ => apply wp_liftResult; destruct r eqn:?
  | |- wp (if ?b then _ else _) _ _ => destruct b eqn:?
  | |- wp (match ?x with _ => _ end) _ _ => destruct x eqn:?
  end.

(** Use the specification [H] of the method at the head of the goal. *)
Ltac wp_use H := eapply wp_mono; [apply H|]; simpl.

Section MethodSpecs.

Variable ext : Externals.

Lemma wp_call e s (Q : Thrown + unit -> State -> Prop) :
  Q (inr tt) (call ext e s).2 -> wp (call ext e) s Q.
Proof. done. Qed.

Lemma fs_writeFile_spec path data s :
  wp (fs_writeFile ext path data) s (fun o s' =>
    statistics s' = statistics s
    /\ match o with
       | inr _ => files s' = <[path := data]> (files s)
       | inl _ => files s' = files s
       end).
Proof.
  unfold fs_writeFile. wp_step. apply wp_call. wp_step.
  - by wp_step.
  - by apply wp_fun.
Qed.

Lemma fs_ensureDir_spec dir s :
  wp (fs_ensureDir ext dir) s (fun o s' => sameDisk s s').
Proof.
  unfold fs_ensureDir. wp_step. apply wp_call. wp_step.
  - by wp_step.
  - by apply wp_fun.
Qed.

Lemma fs_pathExists_spec path s :
  wp (fs_pathExists ext path) s (fun o s' =>
    sameDisk s s'
    /\ o = inr (bool_decide (is_Some (files s !! path))
                || bool_decide (path ∈ directories s))).
Proof. unfold fs_pathExists. wp_step. apply wp_call. by apply wp_fun. Qed.

Lemma canvas_loadImage_spec src s :
  wp (canvas_loadImage ext src) s (fun o s' => sameDisk s s').
Proof.
  unfold canvas_loadImage. wp_step. apply wp_call. wp_step. apply wp_fun.
  simpl. by apply wp_liftResult.
Qed.

Lemma generatePNG_spec content config p s :
  wp (generatePNG ext content config p) s (fun o s' =>
    statistics s' = statistics s
    /\ match o with
       | inr r =>
           exists buf,
             QRCode_toBuffer ext content (pngOptions config) = inr buf
             /\ gen_success r = true /\ gen_filePath r = Some p
             /\ gen_data r = Some (Buffer buf) /\ gen_format r = "png"
             /\ gen_contentType r = "image/png"
             /\ originalContent <$> gen_metadata r = Some content
             /\ files s' !! p = Some (Buffer buf)
       | inl _ => True
       end).
Proof.
  unfold generatePNG. wp_step. apply wp_call. wp_step. wp_step; [done|].
  wp_step. wp_use fs_writeFile_spec.
  intros [e|[]] s1 [Hst Hf]; [done|].
  wp_step. apply wp_fun. simpl. wp_step. split; [done|].
  eexists. repeat split; [done|]. rewrite Hf. apply lookup_insert_eq.
Qed.

Lemma generateSVG_spec content config p s :
  wp (generateSVG ext content config p) s (fun o s' =>
    statistics s' = statistics s
    /\ match o with
       | inr r =>
           gen_success r = true /\ gen_filePath r = Some p
           /\ gen_format r = "svg" /\ gen_contentType r = "image/svg+xml"
           /\ originalContent <$> gen_metadata r = Some content
       | inl _ => True
       end).
Proof.
  unfold generateSVG. wp_step. apply wp_call. wp_step. wp_step; [done|].
  wp_step. wp_use fs_writeFile_spec.
  intros [e|[]] s1 [Hst Hf]; [done|].
  wp_step. apply wp_fun. simpl. by wp_step.
Qed.

Lemma applyAdvancedStyling_spec baseQR style config p s :
  wp (applyAdvancedStyling ext baseQR style config p) s (fun o s' =>
    statistics s' = statistics s
    /\ match o with
       | inr r =>
           gen_success r = true /\ gen_filePath r = Some p
           /\ gen_format r = "png" /\ gen_contentType r = "image/png"
           /\ originalContent <$> gen_metadata r = Some "styled content"
       | inl _ => True
       end).
Proof.
  unfold applyAdvancedStyling. wp_step. wp_use canvas_loadImage_spec.
  intros [e|img] s1 [_ Hst]; [done|].
  set (canvas0 := canvas_draw _ _).
  wp_step.
  eapply wp_mono with (P := fun o s2 => statistics s2 = statistics s).
  { repeat wp_step; try done.
    - wp_use fs_pathExists_spec. intros o s2 [[_ Hst2] ->].
      wp_step; [|wp_step; congruence].
      wp_step. wp_step. wp_use canvas_loadImage_spec.
      intros [e|logo] s3 [_ Hst3].
      + wp_step. apply wp_call. wp_step. simpl. congruence.
      + wp_step. congruence. }
  intros [e|canvas] s2 Hst2; [done|]. wp_step.
  wp_use fs_writeFile_spec. intros [e|[]] s3 [Hst3 _]; [split; [congruence|done]|].
  wp_step. apply wp_fun. simpl. wp_step. split; [congruence|done].
Qed.

Lemma validateContent_spec content s :
  wp (validateContent content) s (fun o s' =>
    s' = s
    /\ match o with
       | inr _ => validContent content = true
       | inl e => exists m, e = QRValidationError m NoDetails
       end).
Proof.
  unfold wp. destruct (validateContent content s) as [[e|[]] s1] eqn:Hv; simpl.
  - unfold validateContent, throw, ret in Hv.
    repeat case_match; simplify_eq; split; eauto.
  - apply validateContent_inv in Hv as [Hv ->]. done.
Qed.

(** What [generateBasic] does to the statistics, to the disk and to the
    result, for each way it can end. *)
Lemma generateBasic_spec content config s :
  wp (generateBasic ext content config) s (fun o s' =>
    match o with
    | inl e =>
        statistics s' = statistics s
        /\ exists cause,
             e = QRGenerationError
                   ("Failed to generate basic QR code: " +:+ messageOf cause)
                   (BasicDetails content config)
    | inr r =>
        validContent content = true
        /\ (exists now t,
              statistics s' = updateStatistics_on now r t (statistics s))
        /\ gen_success r = true
        /\ originalContent <$> gen_metadata r = Some content
        /\ exists p,
             gen_filePath r = Some p
             /\ (config_format config = Some svg /\ gen_format r = "svg"
                 \/ config_format config <> Some svg
                    /\ gen_format r = "png"
                    /\ gen_contentType r = "image/png"
                    /\ exists buf,
                         QRCode_toBuffer ext content (pngOptions config)
                         = inr buf
                         /\ gen_data r = Some (Buffer buf)
                         /\ files s' !! p = Some (Buffer buf))
    end).
Proof.
  unfold generateBasic. wp_step. apply wp_fun. simpl. wp_step. wp_step.
  wp_use validateContent_spec. intros [e|[]] s1 [-> Hv]; [wp_step; eauto|].
  wp_step. apply wp_fun. simpl.
  set (p := path_join _ _ _). set (s1 := with_uuidsDrawn _ _).
  wp_step. wp_use fs_ensureDir_spec.
  intros [e|[]] s2 [_ Hst2]; [wp_step; eauto|].
  change (statistics s1) with (statistics s) in Hst2.
  wp_step.
  eapply wp_mono with (P := fun o s3 =>
    statistics s3 = statistics s
    /\ match o with
       | inr r =>
           gen_success r = true
           /\ originalContent <$> gen_metadata r = Some content
           /\ gen_filePath r = Some p
           /\ (config_format config = Some svg /\ gen_format r = "svg"
               \/ config_format config <> Some svg
                  /\ gen_format r = "png"
                  /\ gen_contentType r = "image/png"
                  /\ exists buf,
                       QRCode_toBuffer ext content (pngOptions config)
                       = inr buf
                       /\ gen_data r = Some (Buffer buf)
                       /\ files s3 !! p = Some (Buffer buf))
       | inl _ => True
       end).
  - destruct (config_format config) as [[]|] eqn:Hf.
    2: { wp_use generateSVG_spec. intros [e|r] s3 [Hst3 Hr]; [by rewrite Hst3|].
         rewrite Hst3. destruct Hr as (? & ? & ? & ? & ?). eauto 10. }
    all: wp_use generatePNG_spec; intros [e|r] s3 [Hst3 Hr];
      [by rewrite Hst3|]; rewrite Hst3;
      destruct Hr as (buf & ? & ? & ? & ? & ? & ? & ? & ?);
      repeat split; try done; right; repeat split; try done; eauto.
  - intros [e|r] s3 [Hst3 Hr]; [wp_step; rewrite Hst3; eauto|].
    wp_step. apply wp_fun. simpl. wp_step. apply wp_fun. simpl. wp_step.
    destruct Hr as (? & ? & ? & ?). rewrite Hst3. eauto 10.
Qed.

(** What [generateStyled] does to the statistics and to the result. *)
Lemma generateStyled_spec content style config s :
  wp (generateStyled ext content style config) s (fun o s' =>
    match o with
    | inl e =>
        statistics s' = statistics s
        /\ exists cause,
             e = QRGenerationError
                   ("Failed to generate styled QR code: " +:+ messageOf cause)
                   (StyledDetails content style config)
    | inr r =>
        validContent content = true
        /\ (exists now t,
              statistics s' = updateStatistics_on now r t (statistics s))
        /\ gen_success r = true
        /\ gen_format r = "png"
        /\ gen_contentType r = "image/png"
        /\ originalContent <$> gen_metadata r = Some "styled content"
        /\ exists url,
             QRCode_toDataURL ext content (dataURLOptions style config)
             = inr url
    end).
Proof.
  unfold generateStyled. wp_step. apply wp_fun. simpl. wp_step. wp_step.
  wp_use validateContent_spec. intros [e|[]] s1 [-> Hv]; [wp_step; eauto|].
  wp_step. apply wp_fun. simpl. set (s1 := with_uuidsDrawn _ _).
  wp_step. wp_use fs_ensureDir_spec.
  intros [e|[]] s2 [_ Hst2]; [wp_step; eauto|].
  change (statistics s1) with (statistics s) in Hst2.
  wp_step. apply wp_call. wp_step. wp_step; [wp_step; eauto|].
  wp_step. wp_use applyAdvancedStyling_spec.
  intros [e|r] s4 [Hst4 Hr]; [wp_step; split; [congruence|eauto]|].
  wp_step. apply wp_fun. simpl. wp_step. apply wp_fun. simpl. wp_step.
  destruct Hr as (? & ? & ? & ? & ?). rewrite Hst4, Hst2.
  split; [done|]. split; [simpl; eauto|]. repeat (split; [done|]).
  eexists. eassumption.
Qed.

Lemma generateFromTemplate_spec content templateName overrides s :
  wp (generateFromTemplate ext content templateName overrides) s (fun o s' =>
    match o with
    | inl e => statistics s' = statistics s
    | inr r =>
        (exists now t,
           statistics s'
           = bumpTemplate_on templateName
               (updateStatistics_on now r t (statistics s)))
        /\ gen_format r = "png"
        /\ originalContent <$> gen_metadata r = Some "styled content"
    end).
Proof.
  unfold generateFromTemplate. wp_step. apply wp_fun. simpl.
  wp_step; [|by wp_step].
  wp_step. wp_use generateStyled_spec.
  intros [e|r] s1; [by intros [? _]|].
  intros (_ & (now & t & Hst) & _ & ? & _ & ? & _).
  wp_step. apply wp_fun. simpl. wp_step. rewrite Hst. eauto.
Qed.

(** *** Decoding *)

Lemma decodeFromImage_missing imagePath s :
  files s !! imagePath = None ->
  imagePath ∉ directories s ->
  decodeFromImage ext imagePath s
  = (inl (notFound imagePath), (call ext (PathExists imagePath) s).2).
Proof.
  intros Hf Hd. unfold decodeFromImage, try_catch, bind, fs_pathExists, bind.
  simpl. rewrite Hf. rewrite (bool_decide_eq_false_2 _ Hd).
  rewrite bool_decide_eq_false_2; [done|]. by intros [? ?].
Qed.

Lemma decodeFromImage_read imagePath data bitmap s :
  files s !! imagePath = Some data ->
  Jimp_read ext imagePath (Some data) = inr bitmap ->
  decodeFromImage ext imagePath s
  = (match jsQR ext (bitmap_data bitmap) (bitmap_width bitmap)
                (bitmap_height bitmap) with
     | None =>
         inr {| an_success := false;
                an_content := None;
                an_format := None;
                an_quality := None;
                an_metadata := None;
                an_error := Some "No QR code found in image" |}
     | Some code =>
         inr {| an_success := true;
                an_content := Some (code_data code);
                an_format := Some "text";
                an_quality := None;
                an_metadata :=
                  Some {| version := code_version code;
                          errorCorrectionLevel := code_errorCorrectionLevel code;
                          maskPattern := code_maskPattern code;
                          modules := code_modules code |};
                an_error := None |}
     end,
     afterDecode ext imagePath
       (mkBitmap (bitmap_data bitmap) (bitmap_width bitmap)
                 (bitmap_height bitmap)) s).
Proof.
  intros Hf Hr. unfold decodeFromImage, try_catch, bind, fs_pathExists, bind.
  simpl. rewrite Hf.
  rewrite (bool_decide_eq_true_2 (is_Some (Some data))) by eauto.
  simpl. rewrite Hf, Hr. simpl.
  by destruct (jsQR ext _ _ _).
Qed.

(** Whatever goes wrong while decoding is thrown as an analysis error, and
    decoding writes nothing. *)
Lemma decodeFromImage_spec imagePath s :
  wp (decodeFromImage ext imagePath) s (fun o s' =>
    sameDisk s s'
    /\ match o with
       | inl e => exists m, e = QRAnalysisError m (ImagePathDetails imagePath)
       | inr _ => True
       end).
Proof.
  unfold decodeFromImage. wp_step. wp_step. wp_use fs_pathExists_spec.
  intros o s1 [Hd ->]. wp_step.
  destruct (negb _) eqn:Hp.
  - wp_step. wp_step. eauto.
  - wp_step. wp_step. apply wp_call. wp_step. apply wp_fun. simpl.
    wp_step. wp_step; [wp_step; eauto|].
    wp_step. apply wp_call. wp_step; wp_step; done.
Qed.

End MethodSpecs.

(** ** Generation: content validation, formats, round trip *)

Section Generation.

Variable ext : Externals.

Lemma generateBasic_blank content config s :
  JsString.allWhiteSpace content = true ->
  generateBasic ext content config s
  = (inl (QRGenerationError
            "Failed to generate basic QR code: Content cannot be empty"
            (BasicDetails content config)), s).
Proof.
  intros H. unfold generateBasic, bind, try_catch, Date_now.
  by rewrite (validateContent_blank _ _ H).
Qed.

Lemma generateStyled_blank content style config s :
  JsString.allWhiteSpace content = true ->
  generateStyled ext content style config s
  = (inl (QRGenerationError
            "Failed to generate styled QR code: Content cannot be empty"
            (StyledDetails content style config)), s).
Proof.
  intros H. unfold generateStyled, bind, try_catch, Date_now.
  by rewrite (validateContent_blank _ _ H).
Qed.




Lemma generateBasic_returns content config s :
  basicServed ext content config s ->
  exists r s', generateBasic ext content config s = (inr r, s').
Proof.
  intros (Hv & Hdir & Hwrite & Henc).
  unfold generateBasic, bind, try_catch, Date_now.
  rewrite (validateContent_valid _ _ Hv).
  unfold generateOutputPath, fs_ensureDir, bind. simpl.
  fold (outputPathOf ext s (formatOrPng config)). rewrite Hdir. simpl.
  destruct (config_format config) as [[]|]; try destruct Henc as [buf Hbuf];
    unfold generatePNG, generateSVG, fs_writeFile, bind; simpl;
    fold (pngOptions config); fold (svgOptions content config);
    rewrite Hbuf; simpl; rewrite Hwrite; simpl; eauto.
Qed.

(** C2. For every empty or white-space-only content, a basic and a styled
    generation call both fail before anything else happens: the state after
    the call is the state before it, so no file is written, no encoder is
    called and the statistics are unchanged.  The validator does throw its
    validation error, which the dispatcher would report as a
    ValidationError; but the method's handler catches it and throws a
    generation error around its message, so what the caller and the
    dispatcher see is a GenerationError. *)
Theorem blank_content_rejected (content : string) (style : QRStyle)
    (config : QRConfig) (s : State) :
  JsString.allWhiteSpace content = true ->
  generateBasic ext content config s
  = (inl (QRGenerationError
            "Failed to generate basic QR code: Content cannot be empty"
            (BasicDetails content config)), s)
  /\ generateStyled ext content style config s
     = (inl (QRGenerationError
               "Failed to generate styled QR code: Content cannot be empty"
               (StyledDetails content style config)), s)
  /\ (forall e,
        (generateBasic ext content config s).1 = inl e
        \/ (generateStyled ext content style config s).1 = inl e ->
        errorType e = "GenerationError")
  /\ validateContent content s
     = (inl (QRValidationError "Content cannot be empty" NoDetails), s)
  /\ errorType (QRValidationError "Content cannot be empty" NoDetails)
     = "ValidationError".
Proof.
  intros H. rewrite (generateBasic_blank _ _ _ H).
  rewrite (generateStyled_blank _ _ _ _ H).
  rewrite (validateContent_blank _ _ H). repeat split.
  by intros e [[= <-]|[= <-]].
Qed.

(** C1 (as amended). A request whose format is pdf is not rejected for
    its format.  It returns a successful result whenever its content passes
    validation and the directory creation, the encoder and the file write
    succeed; so when it does throw, one of these has failed, and what it
    throws is the generation error around that failure's message. *)
Theorem pdf_request_is_served (content : string) (config : QRConfig)
    (s : State) :
  config_format config = Some pdf ->
  (basicServed ext content config s ->
   exists r s',
     generateBasic ext content config s = (inr r, s')
     /\ gen_success r = true)
  /\ forall e s',
       generateBasic ext content config s = (inl e, s') ->
       ~ basicServed ext content config s
       /\ errorType e = "GenerationError"
       /\ exists cause,
            messageOf e
            = "Failed to generate basic QR code: " +:+ messageOf cause.
Proof.
  intros Hfmt. split.
  - intros Hserved.
    destruct (generateBasic_returns content config s Hserved)
      as (r & s' & Hrun).
    exists r, s'. split; [done|].
    by pose proof (wp_run _ _ _ _ _ (generateBasic_spec ext content config s)
                     Hrun) as (_ & _ & ? & _).
  - intros e s' Hrun. split.
    + intros Hserved.
      destruct (generateBasic_returns content config s Hserved)
        as (r & s1 & Hreturned).
      congruence.
    + pose proof (wp_run _ _ _ _ _ (generateBasic_spec ext content config s)
                    Hrun) as (_ & cause & ->).
      split; [done|]. by exists cause.
Qed.

(** The engine never looks at the range of a size or a margin: a styled
    generation that returns has called the encoder with the width and the
    margin of the configuration, whatever they are. *)
Lemma generateStyled_ignores_bounds (content : string) (style : QRStyle)
    (config : QRConfig) (s s' : State) (r : QRGenerationResult) :
  generateStyled ext content style config s = (inr r, s') ->
  gen_success r = true
  /\ exists url,
       QRCode_toDataURL ext content (dataURLOptions style config) = inr url
       /\ opt_width (dataURLOptions style config) = config_size config
       /\ opt_margin (dataURLOptions style config) = config_margin config.
Proof.
  intros Hrun.
  pose proof (wp_run _ _ _ _ _ (generateStyled_spec ext content style config s)
                Hrun) as (_ & _ & Hok & _ & _ & _ & url & Hurl).
  split; [done|]. by exists url.
Qed.


End Generation.

(** ** Statistics *)

Lemma slice_last_all {A} (n : nat) (l : list A) :
  (length l <= n)%nat -> slice_last n l = l.
Proof.
  intros H. unfold slice_last.
  by replace (length l - n)%nat with 0%nat by lia.
Qed.

Lemma length_slice_last {A} (n : nat) (l : list A) :
  (length (slice_last n l) <= n)%nat.
Proof. unfold slice_last. rewrite length_drop. lia. Qed.

(** Trimming after each push is trimming once at the end: what is dropped
    is always the oldest entries. *)
Lemma slice_last_push {A} (n : nat) (l added : list A) :
  slice_last n (slice_last n l ++ added) = slice_last n (l ++ added).
Proof.
  destruct (decide (length l <= n)%nat) as [Hle|Hgt].
  { by rewrite (slice_last_all n l). }
  unfold slice_last. rewrite !length_app, length_drop.
  replace (length l - (length l - n) + length added - n)%nat
    with (length added) by lia.
  replace (length l + length added - n)%nat
    with ((length l - n) + length added)%nat by lia.
  rewrite <- drop_drop. f_equal.
  rewrite drop_app_le by lia. done.
Qed.

Lemma keep_last_1000 {A} (l : list A) :
  (if (1000 <? length l)%nat then slice_last 1000 l else l)
  = slice_last 1000 l.
Proof.
  destruct (1000 <? length l)%nat eqn:H; [done|].
  apply Nat.ltb_ge in H. by rewrite slice_last_all.
Qed.

Lemma updateStatistics_on_recorded now r t st :
  recorded r st (updateStatistics_on now r t st).
Proof.
  unfold recorded, updateStatistics_on. simpl.
  rewrite !keep_last_1000. eauto.
Qed.

(** On a full window, one more generation drops the oldest entry. *)
Example full_window_drops_oldest :
  let r := mkGenerationResult true None None "png" 5000 "image/png" None None in
  let st := updateStatistics_on "T1" r 7 fullWindow in
  sizes st = seq 1 999 ++ [5000%nat]
  /\ generationTimes st = (Z.of_nat <$> seq 1 999) ++ [7]
  /\ totalGenerated st = 1001%nat
  /\ byFormat st !! "png" = Some 1001%nat.
Proof. by vm_compute. Qed.

Lemma generate_spec ext request s :
  wp (generate ext request) s (fun o s' =>
    match o with
    | inl _ => statistics s' = statistics s
    | inr r => recorded r (statistics s) (statistics s')
    end).
Proof.
  destruct request as [content config|content style config
                      |content templateName overrides]; simpl.
  - wp_use generateBasic_spec. intros [e|r] s'; [by intros [? _]|].
    intros (_ & (now & t & ->) & _). apply updateStatistics_on_recorded.
  - wp_use generateStyled_spec. intros [e|r] s'; [by intros [? _]|].
    intros (_ & (now & t & ->) & _). apply updateStatistics_on_recorded.
  - wp_use generateFromTemplate_spec. intros [e|r] s'; [done|].
    intros ((now & t & ->) & _).
    apply (updateStatistics_on_recorded now r t (statistics s)).
Qed.

(** C7. After any run of generation calls from a state whose rolling
    windows hold at most 1000 entries (a new instance starts with empty
    ones), [totalGenerated] has grown by the number of calls that succeeded,
    hence by N when all N succeed; each window is the last 1000 entries of
    the old window followed by the new entries in order, so the oldest
    entries go first; and neither window holds more than 1000 entries. *)
Theorem statistics_count_and_windows (ext : Externals)
    (requests : list Request) (s : State) :
  (length (generationTimes (statistics s)) <= 1000)%nat ->
  (length (sizes (statistics s)) <= 1000)%nat ->
  let outcomes := (generateAll ext requests s).1 in
  let st' := statistics (generateAll ext requests s).2 in
  totalGenerated st'
  = (totalGenerated (statistics s) + length (successes outcomes))%nat
  /\ (Forall succeeded outcomes ->
      totalGenerated st'
      = (totalGenerated (statistics s) + length requests)%nat)
  /\ sizes st'
     = slice_last 1000
         (sizes (statistics s) ++ map gen_size (successes outcomes))
  /\ (exists times,
        length times = length (successes outcomes)
        /\ generationTimes st'
           = slice_last 1000 (generationTimes (statistics s) ++ times))
  /\ (length (sizes st') <= 1000)%nat
  /\ (length (generationTimes st') <= 1000)%nat.
Proof.
  revert s. induction requests as [|request rest IH]; intros s Ht Hs; simpl.
  { rewrite !app_nil_r, !slice_last_all by done. rewrite Nat.add_0_r.
    repeat split; try done. exists []. by rewrite app_nil_r, slice_last_all. }
  pose proof (generate_spec ext request s) as Hgen. unfold wp in Hgen.
  destruct (generate ext request s) as [o s1]. simpl in Hgen.
  assert ((length (generationTimes (statistics s1)) <= 1000)%nat
          /\ (length (sizes (statistics s1)) <= 1000)%nat) as [Ht1 Hs1].
  { destruct o as [e|r]; [by rewrite Hgen|].
    destruct Hgen as (_ & -> & t & ->). split; apply length_slice_last. }
  specialize (IH s1 Ht1 Hs1). simpl in IH.
  destruct (generateAll ext rest s1) as [os s2]. simpl in *.
  destruct IH as (Htot & Hall & Hsz & (times & Hlen & Htimes) & Hb1 & Hb2).
  destruct o as [e|r]; simpl.
  - rewrite Hgen in *. repeat split; try done.
    + intros Hf. by apply Forall_cons in Hf as [[] _].
    + eauto.
  - destruct Hgen as (Hn & Hsize & t & Htime). repeat split; try done.
    + rewrite Htot, Hn. lia.
    + intros Hf. apply Forall_cons in Hf as [_ Hf].
      rewrite (Hall Hf), Hn. lia.
    + rewrite Hsz, Hsize, slice_last_push. by rewrite <- app_assoc.
    + exists (t :: times). split; [simpl; by rewrite Hlen|].
      rewrite Htimes, Htime, slice_last_push. by rewrite <- app_assoc.
Qed.

(** ** Decoding *)

(** C8. Decoding a path at which nothing exists fails with an analysis
    error (it throws, it does not return a result); every error that
    decoding throws is an analysis error; and decoding a readable image in
    which the decoder finds no symbol returns, without throwing, a result
    with [success] false and the error text filled in. *)
Theorem decode_missing_file_and_no_symbol (ext : Externals)
    (imagePath : string) (s : State) :
  (files s !! imagePath = None -> imagePath ∉ directories s ->
   exists s',
     decodeFromImage ext imagePath s = (inl (notFound imagePath), s')
     /\ errorType (notFound imagePath) = "AnalysisError")
  /\ (forall e s',
        decodeFromImage ext imagePath s = (inl e, s') ->
        errorType e = "AnalysisError")
  /\ (forall data bitmap,
        files s !! imagePath = Some data ->
        Jimp_read ext imagePath (Some data) = inr bitmap ->
        jsQR ext (bitmap_data bitmap) (bitmap_width bitmap)
             (bitmap_height bitmap) = None ->
        exists s',
          decodeFromImage ext imagePath s
          = (inr {| an_success := false;
                    an_content := None;
                    an_format := None;
                    an_quality := None;
                    an_metadata := None;
                    an_error := Some "No QR code found in image" |}, s')).
Proof.
  split; [|split].
  - intros Hf Hd. rewrite (decodeFromImage_missing ext _ _ Hf Hd). eauto.
  - intros e s' Hrun.
    pose proof (wp_run _ _ _ _ _ (decodeFromImage_spec ext imagePath s) Hrun)
      as [_ [m ->]].
    done.
  - intros data bitmap Hf Hr Hqr.
    rewrite (decodeFromImage_read ext _ _ _ _ Hf Hr), Hqr. eauto.
Qed.

(** ** Batch generation *)

Section Batch.

Variable ext : Externals.

Lemma batchItem_run args i item s :
  batchItem ext args i item s
  = (inr (entryOf i
            (generateStyled ext (item_content item)
               (default emptyStyle (item_style item)) (batchConfig args) s).1),
     (generateStyled ext (item_content item)
        (default emptyStyle (item_style item)) (batchConfig args) s).2).
Proof.
  unfold batchItem, try_catch, bind.
  by destruct (generateStyled ext _ _ _ s) as [[e|r] s1].
Qed.

Lemma batchLoop_run args items : forall i results s,
  batchLoop ext args i items results s
  = (inr (results ++ entriesFrom i (itemRuns ext args items s).1),
     (itemRuns ext args items s).2).
Proof.
  induction items as [|item rest IH]; intros i results s; simpl.
  { by rewrite app_nil_r. }
  unfold bind. rewrite batchItem_run.
  destruct (generateStyled ext _ _ _ s) as [o s1]. simpl.
  rewrite IH. destruct (itemRuns ext args rest s1) as [os s2]. simpl.
  by rewrite <- app_assoc.
Qed.

Lemma length_itemRuns args items s :
  length (itemRuns ext args items s).1 = length items.
Proof.
  revert s. induction items as [|item rest IH]; intros s; simpl; [done|].
  destruct (generateStyled ext _ _ _ s) as [o s1].
  specialize (IH s1). destruct (itemRuns ext args rest s1) as [os s2].
  simpl in *. by rewrite IH.
Qed.

(** Item [k] is attempted from the state its predecessors left. *)
Lemma itemRuns_lookup args items : forall k item s,
  items !! k = Some item ->
  (itemRuns ext args items s).1 !! k
  = Some (generateStyled ext (item_content item)
            (default emptyStyle (item_style item)) (batchConfig args)
            (itemRuns ext args (take k items) s).2).1.
Proof.
  induction items as [|item0 rest IH]; intros k item s Hk; [done|].
  destruct k as [|k]; simpl in *.
  - injection Hk as ->.
    destruct (generateStyled ext _ _ _ s) as [o s1].
    by destruct (itemRuns ext args rest s1).
  - destruct (generateStyled ext _ _ _ s) as [o s1].
    specialize (IH k item s1 Hk).
    destruct (itemRuns ext args rest s1) as [os s2].
    by destruct (itemRuns ext args (take k rest) s1).
Qed.

Lemma entriesFrom_lookup outcomes : forall i k,
  entriesFrom i outcomes !! k = entryOf (i + k) <$> outcomes !! k.
Proof.
  induction outcomes as [|o rest IH]; intros i k; [done|].
  destruct k as [|k]; simpl.
  - by rewrite Nat.add_0_r.
  - rewrite IH. by replace (S i + k)%nat with (i + S k)%nat by lia.
Qed.

Lemma length_entriesFrom outcomes i :
  length (entriesFrom i outcomes) = length outcomes.
Proof.
  revert i. induction outcomes as [|o rest IH]; intros i; simpl; [done|].
  by rewrite IH.
Qed.

Lemma count_successful outcomes i :
  length (filter (fun r => entry_success r = true) (entriesFrom i outcomes))
  = length (successes outcomes).
Proof.
  revert i. induction outcomes as [|[e|r] rest IH]; intros i; [done|..];
    cbn [entriesFrom successes].
  - rewrite filter_cons_False by done. apply IH.
  - rewrite filter_cons_True by done. simpl. by rewrite IH.
Qed.

Lemma length_successes_failures {A} (outcomes : list (Thrown + A)) :
  (length (successes outcomes) + length (failures outcomes))%nat
  = length outcomes.
Proof. induction outcomes as [|[e|r] rest IH]; simpl; lia. Qed.

(** C9. A batch that passes its schema, and whose output directory can be
    made, always returns a report.  Its items are attempted one after
    another in list order, item [k] from the state left by items before it
    whether they succeeded or failed; the report has one entry per item, in
    order, carrying the item's index and whether its generation returned or
    threw; and the two counts are the numbers of items that succeeded and
    that failed. *)
Theorem batch_failure_isolation (args : BatchArgs) (s : State) :
  BatchQRSchema_accepts args = true ->
  ensureDir_fault ext (JsString.orElse (batch_outputDir args) "./qr-codes")
  = None ->
  let s0 :=
    (fs_ensureDir ext (JsString.orElse (batch_outputDir args) "./qr-codes")
       s).2 in
  let outcomes := (itemRuns ext args (batch_items args) s0).1 in
  exists report s',
    handleGenerateBatch ext args s = (inr report, s')
    /\ report_results report = entriesFrom 0 outcomes
    /\ length (report_results report) = length (batch_items args)
    /\ (forall k item,
          batch_items args !! k = Some item ->
          let o :=
            (generateStyled ext (item_content item)
               (default emptyStyle (item_style item)) (batchConfig args)
               (itemRuns ext args (take k (batch_items args)) s0).2).1 in
          report_results report !! k = Some (entryOf k o))
    /\ report_successful report = length (successes outcomes)
    /\ report_failed report = length (failures outcomes)
    /\ (report_successful report + report_failed report)%nat
       = length (batch_items args).
Proof.
  intros Hschema Hdir s0 outcomes.
  unfold handleGenerateBatch. rewrite Hschema. simpl.
  unfold bind at 1.
  assert (fs_ensureDir ext
            (JsString.orElse (batch_outputDir args) "./qr-codes") s
          = (inr tt, s0)) as ->.
  { subst s0. unfold fs_ensureDir, bind. simpl. by rewrite Hdir. }
  unfold bind. rewrite batchLoop_run. fold outcomes. simpl.
  do 2 eexists. split; [reflexivity|]. simpl.
  pose proof (length_itemRuns args (batch_items args) s0) as Hlen.
  fold outcomes in Hlen.
  pose proof (length_successes_failures outcomes) as Hsum.
  rewrite count_successful, length_entriesFrom.
  split; [done|]. split; [done|]. split; [|split; [done|split; lia]].
  intros k item Hk. simpl. rewrite entriesFrom_lookup. subst outcomes.
  by rewrite (itemRuns_lookup args _ k item s0 Hk).
Qed.

End Batch.

(** ** What a result records as its original content *)


(** ** Runs on the small set of libraries *)

(** C1, counterexample.  A pdf request for the content hello does not fail:
    it returns a successful result of format png, and the encoder's PNG
    bytes are on disk under a name that ends in pdf. *)
Lemma pdf_request_not_rejected :
  exists r,
    (generateBasic demoExt "hello" pdfConfig demoState).1 = inr r
    /\ gen_success r = true
    /\ gen_format r = "png"
    /\ gen_contentType r = "image/png"
    /\ gen_filePath r = Some "./qr-codes/qr-0.pdf"
    /\ files (generateBasic demoExt "hello" pdfConfig demoState).2
         !! "./qr-codes/qr-0.pdf"
       = Some (Buffer (marker :: list_byte_of_string "hello")).
Proof. eexists. split; [vm_compute; reflexivity|]. by vm_compute. Qed.

Lemma pdf_request_is_served_demo :
  exists r s',
    generateBasic demoExt "hello" pdfConfig demoState = (inr r, s')
    /\ gen_success r = true.
Proof.
  destruct (pdf_request_is_served demoExt "hello" pdfConfig demoState eq_refl)
    as [Hserved _].
  apply Hserved. repeat split; try reflexivity. by eexists.
Defined.

(** The empty content itself: the validator throws its validation error,
    and what the generation call throws is the generation error its handler
    wraps around it, which the dispatcher does not report as a
    ValidationError. *)
Lemma empty_content_not_ValidationError :
  validateContent EmptyString demoState
  = (inl (QRValidationError "Content cannot be empty" NoDetails), demoState)
  /\ (generateBasic demoExt EmptyString emptyConfig demoState).1
     = inl (QRError GENERATION_ERROR
              "Failed to generate basic QR code: Content cannot be empty"
              (BasicDetails EmptyString emptyConfig))
  /\ ~ (exists e,
          (generateBasic demoExt EmptyString emptyConfig demoState).1 = inl e
          /\ errorType e = "ValidationError").
Proof.
  split; [reflexivity|]. split; [reflexivity|]. intros (e & He & Ht).
  vm_compute in He. injection He as <-. discriminate Ht.
Qed.

Lemma blank_content_rejected_demo :
  generateBasic demoExt "  " emptyConfig demoState
  = (inl (QRGenerationError
            "Failed to generate basic QR code: Content cannot be empty"
            (BasicDetails "  " emptyConfig)), demoState)
  /\ generateStyled demoExt "  " emptyStyle emptyConfig demoState
     = (inl (QRGenerationError
               "Failed to generate styled QR code: Content cannot be empty"
               (StyledDetails "  " emptyStyle emptyConfig)), demoState)
  /\ errorType
       (QRGenerationError
          "Failed to generate basic QR code: Content cannot be empty"
          (BasicDetails "  " emptyConfig)) = "GenerationError".
Proof.
  destruct (blank_content_rejected demoExt "  " emptyStyle emptyConfig
              demoState eq_refl) as (Hbasic & Hstyled & Hkind & _).
  split; [exact Hbasic|]. split; [exact Hstyled|].
  apply Hkind. left. by rewrite Hbasic.
Defined.

(** C3.  The styled handler never consults the configuration schema.  On
    the configuration with size 10 and margin 50, which the schema refuses
    and for which the basic handler throws a validation error, the styled
    handler calls the encoder with width 10 and margin 50 and returns a
    generated result. *)
Theorem styled_handler_skips_config_schema :
  QRConfigSchema_accepts tinyConfig = false
  /\ (handleGenerateBasic demoExt (mkBasicArgs "hello" tinyConfig) demoState).1
     = inl (QRValidationError "Invalid basic QR configuration" SchemaIssues)
  /\ exists r s',
       handleGenerateStyled demoExt
         (mkStyledArgs "hello" None (Some tinyConfig)) demoState
       = (inr r, s')
       /\ gen_success r = true
       /\ filter (fun e => isEncode e = true) (trace s')
          = [EncodeDataURL "hello"
               {| opt_width := Some 10;
                  opt_margin := Some 50;
                  opt_errorCorrectionLevel := None;
                  opt_color := Some (None, None) |}]
       /\ is_Some (files s' !! "./qr-codes/qr-0.png").
Proof.
  split; [reflexivity|]. split; [reflexivity|].
  do 2 eexists. split; [vm_compute; reflexivity|].
  split; [reflexivity|]. split; [by vm_compute|].
  vm_compute. eauto.
Qed.



Lemma statistics_count_and_windows_demo :
  totalGenerated (statistics (generateAll demoExt demoRequests demoState).2)
  = 3%nat
  /\ sizes (statistics (generateAll demoExt demoRequests demoState).2)
     = [6; 7; 5]%nat
  /\ (length (generationTimes
                (statistics (generateAll demoExt demoRequests demoState).2))
      <= 1000)%nat.
Proof.
  destruct (statistics_count_and_windows demoExt demoRequests demoState)
    as (Htotal & _ & Hsizes & _ & _ & Htimes); [simpl; lia..|].
  rewrite Htotal, Hsizes. split; [reflexivity|]. split; [reflexivity|].
  exact Htimes.
Defined.

Lemma decode_missing_file_and_no_symbol_demo :
  (exists s',
     decodeFromImage demoExt "absent.png" demoState
     = (inl (notFound "absent.png"), s'))
  /\ (exists s',
        decodeFromImage demoExt "photo.png" demoState
        = (inr {| an_success := false;
                  an_content := None;
                  an_format := None;
                  an_quality := None;
                  an_metadata := None;
                  an_error := Some "No QR code found in image" |}, s')).
Proof.
  split.
  - destruct (decode_missing_file_and_no_symbol demoExt "absent.png" demoState)
      as (Hmissing & _ & _).
    destruct Hmissing as (s' & Hrun & _); [reflexivity|by vm_compute|].
    exists s'. exact Hrun.
  - destruct (decode_missing_file_and_no_symbol demoExt "photo.png" demoState)
      as (_ & Hthrown & Hsoft).
    apply (Hsoft (Buffer [Byte.x89; Byte.x50; Byte.x4e; Byte.x47])
                 (mkBitmap [Byte.x89; Byte.x50; Byte.x4e; Byte.x47] 300 300));
      reflexivity.
Defined.

(** The scenario of the batch of three whose second item is empty. *)
Lemma batch_failure_isolation_demo :
  exists report s',
    handleGenerateBatch demoExt threeItems demoState = (inr report, s')
    /\ map entry_success (report_results report) = [true; false; true]
    /\ map entry_index (report_results report) = [0; 1; 2]%nat
    /\ report_successful report = 2%nat
    /\ report_failed report = 1%nat.
Proof.
  destruct (batch_failure_isolation demoExt threeItems demoState)
    as (report & s' & Hrun & Hresults & _ & _ & Hok & Hfailed & _);
    [reflexivity..|].
  exists report, s'. split; [exact Hrun|].
  rewrite Hresults, Hok, Hfailed. repeat split; reflexivity.
Defined.


(** * Further properties *)

(** ** Strings *)

Lemma string_app_assoc (a b c : string) : (a +:+ b) +:+ c = a +:+ (b +:+ c).
Proof.
  induction a as [|x a IH]; [done|].
  change ((String x a +:+ b) +:+ c) with (String x ((a +:+ b) +:+ c)).
  change (String x a +:+ b +:+ c) with (String x (a +:+ b +:+ c)).
  by rewrite IH.
Qed.

Lemma string_app_nil_r (a : string) : a +:+ EmptyString = a.
Proof.
  induction a as [|x a IH]; [done|].
  change (String x a +:+ EmptyString) with (String x (a +:+ EmptyString)).
  by rewrite IH.
Qed.

Lemma string_app_cons (x : ascii) (a b : string) :
  String x a +:+ b = String x (a +:+ b).
Proof. done. Qed.

Lemma length_string_app (a b : string) :
  String.length (a +:+ b) = (String.length a + String.length b)%nat.
Proof.
  induction a as [|x a IH]; [done|].
  rewrite string_app_cons. simpl. by rewrite IH.
Qed.

Lemma rev_app_spec (s acc : string) :
  String.rev_app s acc = String.rev s +:+ acc.
Proof.
  unfold String.rev. revert acc.
  induction s as [|c s IH]; intros acc; simpl; [done|].
  rewrite (IH (String c acc)), (IH (String c EmptyString)).
  by rewrite string_app_assoc.
Qed.

Lemma rev_cons (c : ascii) (s : string) :
  String.rev (String c s) = String.rev s +:+ String c EmptyString.
Proof. unfold String.rev at 1. simpl. apply rev_app_spec. Qed.

Lemma rev_snoc (c : ascii) (s : string) :
  String.rev (s +:+ String c EmptyString) = String c (String.rev s).
Proof.
  induction s as [|x s IH]; [done|].
  rewrite string_app_cons, !rev_cons, IH. done.
Qed.

Lemma trimStart_app (a b : string) :
  JsString.trimStart (a +:+ b)
  = if JsString.allWhiteSpace a then JsString.trimStart b
    else JsString.trimStart a +:+ b.
Proof.
  induction a as [|x a IH]; [done|].
  rewrite string_app_cons. simpl.
  destruct (JsString.isWhiteSpace x); simpl; [apply IH|done].
Qed.

Lemma allWhiteSpace_rev (s : string) :
  JsString.allWhiteSpace (String.rev s) = JsString.allWhiteSpace s.
Proof.
  unfold String.rev. rewrite allWhiteSpace_rev_app. simpl.
  apply andb_true_r.
Qed.

Lemma stripEnd_empty_iff (s : string) :
  stripEnd s = EmptyString <-> JsString.allWhiteSpace s = true.
Proof.
  induction s as [|c s IH]; simpl; [done|].
  destruct (stripEnd s) eqn:Hs.
  - destruct (JsString.isWhiteSpace c); simpl.
    + split; [intros _; by apply IH|done].
    + split; discriminate.
  - split; [discriminate|]. intros [_ Hw]%andb_true_iff.
    apply IH in Hw. discriminate.
Qed.

(** [trimEnd], defined in the source's library by working from the end, is
    the strip from the front. *)
Lemma trimEnd_stripEnd (s : string) : JsString.trimEnd s = stripEnd s.
Proof.
  unfold JsString.trimEnd. induction s as [|c s IH]; [done|].
  rewrite rev_cons, trimStart_app, allWhiteSpace_rev. simpl.
  destruct (JsString.allWhiteSpace s) eqn:Hw.
  - apply stripEnd_empty_iff in Hw as ->.
    by destruct (JsString.isWhiteSpace c).
  - rewrite rev_snoc, IH.
    destruct (stripEnd s) eqn:Hs; [|done].
    apply stripEnd_empty_iff in Hs. congruence.
Qed.

Lemma trim_stripEnd (s : string) :
  JsString.trim s = stripEnd (JsString.trimStart s).
Proof. apply trimEnd_stripEnd. Qed.

Lemma stripEnd_cons_visible (c : ascii) (s : string) :
  JsString.isWhiteSpace c = false ->
  stripEnd (String c s) = String c (stripEnd s).
Proof. intros Hc. simpl. rewrite Hc. by destruct (stripEnd s). Qed.

Lemma stripEnd_idempotent (s : string) : stripEnd (stripEnd s) = stripEnd s.
Proof.
  induction s as [|c s IH]; [done|]. simpl.
  destruct (stripEnd s) as [|x t] eqn:Hs.
  - destruct (JsString.isWhiteSpace c) eqn:Hc; [done|]. simpl. by rewrite Hc.
  - change (stripEnd (String c (String x t))) with
      (match stripEnd (String x t) with
       | EmptyString =>
           if JsString.isWhiteSpace c then EmptyString
           else String c EmptyString
       | u => String c u
       end).
    by rewrite IH.
Qed.

Lemma trimStart_visible (s : string) :
  match JsString.trimStart s with
  | EmptyString => True
  | String c _ => JsString.isWhiteSpace c = false
  end.
Proof.
  induction s as [|c s IH]; [done|]. simpl.
  by destruct (JsString.isWhiteSpace c) eqn:Hc.
Qed.

Lemma length_trimStart (s : string) :
  (String.length (JsString.trimStart s) <= String.length s)%nat.
Proof.
  induction s as [|c s IH]; [done|]. simpl.
  destruct (JsString.isWhiteSpace c); simpl; lia.
Qed.

Lemma length_stripEnd (s : string) :
  (String.length (stripEnd s) <= String.length s)%nat.
Proof.
  induction s as [|c s IH]; [done|]. simpl.
  destruct (stripEnd s); [destruct (JsString.isWhiteSpace c)|];
    simpl in *; lia.
Qed.

Lemma length_trim (s : string) :
  (String.length (JsString.trim s) <= String.length s)%nat.
Proof.
  rewrite trim_stripEnd.
  pose proof (length_stripEnd (JsString.trimStart s)).
  pose proof (length_trimStart s). lia.
Qed.

(** Trimming a trimmed string changes nothing. *)
Lemma trim_idempotent (s : string) : trimmed (JsString.trim s).
Proof.
  unfold trimmed. rewrite !trim_stripEnd.
  pose proof (trimStart_visible s) as Hv.
  destruct (JsString.trimStart s) as [|c t] eqn:Ht; [done|].
  rewrite (stripEnd_cons_visible c t Hv). simpl. rewrite Hv.
  rewrite <- (stripEnd_cons_visible c t Hv). apply stripEnd_idempotent.
Qed.

Lemma prefix_app (p rest : string) : String.prefix p (p +:+ rest) = true.
Proof.
  induction p as [|c p IH]; [by destruct rest|].
  rewrite string_app_cons. simpl. by destruct (ascii_dec c c).
Qed.

Lemma prefix_inv (p s : string) :
  String.prefix p s = true -> exists rest, s = p +:+ rest.
Proof.
  revert s. induction p as [|c p IH]; intros s H.
  { by exists s. }
  destruct s as [|x s]; [done|]. simpl in H.
  destruct (ascii_dec c x) as [->|]; [|done].
  destruct (IH s H) as [rest ->]. by exists rest.
Qed.

Lemma substring_app_r (p rest : string) :
  String.substring (String.length p) (String.length rest) (p +:+ rest) = rest.
Proof.
  induction p as [|c p IH].
  - change (EmptyString +:+ rest) with rest.
    induction rest as [|x rest IH]; [done|]. simpl in *. by rewrite IH.
  - rewrite string_app_cons. simpl. apply IH.
Qed.

Lemma replaceFirst_prefix (p r rest : string) :
  JsText.replaceFirst p r (p +:+ rest) = r +:+ rest.
Proof.
  assert (forall s, JsText.replaceFirst p r s
                    = if String.prefix p s
                      then r +:+ String.substring (String.length p)
                                   (String.length s - String.length p) s
                      else match s with
                           | EmptyString => EmptyString
                           | String c s' =>
                               String c (JsText.replaceFirst p r s')
                           end) as Hunfold by (by intros []).
  rewrite Hunfold, prefix_app, length_string_app.
  replace (String.length p + String.length rest - String.length p)%nat
    with (String.length rest) by lia.
  by rewrite substring_app_r.
Qed.

(** ** Content validation, in the engine and in the validation tool *)

Lemma validateContent_run (content : string) (s : State) :
  validateContent content s
  = if JsString.allWhiteSpace content
    then (inl (QRValidationError "Content cannot be empty" NoDetails), s)
    else if (4296 <? String.length content)%nat
    then (inl (QRValidationError
                 "Content exceeds maximum length of 4296 characters"
                 NoDetails), s)
    else (inr tt, s).
Proof.
  unfold validateContent. rewrite blank_test.
  destruct (JsString.allWhiteSpace content); [done|].
  by destruct (4296 <? String.length content)%nat.
Qed.

(** X1. The validator throws "Content cannot be empty" exactly for the
    contents made of white space only (the empty one among them), however
    long they are; it throws the length error for the other contents of more
    than 4296 characters; and it returns exactly for the contents that have
    a visible character and at most 4296 characters.  It never changes the
    state. *)
Theorem validateContent_cases (content : string) (s : State) :
  (validateContent content s
   = (inl (QRValidationError "Content cannot be empty" NoDetails), s)
   <-> JsString.allWhiteSpace content = true)
  /\ (JsString.allWhiteSpace content = false ->
      (4296 < String.length content)%nat ->
      validateContent content s
      = (inl (QRValidationError
                "Content exceeds maximum length of 4296 characters"
                NoDetails), s))
  /\ (validateContent content s = (inr tt, s)
      <-> validContent content = true)
  /\ (validateContent content s).2 = s.
Proof.
  rewrite validateContent_run. unfold validContent.
  destruct (JsString.allWhiteSpace content); simpl.
  { repeat split; done. }
  destruct (Nat.ltb_spec 4296 (String.length content)) as [Hl|Hl];
    destruct (Nat.leb_spec (String.length content) 4296);
    try lia; repeat split; try done; lia.
Qed.

Lemma validateContent_cases_demo :
  validateContent (String " " (String "009" EmptyString)) demoState
  = (inl (QRValidationError "Content cannot be empty" NoDetails), demoState)
  /\ validateContent "hello" demoState = (inr tt, demoState).
Proof.
  destruct (validateContent_cases (String " " (String "009" EmptyString))
              demoState) as [[_ Hblank] _].
  destruct (validateContent_cases "hello" demoState)
    as (_ & _ & [_ Hvalid] & _).
  split; [exact (Hblank eq_refl)|exact (Hvalid eq_refl)].
Defined.

(** X2. The validation tool and the engine agree: [validate_qr_content]
    replies with a failure exactly when the engine's validator throws, and
    with the same message; otherwise it reports the content's length. *)
Theorem handleValidateContent_agrees (URL_parses : string -> bool)
    (args : ValidateArgs) (s : State) :
  match validateContent (validate_content args) s with
  | (inl e, _) =>
      handleValidateContent URL_parses args = ValidationFailed (messageOf e)
  | (inr _, _) =>
      exists contentType complexity recommendations,
        handleValidateContent URL_parses args
        = ValidationSuccessful (String.length (validate_content args))
            contentType complexity recommendations
  end.
Proof.
  rewrite validateContent_run. unfold handleValidateContent.
  rewrite blank_test.
  destruct (JsString.allWhiteSpace (validate_content args)); [done|].
  destruct (4296 <? String.length (validate_content args))%nat; [done|].
  simpl. eauto.
Qed.

(** ** Contact and calendar payloads *)

Lemma linesWithLF_app (l1 l2 : list string) :
  linesWithLF (l1 ++ l2) = linesWithLF l1 +:+ linesWithLF l2.
Proof.
  induction l1 as [|x l1 IH]; [done|]. simpl.
  by rewrite IH, !string_app_assoc.
Qed.

Lemma concat_snoc (lines : list string) (last : string) :
  String.concat JsText.LF (lines ++ [last]) = linesWithLF lines +:+ last.
Proof.
  induction lines as [|x lines IH]; [done|].
  change ((x :: lines) ++ [last]) with (x :: (lines ++ [last])).
  destruct (lines ++ [last]) as [|y rest] eqn:Hl.
  { by destruct lines. }
  change (String.concat JsText.LF (x :: y :: rest))
    with (x +:+ JsText.LF +:+ String.concat JsText.LF (y :: rest)).
  rewrite IH. simpl. by rewrite !string_app_assoc.
Qed.

Lemma appendLineIf_lines (tag : string) (value : option string)
    (content : string) :
  appendLineIf tag value content
  = content +:+ linesWithLF (optionalLine tag value).
Proof.
  unfold appendLineIf, optionalLine.
  destruct value as [v|]; [destruct (JsString.truthy v)|]; simpl;
    by rewrite ?string_app_nil_r, ?string_app_assoc.
Qed.

Lemma orElse_empty (o : option string) :
  JsString.orElse o EmptyString = default EmptyString o.
Proof. by destruct o as [[|c s]|]. Qed.

Lemma buildVCardContent_lines (vcard : VCard) :
  buildVCardContent vcard = String.concat JsText.LF (vcardLines vcard).
Proof.
  unfold vcardLines. rewrite !app_assoc, concat_snoc, !linesWithLF_app.
  unfold buildVCardContent. rewrite !appendLineIf_lines.
  destruct (vcard_address vcard) as [addr|]; simpl;
    by rewrite ?orElse_empty, ?string_app_nil_r, ?string_app_assoc.
Qed.

(** X3. The contact payload is its lines joined by line feeds: the four
    fixed lines, one line for each optional property that is present and not
    empty (none for an absent or empty one), the address line, and
    END:VCARD.  An address object makes its line even when it holds no part:
    the payload then ends with the line [ADR:;;;;;;] before END:VCARD. *)
Theorem buildVCardContent_structure (vcard : VCard) :
  buildVCardContent vcard = String.concat JsText.LF (vcardLines vcard)
  /\ (vcard_address vcard = Some emptyAddress ->
      exists before,
        buildVCardContent vcard
        = before +:+ "ADR:;;;;;;" +:+ JsText.LF +:+ "END:VCARD")
  /\ (vcard_organization vcard = Some EmptyString ->
      buildVCardContent vcard
      = buildVCardContent
          (mkVCard (vcard_firstName vcard) (vcard_lastName vcard) None
             (vcard_title vcard) (vcard_phone vcard) (vcard_email vcard)
             (vcard_website vcard) (vcard_address vcard))).
Proof.
  split; [apply buildVCardContent_lines|]. split.
  - intros Ha. rewrite buildVCardContent_lines. unfold vcardLines.
    rewrite Ha, !app_assoc, concat_snoc, linesWithLF_app.
    eexists. rewrite string_app_assoc. f_equal.
  - intros Ho. rewrite !buildVCardContent_lines. unfold vcardLines.
    by rewrite Ho.
Qed.

Lemma buildVCardContent_structure_demo :
  exists before,
    buildVCardContent
      (mkVCard "Ada" "Lovelace" (Some EmptyString) None None None None
               (Some emptyAddress))
    = before +:+ "ADR:;;;;;;" +:+ JsText.LF +:+ "END:VCARD".
Proof.
  destruct (buildVCardContent_structure
              (mkVCard "Ada" "Lovelace" (Some EmptyString) None None None None
                       (Some emptyAddress))) as (_ & Haddr & Horg).
  pose proof (Horg eq_refl) as _. exact (Haddr eq_refl).
Defined.

Lemma generateBasic_too_long (ext : Externals) (content : string)
    (config : QRConfig) (s : State) :
  JsString.allWhiteSpace content = false ->
  (4296 < String.length content)%nat ->
  generateBasic ext content config s
  = (inl (QRGenerationError
            ("Failed to generate basic QR code: "
             +:+ "Content exceeds maximum length of 4296 characters")
            (BasicDetails content config)), s).
Proof.
  intros Hw Hl. unfold generateBasic, bind, try_catch, Date_now.
  rewrite validateContent_run, Hw.
  apply Nat.ltb_lt in Hl. by rewrite Hl.
Qed.

(** X4. A contact payload and a network payload are never blank, so the
    structured generators are never refused for empty content: they pass
    validation exactly when the payload has at most 4296 characters, and a
    longer payload is refused with the length message, wrapped in a
    generation error, before any state changes. *)
Theorem structured_payloads_never_blank (ext : Externals) (vcard : VCard)
    (wifi : WiFi) (config : QRConfig) (s : State) :
  validContent (buildVCardContent vcard)
  = (String.length (buildVCardContent vcard) <=? 4296)%nat
  /\ validContent (buildWiFiContent wifi)
     = (String.length (buildWiFiContent wifi) <=? 4296)%nat
  /\ ((4296 < String.length (buildVCardContent vcard))%nat ->
      generateVCard ext vcard config s
      = (inl (QRGenerationError
                ("Failed to generate basic QR code: "
                 +:+ "Content exceeds maximum length of 4296 characters")
                (BasicDetails (buildVCardContent vcard) config)), s))
  /\ ((4296 < String.length (buildWiFiContent wifi))%nat ->
      generateWiFi ext wifi config s
      = (inl (QRGenerationError
                ("Failed to generate basic QR code: "
                 +:+ "Content exceeds maximum length of 4296 characters")
                (BasicDetails (buildWiFiContent wifi) config)), s)).
Proof.
  assert (JsString.allWhiteSpace (buildVCardContent vcard) = false) as Hv.
  { rewrite buildVCardContent_lines. unfold vcardLines. reflexivity. }
  assert (JsString.allWhiteSpace (buildWiFiContent wifi) = false) as Hw
    by reflexivity.
  unfold validContent. rewrite Hv, Hw. repeat split.
  - intros Hl. by apply generateBasic_too_long.
  - intros Hl. by apply generateBasic_too_long.
Qed.

Lemma structured_payloads_never_blank_demo :
  generateWiFi demoExt (mkWiFi longName None WPA2 None) emptyConfig demoState
  = (inl (QRGenerationError
            ("Failed to generate basic QR code: "
             +:+ "Content exceeds maximum length of 4296 characters")
            (BasicDetails (buildWiFiContent (mkWiFi longName None WPA2 None))
                          emptyConfig)), demoState).
Proof.
  destruct (structured_payloads_never_blank demoExt
              (mkVCard longName "L" None None None None None None)
              (mkWiFi longName None WPA2 None) emptyConfig demoState)
    as (_ & _ & Hvcard & Hwifi).
  pose proof (Hvcard ltac:(vm_compute; lia)) as _.
  apply Hwifi. vm_compute. lia.
Defined.

(** ** Calendar dates *)

Lemma removeAll_app (class : ascii -> bool) (a b : string) :
  JsText.removeAll class (a +:+ b)
  = JsText.removeAll class a +:+ JsText.removeAll class b.
Proof.
  induction a as [|c a IH]; [done|].
  rewrite string_app_cons. simpl. destruct (class c); [done|].
  by rewrite string_app_cons, IH.
Qed.

Lemma freeOf_removeAll (separators : list ascii) (class : ascii -> bool)
    (a : string) :
  (forall c, class c = true -> c ∈ separators) ->
  freeOf separators a = true -> JsText.removeAll class a = a.
Proof.
  intros Hclass. induction a as [|c a IH]; [done|]. simpl.
  intros [Hc Ha]%andb_true_iff. apply negb_true_iff in Hc.
  destruct (class c) eqn:Hcc.
  - apply Hclass in Hcc. by rewrite bool_decide_eq_true_2 in Hc.
  - by rewrite IH.
Qed.

Lemma freeOf_beforeFirst (separators : list ascii) (c : ascii)
    (a rest : string) :
  c ∈ separators -> freeOf separators a = true ->
  JsText.beforeFirst c (a +:+ rest) = a +:+ JsText.beforeFirst c rest.
Proof.
  intros Hin. induction a as [|x a IH]; [done|]. simpl.
  intros [Hx Ha]%andb_true_iff. apply negb_true_iff in Hx.
  destruct (Ascii.eqb_spec x c) as [->|_].
  - by rewrite bool_decide_eq_true_2 in Hx.
  - by rewrite string_app_cons, IH.
Qed.

Lemma isDash_separator (c : ascii) : isDash c = true -> c ∈ isoSeparators.
Proof.
  unfold isDash. intros ->%Ascii.eqb_eq. unfold isoSeparators. set_solver.
Qed.

Lemma isDashOrColon_separator (c : ascii) :
  isDashOrColon c = true -> c ∈ isoSeparators.
Proof.
  unfold isDashOrColon, isoSeparators.
  intros [H|H]%orb_true_iff; apply Ascii.eqb_eq in H; subst c; set_solver.
Qed.

Lemma beforeFirst_hit (c : ascii) (rest : string) :
  JsText.beforeFirst c (String c rest) = EmptyString.
Proof. simpl. by rewrite Ascii.eqb_refl. Qed.

Lemma beforeFirst_skip (c x : ascii) (rest : string) :
  x <> c ->
  JsText.beforeFirst c (String x rest) = String x (JsText.beforeFirst c rest).
Proof. intros H. simpl. by destruct (Ascii.eqb_spec x c). Qed.

Lemma removeAll_hit (class : ascii -> bool) (c : ascii) (rest : string) :
  class c = true ->
  JsText.removeAll class (String c rest) = JsText.removeAll class rest.
Proof. intros H. simpl. by rewrite H. Qed.

Lemma removeAll_skip (class : ascii -> bool) (c : ascii) (rest : string) :
  class c = false ->
  JsText.removeAll class (String c rest)
  = String c (JsText.removeAll class rest).
Proof. intros H. simpl. by rewrite H. Qed.

Lemma separator_T : "T"%char ∈ isoSeparators.
Proof.
  unfold isoSeparators. do 3 apply list_elem_of_further.
  apply list_elem_of_here.
Qed.

Lemma separator_dot : "."%char ∈ isoSeparators.
Proof.
  unfold isoSeparators. do 2 apply list_elem_of_further.
  apply list_elem_of_here.
Qed.

Lemma allDay_stamp (year month day rest : string) :
  freeOf isoSeparators year = true ->
  freeOf isoSeparators month = true ->
  freeOf isoSeparators day = true ->
  JsText.removeAll isDash
    (JsText.beforeFirst "T"
       (year +:+ "-" +:+ month +:+ "-" +:+ day +:+ "T" +:+ rest))
  = year +:+ month +:+ day.
Proof.
  intros Hy Hmo Hd.
  pose proof (fun a => freeOf_removeAll isoSeparators isDash a isDash_separator)
    as Hdash.
  rewrite (freeOf_beforeFirst isoSeparators "T" year _ separator_T Hy).
  rewrite string_app_cons, beforeFirst_skip by done.
  change (EmptyString +:+ ?x) with x.
  rewrite (freeOf_beforeFirst isoSeparators "T" month _ separator_T Hmo).
  rewrite string_app_cons, beforeFirst_skip by done.
  change (EmptyString +:+ ?x) with x.
  rewrite (freeOf_beforeFirst isoSeparators "T" day _ separator_T Hd).
  rewrite string_app_cons, beforeFirst_hit, string_app_nil_r.
  rewrite removeAll_app, (Hdash year Hy), removeAll_hit by done.
  rewrite removeAll_app, (Hdash month Hmo), removeAll_hit by done.
  by rewrite (Hdash day Hd).
Qed.

Lemma timed_stamp (year month day hour minute second rest : string) :
  Forall (fun part => freeOf isoSeparators part = true)
         [year; month; day; hour; minute; second] ->
  JsText.beforeFirst "."
    (JsText.removeAll isDashOrColon
       (year +:+ "-" +:+ month +:+ "-" +:+ day +:+ "T" +:+ hour +:+ ":"
        +:+ minute +:+ ":" +:+ second +:+ "." +:+ rest))
  = year +:+ month +:+ day +:+ "T" +:+ hour +:+ minute +:+ second.
Proof.
  intros Hparts.
  apply Forall_cons in Hparts as [Hy Hparts].
  apply Forall_cons in Hparts as [Hmo Hparts].
  apply Forall_cons in Hparts as [Hd Hparts].
  apply Forall_cons in Hparts as [Hh Hparts].
  apply Forall_cons in Hparts as [Hmi Hparts].
  apply Forall_cons in Hparts as [Hs _].
  pose proof (fun a => freeOf_removeAll isoSeparators isDashOrColon a
                         isDashOrColon_separator) as Hdc.
  rewrite removeAll_app, (Hdc year Hy), string_app_cons, removeAll_hit by done.
  change (EmptyString +:+ ?x) with x.
  rewrite removeAll_app, (Hdc month Hmo), string_app_cons, removeAll_hit
    by done.
  change (EmptyString +:+ ?x) with x.
  rewrite removeAll_app, (Hdc day Hd), string_app_cons, removeAll_skip by done.
  change (EmptyString +:+ ?x) with x.
  rewrite removeAll_app, (Hdc hour Hh), string_app_cons, removeAll_hit by done.
  change (EmptyString +:+ ?x) with x.
  rewrite removeAll_app, (Hdc minute Hmi), string_app_cons, removeAll_hit
    by done.
  change (EmptyString +:+ ?x) with x.
  rewrite removeAll_app, (Hdc second Hs), string_app_cons, removeAll_skip
    by done.
  change (EmptyString +:+ ?x) with x.
  rewrite (freeOf_beforeFirst isoSeparators "." year _ separator_dot Hy).
  rewrite (freeOf_beforeFirst isoSeparators "." month _ separator_dot Hmo).
  rewrite (freeOf_beforeFirst isoSeparators "." day _ separator_dot Hd).
  rewrite beforeFirst_skip by done.
  rewrite (freeOf_beforeFirst isoSeparators "." hour _ separator_dot Hh).
  rewrite (freeOf_beforeFirst isoSeparators "." minute _ separator_dot Hmi).
  rewrite (freeOf_beforeFirst isoSeparators "." second _ separator_dot Hs).
  by rewrite beforeFirst_hit, string_app_nil_r.
Qed.

(** X5. When the date parses and the clock library renders it in the ISO
    form [YYYY-MM-DDTHH:mm:ss.sssZ], an all-day date is formatted as the
    eight characters [YYYYMMDD] and a timed one as [YYYYMMDDTHHMMSSZ]: the
    dashes and colons go, the milliseconds go, and nothing else changes. *)
Theorem formatDateForEvent_iso (ext : Externals)
    (Date_parse : string -> option Z) (dateStr : string) (t : Z)
    (year month day hour minute second millis : string) :
  Date_parse dateStr = Some t ->
  toISOString ext t
  = isoStamp year month day hour minute second millis ->
  Forall (fun part => freeOf isoSeparators part = true)
         [year; month; day; hour; minute; second] ->
  formatDateForEvent ext Date_parse dateStr true
  = inr (year +:+ month +:+ day)
  /\ formatDateForEvent ext Date_parse dateStr false
     = inr (year +:+ month +:+ day +:+ "T" +:+ hour +:+ minute +:+ second
            +:+ "Z").
Proof.
  intros Hparse Hiso Hparts.
  unfold formatDateForEvent, Date_toISO. rewrite Hparse, Hiso.
  unfold isoStamp. split; f_equal.
  - apply Forall_cons in Hparts as [Hy Hparts].
    apply Forall_cons in Hparts as [Hmo Hparts].
    apply Forall_cons in Hparts as [Hd _].
    by apply allDay_stamp.
  - rewrite (timed_stamp _ _ _ _ _ _ _ Hparts).
    by rewrite !string_app_assoc.
Qed.

Lemma formatDateForEvent_iso_demo :
  formatDateForEvent isoExt demo_Date_parse "2024-03-15" true
  = inr "20240315"
  /\ formatDateForEvent isoExt demo_Date_parse "2024-03-15" false
     = inr "20240315T093000Z".
Proof.
  apply (formatDateForEvent_iso isoExt demo_Date_parse "2024-03-15"
           1710495000000 "2024" "03" "15" "09" "30" "00" "000");
    [reflexivity|reflexivity|].
  repeat (constructor; [reflexivity|]). constructor.
Defined.

(** X6. A calendar event whose start date (or whose given end date) does
    not parse makes [generateEvent] throw the clock library's own error,
    before any state changes.  The payload is built outside the method's
    error handler, so this error is not wrapped in a generation error: the
    dispatcher reports it as an UnknownError. *)
Theorem generateEvent_invalid_date (ext : Externals)
    (Date_parse : string -> option Z) (event : CalendarEvent)
    (config : QRConfig) (s : State) :
  (Date_parse (event_startDate event) = None ->
   generateEvent ext Date_parse event config s
   = (inl (LibraryError "Invalid time value"), s))
  /\ (forall endDate,
        event_endDate event = Some endDate ->
        JsString.truthy endDate = true ->
        Date_parse endDate = None ->
        generateEvent ext Date_parse event config s
        = (inl (LibraryError "Invalid time value"), s))
  /\ errorType (LibraryError "Invalid time value") = "UnknownError".
Proof.
  split; [|split; [|done]].
  - intros Hstart. unfold generateEvent, buildEventContent, formatDateForEvent,
      Date_toISO. by rewrite Hstart.
  - intros endDate Hend Htruthy Hparse.
    unfold generateEvent, buildEventContent.
    destruct (formatDateForEvent ext Date_parse (event_startDate event)
                (event_allDay event)) as [e|start] eqn:Hstart.
    + unfold formatDateForEvent, Date_toISO in Hstart.
      destruct (Date_parse (event_startDate event));
        [by destruct (event_allDay event)|].
      by injection Hstart as <-.
    + rewrite Hend, Htruthy. unfold formatDateForEvent, Date_toISO.
      by rewrite Hparse.
Qed.

Lemma generateEvent_invalid_date_demo :
  generateEvent isoExt demo_Date_parse
    (mkCalendarEvent "Launch" None None "tomorrow" (Some "later") false)
    emptyConfig demoState
  = (inl (LibraryError "Invalid time value"), demoState).
Proof.
  destruct (generateEvent_invalid_date isoExt demo_Date_parse
              (mkCalendarEvent "Launch" None None "tomorrow" (Some "later")
                               false) emptyConfig demoState)
    as (Hstart & Hend & _).
  pose proof (Hend "later" eq_refl eq_refl eq_refl) as _.
  exact (Hstart eq_refl).
Defined.

(** X7. When its dates format, a calendar payload is its lines joined by
    line feeds: BEGIN:VEVENT, the summary, the start, the end when an end
    date is given (formatted under the same all-day flag as the start), the
    description and the location when present and not empty, END:VEVENT. *)
Theorem buildEventContent_lines (ext : Externals)
    (Date_parse : string -> option Z) (event : CalendarEvent)
    (start : string) :
  formatDateForEvent ext Date_parse (event_startDate event)
                     (event_allDay event) = inr start ->
  (JsText.present (event_endDate event) = false ->
   buildEventContent ext Date_parse event
   = inr (String.concat JsText.LF (eventLines event start None)))
  /\ (forall endDate finish,
        event_endDate event = Some endDate ->
        JsString.truthy endDate = true ->
        formatDateForEvent ext Date_parse endDate (event_allDay event)
        = inr finish ->
        buildEventContent ext Date_parse event
        = inr (String.concat JsText.LF (eventLines event start (Some finish)))).
Proof.
  intros Hstart. unfold buildEventContent. rewrite Hstart. split.
  - intros Hend. unfold eventLines.
    rewrite !app_assoc, concat_snoc, !linesWithLF_app.
    unfold JsText.present in Hend.
    destruct (event_endDate event) as [endDate|]; [rewrite Hend|];
      cbv zeta; rewrite !appendLineIf_lines; simpl;
      by rewrite ?string_app_nil_r, ?string_app_assoc.
  - intros endDate finish Hend Htruthy Hfinish. unfold eventLines.
    rewrite !app_assoc, concat_snoc, !linesWithLF_app.
    rewrite Hend, Htruthy, Hfinish. cbv zeta.
    rewrite !appendLineIf_lines. simpl.
    by rewrite ?string_app_nil_r, ?string_app_assoc.
Qed.

Lemma buildEventContent_lines_demo :
  buildEventContent isoExt demo_Date_parse demoEvent
  = inr (String.concat JsText.LF
           ["BEGIN:VEVENT"; "SUMMARY:Launch"; "DTSTART:20240315T093000Z";
            "DTEND:20240315T093000Z"; "DESCRIPTION:Room 4"; "END:VEVENT"]).
Proof.
  destruct (buildEventContent_lines isoExt demo_Date_parse demoEvent
              "20240315T093000Z" eq_refl) as (_ & Hend).
  exact (Hend "2024-03-16" "20240315T093000Z" eq_refl eq_refl eq_refl).
Defined.

(** ** What a generation does to the disk *)

Lemma untouched_refl (s : State) : untouched s s.
Proof. by repeat split. Qed.

Lemma untouched_trans (s1 s2 s3 : State) :
  untouched s1 s2 -> untouched s2 s3 -> untouched s1 s3.
Proof.
  intros (? & ? & ? & ?) (? & ? & ? & ?). repeat split; congruence.
Qed.

Section Disk.

Variable ext : Externals.

Lemma fs_ensureDir_untouched dir s :
  wp (fs_ensureDir ext dir) s (fun _ s' => untouched s s').
Proof.
  unfold fs_ensureDir. wp_step. apply wp_call. wp_step.
  - wp_step. by repeat split.
  - apply wp_fun. by repeat split.
Qed.

Lemma fs_pathExists_untouched path s :
  wp (fs_pathExists ext path) s (fun _ s' => untouched s s').
Proof.
  unfold fs_pathExists. wp_step. apply wp_call. apply wp_fun.
  by repeat split.
Qed.

Lemma canvas_loadImage_untouched src s :
  wp (canvas_loadImage ext src) s (fun _ s' => untouched s s').
Proof.
  unfold canvas_loadImage. wp_step. apply wp_call. wp_step. apply wp_fun.
  simpl. apply wp_liftResult. by repeat split.
Qed.

Lemma fs_writeFile_untouched path data s :
  wp (fs_writeFile ext path data) s (fun o s' =>
    match o with
    | inr _ => untouched (withFile path data s) s'
    | inl _ => untouched s s'
    end).
Proof.
  unfold fs_writeFile. wp_step. apply wp_call. wp_step.
  - wp_step. by repeat split.
  - apply wp_fun. by repeat split.
Qed.

Lemma generatePNG_written content config p s :
  wp (generatePNG ext content config p) s (fun o s' =>
    match o with
    | inr r => written p r s s'
    | inl _ => untouched s s'
    end).
Proof.
  unfold generatePNG. wp_step. apply wp_call. wp_step.
  wp_step; [by repeat split|].
  wp_step. wp_use fs_writeFile_untouched. intros [e|[]] s1 Hu; [done|].
  wp_step. apply wp_fun. simpl. wp_step.
  repeat split. by eexists.
Qed.

Lemma generateSVG_written content config p s :
  wp (generateSVG ext content config p) s (fun o s' =>
    match o with
    | inr r => written p r s s'
    | inl _ => untouched s s'
    end).
Proof.
  unfold generateSVG. wp_step. apply wp_call. wp_step.
  wp_step; [by repeat split|].
  wp_step. wp_use fs_writeFile_untouched. intros [e|[]] s1 Hu; [done|].
  wp_step. apply wp_fun. simpl. wp_step.
  repeat split. by eexists.
Qed.

Lemma applyAdvancedStyling_written baseQR style config p s :
  wp (applyAdvancedStyling ext baseQR style config p) s (fun o s' =>
    match o with
    | inr r => written p r s s'
    | inl _ => untouched s s'
    end).
Proof.
  unfold applyAdvancedStyling. wp_step. wp_use canvas_loadImage_untouched.
  intros [e|img] s1 Hu1; [done|].
  set (canvas0 := canvas_draw _ _).
  wp_step.
  eapply wp_mono with (P := fun o s2 => untouched s s2).
  { repeat wp_step; try done.
    wp_use fs_pathExists_untouched. intros o s2 Hu2.
    pose proof (untouched_trans _ _ _ Hu1 Hu2) as Hu.
    destruct o as [e|present]; [done|].
    wp_step; [|by wp_step].
    wp_step. wp_step. wp_use canvas_loadImage_untouched.
    intros [e|logo] s3 Hu3.
    - wp_step. apply wp_call. wp_step.
      apply (untouched_trans _ _ _ Hu), Hu3.
    - wp_step. apply (untouched_trans _ _ _ Hu), Hu3. }
  intros [e|canvas] s2 Hu2; [done|]. wp_step.
  wp_use fs_writeFile_untouched. intros [e|[]] s3 Hu3.
  { apply (untouched_trans _ _ _ Hu2), Hu3. }
  wp_step. apply wp_fun. simpl. wp_step.
  repeat split. eexists. repeat split.
  all: destruct Hu2 as (Hf & Hst & Ht & He), Hu3 as (Hf3 & Hst3 & Ht3 & He3);
    simpl in *; congruence.
Qed.

End Disk.

Section Generated.

Variable ext : Externals.

Lemma record_generated path r s s2 s3 :
  untouched s s2 -> written path r s2 s3 ->
  generated ext path r s
    (with_statistics
       (updateStatistics_on (toISOString ext (clock s3)) r
          (clock s3 - clock s) (statistics s3)) s3).
Proof.
  intros (Hf & Hst & Ht & He) (? & ? & ? & data & ? & ? & ? & Hu).
  destruct Hu as (Hf3 & Hst3 & Ht3 & He3). simpl in *.
  repeat split; try done. exists data. repeat split; try done.
  exists (toISOString ext (clock s3)), (clock s3 - clock s).
  repeat split; simpl; congruence.
Qed.

Lemma generateBasic_generated content config s :
  wp (generateBasic ext content config) s (fun o s' =>
    match o with
    | inr r => generated ext (outputPathOf ext s (formatOrPng config)) r s s'
    | inl _ => untouched s s'
    end).
Proof.
  unfold generateBasic. wp_step. apply wp_fun. simpl. wp_step. wp_step.
  wp_use validateContent_spec.
  intros [e|[]] s0 [-> _]; [wp_step; apply untouched_refl|].
  wp_step. apply wp_fun. simpl.
  fold (outputPathOf ext s (formatOrPng config)).
  set (p := outputPathOf ext s (formatOrPng config)).
  wp_step. wp_use fs_ensureDir_untouched.
  intros [e|[]] s2 Hu2; [by wp_step|].
  wp_step.
  eapply wp_mono with (P := fun o s3 =>
    match o with
    | inr r => written p r s2 s3
    | inl _ => untouched s2 s3
    end).
  - destruct (config_format config) as [[]|];
      (apply generatePNG_written || apply generateSVG_written).
  - intros [e|r] s3 H3.
    + wp_step. apply (untouched_trans _ _ _ Hu2 H3).
    + wp_step. apply wp_fun. simpl. wp_step. apply wp_fun. simpl. wp_step.
      by apply (record_generated p r s s2 s3).
Qed.

Lemma generateStyled_generated content style config s :
  wp (generateStyled ext content style config) s (fun o s' =>
    match o with
    | inr r => generated ext (outputPathOf ext s (formatOrPng config)) r s s'
    | inl _ => untouched s s'
    end).
Proof.
  unfold generateStyled. wp_step. apply wp_fun. simpl. wp_step. wp_step.
  wp_use validateContent_spec.
  intros [e|[]] s0 [-> _]; [wp_step; apply untouched_refl|].
  wp_step. apply wp_fun. simpl.
  fold (outputPathOf ext s (formatOrPng config)).
  set (p := outputPathOf ext s (formatOrPng config)).
  wp_step. wp_use fs_ensureDir_untouched.
  intros [e|[]] s2 Hu2; [by wp_step|].
  wp_step. apply wp_call. set (s3 := (call _ _ _).2).
  assert (untouched s s3) as Hu3.
  { destruct Hu2 as (? & ? & ? & ?). by repeat split. }
  wp_step. wp_step; [by wp_step|].
  wp_step. wp_use applyAdvancedStyling_written.
  intros [e|r] s4 H4.
  + wp_step. apply (untouched_trans _ _ _ Hu3 H4).
  + wp_step. apply wp_fun. simpl. wp_step. apply wp_fun. simpl. wp_step.
    by apply (record_generated p r s s3 s4).
Qed.

End Generated.

Lemma generated_describesFile ext path r s s' :
  generated ext path r s s' ->
  describesFile r s'
  /\ exists data,
       gen_filePath r = Some path /\ gen_data r = Some data
       /\ files s' = <[path := data]> (files s)
       /\ templates s' = templates s
       /\ QR_OUTPUT_DIR s' = QR_OUTPUT_DIR s.
Proof.
  intros (? & ? & ? & data & ? & ? & ? & now & t & Hf & Hst & Ht & He).
  simpl in *. split.
  - repeat split; try done. exists path, data. repeat split; try done.
    rewrite Hf. apply lookup_insert_eq.
  - by exists data.
Qed.

(** X8. A generation call that returns has stored exactly one file, the
    one its result reports: that file holds the result's data, [size] and
    [estimatedSize] are the length of the data, and every other file is as
    before.  A generation call that throws has stored no file and recorded
    nothing.  Neither touches the templates or the output directory
    setting. *)
Theorem generation_stores_one_file (ext : Externals) (request : Request)
    (s : State) :
  templates (generate ext request s).2 = templates s
  /\ QR_OUTPUT_DIR (generate ext request s).2 = QR_OUTPUT_DIR s
  /\ match (generate ext request s).1 with
     | inl _ =>
         files (generate ext request s).2 = files s
         /\ statistics (generate ext request s).2 = statistics s
     | inr r =>
         describesFile r (generate ext request s).2
         /\ exists path data,
              gen_filePath r = Some path
              /\ gen_data r = Some data
              /\ files (generate ext request s).2
                 = <[path := data]> (files s)
     end.
Proof.
  assert (forall path (m : Js QRGenerationResult),
            wp m s (fun o s' =>
                      match o with
                      | inr r => generated ext path r s s'
                      | inl _ => untouched s s'
                      end) ->
            templates (m s).2 = templates s
            /\ QR_OUTPUT_DIR (m s).2 = QR_OUTPUT_DIR s
            /\ match (m s).1 with
               | inl _ =>
                   files (m s).2 = files s
                   /\ statistics (m s).2 = statistics s
               | inr r =>
                   describesFile r (m s).2
                   /\ exists path data,
                        gen_filePath r = Some path
                        /\ gen_data r = Some data
                        /\ files (m s).2 = <[path := data]> (files s)
               end) as Hcase.
  { intros path m Hm. unfold wp in Hm.
    destruct (m s) as [[e|r] s']; simpl in *.
    - by destruct Hm as (? & ? & ? & ?).
    - apply generated_describesFile in Hm
        as (Hd & data & ? & ? & ? & ? & ?).
      split; [done|]. split; [done|]. split; [exact Hd|].
      exists path, data. by repeat split. }
  destruct request as [content config|content style config
                      |content templateName overrides]; simpl.
  - apply (Hcase _ _ (generateBasic_generated ext content config s)).
  - apply (Hcase _ _ (generateStyled_generated ext content style config s)).
  - unfold generateFromTemplate, bind. simpl.
    destruct (Map_get templateName (templates s)) as [template|];
      [|by repeat split].
    pose proof (generateStyled_generated ext content
                  (mergeStyle (template_style template) overrides.1)
                  (mergeConfig (template_config template) overrides.2) s)
      as Hm.
    unfold wp in Hm.
    destruct (generateStyled ext content _ _ s) as [[e|r] s']; simpl in *.
    + by destruct Hm as (? & ? & ? & ?).
    + apply generated_describesFile in Hm
        as ((? & ? & p & d & ? & ? & ? & ? & ?) & data & ? & ? & ? & ? & ?).
      split; [done|]. split; [done|]. split.
      * split; [done|]. split; [done|]. exists p, d. by repeat split.
      * eexists _, data. by repeat split.
Qed.

(** X9. The file of a basic or styled generation goes to the directory of
    the QR_OUTPUT_DIR setting, or to ./qr-codes when the setting is absent
    or empty, under the name qr-<uuid>.<format> where the format is the one
    requested (png when none is): the extension follows the request even
    when the data written is PNG. *)
Theorem generation_output_path (ext : Externals) (content : string)
    (style : QRStyle) (config : QRConfig) (s s' : State)
    (r : QRGenerationResult) :
  generateBasic ext content config s = (inr r, s')
  \/ generateStyled ext content style config s = (inr r, s') ->
  gen_filePath r
  = Some (path_join ext
            (match QR_OUTPUT_DIR s with
             | Some (String c dir) => String c dir
             | _ => "./qr-codes"
             end)
            ("qr-" +:+ uuidv4 ext (uuidsDrawn s) +:+ "."
             +:+ match config_format config with
                 | Some format => Format_toString format
                 | None => "png"
                 end)).
Proof.
  assert (outputPathOf ext s (formatOrPng config)
          = path_join ext
              (match QR_OUTPUT_DIR s with
               | Some (String c dir) => String c dir
               | _ => "./qr-codes"
               end)
              ("qr-" +:+ uuidv4 ext (uuidsDrawn s) +:+ "."
               +:+ match config_format config with
                   | Some format => Format_toString format
                   | None => "png"
                   end)) as <-.
  { unfold outputPathOf, JsString.orElse.
    by destruct (QR_OUTPUT_DIR s) as [[|c dir]|]. }
  intros [Hrun|Hrun].
  - by pose proof (wp_run _ _ _ _ _ (generateBasic_generated ext content
                                      config s) Hrun) as (_ & _ & ? & _).
  - by pose proof (wp_run _ _ _ _ _ (generateStyled_generated ext content
                                      style config s) Hrun) as (_ & _ & ? & _).
Qed.

Lemma generation_output_path_demo :
  gen_filePath
    {| gen_success := true;
       gen_filePath := Some "./qr-codes/qr-0.pdf";
       gen_data := Some (Buffer (marker :: list_byte_of_string "hello"));
       gen_format := "png";
       gen_size := 6;
       gen_contentType := "image/png";
       gen_metadata := Some (mkMetadata "T3" "hello" 6);
       gen_error := None |}
  = Some "./qr-codes/qr-0.pdf".
Proof.
  apply (generation_output_path demoExt "hello" emptyStyle pdfConfig
           demoState (generateBasic demoExt "hello" pdfConfig demoState).2).
  left. vm_compute. reflexivity.
Defined.

(** X10. A basic request of format svg whose content passes validation and
    whose library calls succeed returns a result of format svg and content
    type image/svg+xml whose data is the markup the SVG encoder returned and
    whose size is the markup's length; the markup is on disk under the
    returned path.  The encoder is given the content, the size as width and
    height, ten times the margin as padding, black on white, and the
    error-correction level. *)
Theorem svg_request_produces_svg (ext : Externals) (content : string)
    (config : QRConfig) (s : State) (svgString : string) :
  config_format config = Some svg ->
  validContent content = true ->
  ensureDir_fault ext (path_dirname ext (outputPathOf ext s "svg")) = None ->
  QRCodeSVG_svg ext (svgOptions content config) = inr svgString ->
  writeFile_fault ext (outputPathOf ext s "svg") = None ->
  exists r s',
    generateBasic ext content config s = (inr r, s')
    /\ gen_success r = true
    /\ gen_format r = "svg"
    /\ gen_contentType r = "image/svg+xml"
    /\ gen_data r = Some (Text svgString)
    /\ gen_size r = String.length svgString
    /\ gen_filePath r = Some (outputPathOf ext s "svg")
    /\ files s' !! outputPathOf ext s "svg" = Some (Text svgString)
    /\ EncodeSVG (svgOptions content config) ∈ trace s'.
Proof.
  intros Hfmt Hv Hdir Hsvg Hwrite.
  unfold generateBasic, bind, try_catch, Date_now.
  rewrite (validateContent_valid _ _ Hv).
  unfold generateOutputPath, fs_ensureDir, bind. simpl.
  assert (formatOrPng config = "svg") as ->
    by (unfold formatOrPng; by rewrite Hfmt).
  fold (outputPathOf ext s "svg"). rewrite Hdir, Hfmt. simpl.
  unfold generateSVG, fs_writeFile, bind. simpl.
  fold (svgOptions content config). rewrite Hsvg. simpl. rewrite Hwrite.
  simpl. do 2 eexists. split; [reflexivity|]. simpl.
  repeat split; [apply lookup_insert_eq|].
  rewrite !elem_of_app. left. right. apply list_elem_of_here.
Qed.

Lemma svg_request_produces_svg_demo :
  exists r s',
    generateBasic demoExt "hello" svgConfig demoState = (inr r, s')
    /\ gen_format r = "svg"
    /\ gen_data r = Some (Text "<svg>hello</svg>")
    /\ EncodeSVG
         {| svg_content := "hello";
            svg_width := Some 200;
            svg_height := Some 200;
            svg_padding := Some 20;
            svg_color := "#000000";
            svg_background := "#ffffff";
            svg_ecl := None |} ∈ trace s'.
Proof.
  destruct (svg_request_produces_svg demoExt "hello" svgConfig demoState
              "<svg>hello</svg>")
    as (r & s' & Hrun & _ & Hformat & _ & Hdata & _ & _ & _ & Htrace);
    [reflexivity..|].
  exists r, s'. split; [exact Hrun|]. split; [exact Hformat|].
  split; [exact Hdata|exact Htrace].
Defined.

(** ** Templates *)

(** X11. Generating from a template name that is not in the registry
    throws the validation error "Template not found: <name>" and changes
    nothing at all.  This error is thrown outside any handler of the engine,
    so, unlike the engine's other failures, it reaches the dispatcher as a
    ValidationError. *)
Theorem generateFromTemplate_unknown (ext : Externals)
    (content templateName : string) (overrides : QRStyle * QRConfig)
    (s : State) :
  Map_get templateName (templates s) = None ->
  generateFromTemplate ext content templateName overrides s
  = (inl (QRValidationError ("Template not found: " +:+ templateName)
                            NoDetails), s)
  /\ errorType (QRValidationError ("Template not found: " +:+ templateName)
                                  NoDetails) = "ValidationError".
Proof.
  intros Hget. unfold generateFromTemplate, bind. simpl. by rewrite Hget.
Qed.

Lemma generateFromTemplate_unknown_demo :
  generateFromTemplate demoExt "hello" "retro" (emptyStyle, emptyConfig)
    demoState
  = (inl (QRValidationError "Template not found: retro" NoDetails),
     demoState).
Proof.
  by destruct (generateFromTemplate_unknown demoExt "hello" "retro"
                 (emptyStyle, emptyConfig) demoState eq_refl) as [Hrun _].
Defined.

Lemma lookup_increment (key other : string) (counters : gmap string nat) :
  increment key counters !! other
  = if decide (key = other)
    then Some (default 0 (counters !! key) + 1)%nat
    else counters !! other.
Proof. unfold increment. apply lookup_insert. Qed.

Lemma Object_prototype_proto (name : string) :
  Object_prototype name = None -> name <> "__proto__".
Proof. intros H ->. discriminate. Qed.

Lemma lookup_setTally (name other : string) (value : Tally)
    (counters : gmap string Tally) :
  setTally name value counters !! other
  = if decide (name = other /\ name <> "__proto__") then Some value
    else counters !! other.
Proof.
  unfold setTally. case_bool_decide as Hproto.
  - rewrite decide_False; [done|]. by intros [_ ?].
  - rewrite lookup_insert. destruct (decide (name = other)) as [->|].
    + by rewrite decide_True.
    + rewrite decide_False; [done|]. by intros [? _].
Qed.

(** X12. A generation from a template that returns has found the template
    and has counted one more generation, and it touches the use count of no
    other name.  Under the template's own name a count n becomes n + 1, and
    a name without a count gets the count 1 -- unless the name is one that
    every object inherits (constructor, toString, __proto__ and the like):
    the update then reads the inherited value and what it stores is not a
    count.  A generation that throws has counted nothing, neither a use nor
    a generation. *)
Theorem generateFromTemplate_counts (ext : Externals)
    (content templateName : string) (overrides : QRStyle * QRConfig)
    (s : State) :
  match generateFromTemplate ext content templateName overrides s with
  | (inr r, s') =>
      is_Some (Map_get templateName (templates s))
      /\ totalGenerated (statistics s') = S (totalGenerated (statistics s))
      /\ (forall other,
            other <> templateName ->
            byTemplate (statistics s') !! other
            = byTemplate (statistics s) !! other)
      /\ (forall n,
            byTemplate (statistics s) !! templateName = Some (Uses n) ->
            templateName <> "__proto__" ->
            byTemplate (statistics s') !! templateName = Some (Uses (n + 1)))
      /\ (byTemplate (statistics s) !! templateName = None ->
          Object_prototype templateName = None ->
          byTemplate (statistics s') !! templateName = Some (Uses 1))
      /\ (byTemplate (statistics s) !! templateName = None ->
          is_Some (Object_prototype templateName) ->
          forall n,
            byTemplate (statistics s') !! templateName <> Some (Uses n))
  | (inl _, s') => statistics s' = statistics s
  end.
Proof.
  pose proof (generateFromTemplate_spec ext content templateName overrides s)
    as Hspec. unfold wp in Hspec.
  destruct (generateFromTemplate ext content templateName overrides s)
    as [[e|r] s'] eqn:Hrun; simpl in Hspec; [done|].
  destruct Hspec as ((now & t & ->) & _). simpl. split.
  { unfold generateFromTemplate, bind in Hrun. simpl in Hrun.
    by destruct (Map_get templateName (templates s)). }
  split; [done|]. rewrite lookup_setTally. unfold nextTally.
  split; [|split; [|split]].
  - intros other Hother. rewrite lookup_setTally.
    rewrite decide_False; [done|]. intros [? _]. by apply Hother.
  - intros n Hn Hproto. rewrite Hn. by rewrite decide_True.
  - intros Hnone Hplain. rewrite Hnone, Hplain.
    rewrite decide_True; [done|].
    split; [done|]. by apply Object_prototype_proto.
  - intros Hnone [text Htext] n. rewrite Hnone, Htext.
    by destruct (decide _).
Qed.

Lemma generateFromTemplate_counts_demo :
  (exists r s',
     generateFromTemplate demoExt "hello" "business" (emptyStyle, emptyConfig)
       demoState = (inr r, s')
     /\ byTemplate (statistics s') !! "business" = Some (Uses 1))
  /\ (exists r s',
        generateFromTemplate demoExt "hello" "constructor"
          (emptyStyle, emptyConfig) inheritedNameState = (inr r, s')
        /\ forall n,
             byTemplate (statistics s') !! "constructor" <> Some (Uses n)).
Proof.
  split.
  - pose proof (generateFromTemplate_counts demoExt "hello" "business"
                  (emptyStyle, emptyConfig) demoState) as Hcounts.
    destruct (generateFromTemplate demoExt "hello" "business"
                (emptyStyle, emptyConfig) demoState) as [[e|r] s'] eqn:Hrun;
      [vm_compute in Hrun; discriminate|].
    destruct Hcounts as (_ & _ & _ & _ & Hfirst & _).
    exists r, s'. split; [reflexivity|]. exact (Hfirst eq_refl eq_refl).
  - pose proof (generateFromTemplate_counts demoExt "hello" "constructor"
                  (emptyStyle, emptyConfig) inheritedNameState) as Hcounts.
    destruct (generateFromTemplate demoExt "hello" "constructor"
                (emptyStyle, emptyConfig) inheritedNameState)
      as [[e|r] s'] eqn:Hrun; [vm_compute in Hrun; discriminate|].
    destruct Hcounts as (_ & _ & _ & _ & _ & Hinherited).
    exists r, s'. split; [reflexivity|].
    apply Hinherited; [reflexivity|]. by eexists.
Defined.

Lemma Map_get_set_eq {V} (k : string) (v : V) (m : list (string * V)) :
  Map_get k (Map_set k v m) = Some v.
Proof.
  induction m as [|[k' v'] m IH]; simpl.
  - by rewrite decide_True.
  - destruct (decide (k' = k)) as [->|Hne]; simpl.
    + by rewrite decide_True.
    + by rewrite decide_False.
Qed.

Lemma Map_get_set_ne {V} (k k0 : string) (v : V) (m : list (string * V)) :
  k0 <> k -> Map_get k0 (Map_set k v m) = Map_get k0 m.
Proof.
  intros Hne. induction m as [|[k' v'] m IH]; simpl.
  - by rewrite decide_False.
  - destruct (decide (k' = k)) as [->|Hk]; simpl.
    + by rewrite !decide_False.
    + destruct (decide (k' = k0)); [done|apply IH].
Qed.

Lemma Map_get_None {V} (k : string) (m : list (string * V)) :
  Map_get k m = None <-> k ∉ map fst m.
Proof.
  induction m as [|[k' v'] m IH]; simpl.
  - split; [intros _; apply not_elem_of_nil|done].
  - rewrite not_elem_of_cons. destruct (decide (k' = k)) as [->|Hne].
    + split; [done|]. by intros [? _].
    + rewrite IH. split; [by intros ?; split|by intros [_ ?]].
Qed.

Lemma Map_set_keys {V} (k : string) (v : V) (m : list (string * V)) :
  map fst (Map_set k v m)
  = if decide (k ∈ map fst m) then map fst m else map fst m ++ [k].
Proof.
  induction m as [|[k' v'] m IH]; cbn [Map_set map fst].
  - destruct (decide (k ∈ [])) as [H|_]; [by apply elem_of_nil in H|done].
  - destruct (decide (k' = k)) as [->|Hne]; cbn [map fst].
    + destruct (decide (k ∈ k :: map fst m)) as [_|H]; [done|].
      exfalso. apply H, list_elem_of_here.
    + rewrite IH.
      destruct (decide (k ∈ map fst m)) as [Hin|Hnin];
        destruct (decide (k ∈ k' :: map fst m)) as [Hin'|Hnin']; try done.
      * exfalso. by apply Hnin', list_elem_of_further.
      * apply elem_of_cons in Hin' as [->|?]; done.
Qed.

Lemma Map_set_values {V} (P : string * V -> Prop) (k : string) (v : V)
    (m : list (string * V)) :
  P (k, v) -> Forall P m -> Forall P (Map_set k v m).
Proof.
  intros Hkv. induction 1 as [|[k' v'] m Hx Hm IH]; simpl.
  - by repeat constructor.
  - destruct (decide (k' = k)); constructor; auto.
Qed.

(** X13. Adding a template stores it under its name: looking that name up
    afterwards gives the template added, and every other name gives what it
    gave before.  A name already registered is overwritten in place, so the
    listing keeps its length and order; a new name goes to the end of the
    listing.  The registry's names stay distinct, and nothing but the
    registry changes. *)
Theorem addTemplate_registry (template : QRTemplate) (s : State) :
  wellKeyed (templates s) ->
  let s' := (addTemplate template s).2 in
  wellKeyed (templates s')
  /\ Map_get (template_name template) (templates s') = Some template
  /\ (forall name,
        name <> template_name template ->
        Map_get name (templates s') = Map_get name (templates s))
  /\ (getTemplates s').1
     = inr (if decide (is_Some (Map_get (template_name template)
                                        (templates s)))
            then map snd (Map_set (template_name template) template
                                  (templates s))
            else map snd (templates s) ++ [template])
  /\ length (templates s')
     = (if decide (is_Some (Map_get (template_name template) (templates s)))
        then length (templates s)
        else S (length (templates s)))
  /\ map fst (templates s')
     = (if decide (is_Some (Map_get (template_name template) (templates s)))
        then map fst (templates s)
        else map fst (templates s) ++ [template_name template])
  /\ untouched (with_templates (templates s') s) s'
  /\ directories s' = directories s /\ trace s' = trace s.
Proof.
  intros [Hnodup Hnames] s'. subst s'. simpl.
  set (name := template_name template).
  assert (is_Some (Map_get name (templates s)) <-> name ∈ map fst (templates s))
    as Hsome.
  { rewrite <- not_eq_None_Some, Map_get_None.
    destruct (decide (name ∈ map fst (templates s))); naive_solver. }
  pose proof (Map_set_keys name template (templates s)) as Hkeys.
  assert (Map_get name (templates s) = None ->
          Map_set name template (templates s)
          = templates s ++ [(name, template)]) as Hnew.
  { clear. induction (templates s) as [|[k' v'] m IH]; simpl; [done|].
    destruct (decide (k' = name)); [done|]. intros H. by rewrite IH. }
  split; [split|].
  - rewrite Hkeys. destruct (decide (name ∈ map fst (templates s))); [done|].
    apply NoDup_app. split; [done|]. split.
    + intros x Hx [->|[]%elem_of_nil]%elem_of_cons. done.
    + apply NoDup_singleton.
  - by apply Map_set_values.
  - split; [apply Map_get_set_eq|].
    split; [intros name0 Hne; by apply Map_get_set_ne|].
    destruct (decide (is_Some (Map_get name (templates s)))) as [Hin|Hnin].
    + split; [done|]. apply Hsome in Hin.
      rewrite decide_True in Hkeys by done.
      split; [by rewrite <- (length_map fst), Hkeys, length_map|].
      by repeat split.
    + assert (Map_get name (templates s) = None) as Hnone.
      { destruct (Map_get name (templates s)) eqn:E; [|done].
        exfalso. apply Hnin. eauto. }
      rewrite (Hnew Hnone). rewrite map_app, length_app, map_app. simpl.
      repeat split; try done. lia.
Qed.

Lemma addTemplate_registry_demo :
  (getTemplates (addTemplate eventTemplate demoState).2).1
  = inr [businessTemplate; socialTemplate; eventTemplate]
  /\ Map_get "event" (templates (addTemplate eventTemplate demoState).2)
     = Some eventTemplate.
Proof.
  destruct (addTemplate_registry eventTemplate demoState)
    as (_ & Hget & _ & Hlist & _).
  - split; [|by repeat constructor].
    by apply (bool_decide_unpack _).
  - split; [exact Hlist|exact Hget].
Defined.

(** ** Counters per format *)

Lemma formatsAddUp_update now r t st :
  gen_format r = "png" \/ gen_format r = "svg" ->
  formatsAddUp st -> formatsAddUp (updateStatistics_on now r t st).
Proof.
  intros Hfmt [Hsum Hother]. unfold formatsAddUp, updateStatistics_on. simpl.
  rewrite !lookup_increment. split.
  - destruct Hfmt as [-> | ->]; simpl; lia.
  - intros format Hpng Hsvg. rewrite lookup_increment.
    destruct Hfmt as [-> | ->]; rewrite decide_False by done; by apply Hother.
Qed.

Lemma generate_format ext request s :
  wp (generate ext request) s (fun o s' =>
    match o with
    | inl _ => statistics s' = statistics s
    | inr r =>
        (gen_format r = "png" \/ gen_format r = "svg")
        /\ exists now t,
             statistics s' = updateStatistics_on now r t (statistics s)
             \/ exists name,
                  statistics s'
                  = bumpTemplate_on name
                      (updateStatistics_on now r t (statistics s))
    end).
Proof.
  destruct request as [content config|content style config
                      |content templateName overrides]; simpl.
  - wp_use generateBasic_spec. intros [e|r] s'; [by intros [? _]|].
    intros (_ & (now & t & Hst) & _ & _ & p & _ & Hfmt). split.
    + destruct Hfmt as [[_ ?]|(_ & ? & _)]; auto.
    + exists now, t. by left.
  - wp_use generateStyled_spec. intros [e|r] s'; [by intros [? _]|].
    intros (_ & (now & t & Hst) & _ & ? & _). split; [by left|].
    exists now, t. by left.
  - wp_use generateFromTemplate_spec. intros [e|r] s'; [done|].
    intros ((now & t & Hst) & ? & _). split; [by left|].
    exists now, t. right. by exists templateName.
Qed.

(** X14. The per-format counters add up: on a new instance, and after any
    run of generation calls from a state where they do, the counts under
    png and svg sum to [totalGenerated], and no other format has a count
    (a request for pdf or jpeg is counted under png, the format of what was
    produced). *)
Theorem byFormat_adds_up (ext : Externals) (requests : list Request)
    (s : State) (t0 : Z) :
  formatsAddUp (initialStatistics ext t0)
  /\ (formatsAddUp (statistics s) ->
      formatsAddUp (statistics (generateAll ext requests s).2)).
Proof.
  split; [by split|].
  revert s. induction requests as [|request rest IH]; intros s Hs; [done|].
  simpl. pose proof (generate_format ext request s) as Hgen.
  unfold wp in Hgen. destruct (generate ext request s) as [o s1].
  simpl in Hgen. specialize (IH s1).
  destruct (generateAll ext rest s1) as [os s2]. simpl in *. apply IH.
  destruct o as [e|r]; [by rewrite Hgen|].
  destruct Hgen as (Hfmt & now & t & [-> | [name ->]]).
  - by apply formatsAddUp_update.
  - apply (formatsAddUp_update now r t) in Hs; [|done].
    destruct Hs as [Hsum Hother]. by split.
Qed.

Lemma byFormat_adds_up_demo :
  byFormat (statistics (generateAll demoExt demoRequests demoState).2)
    !! "png" = Some 3%nat
  /\ formatsAddUp (statistics (generateAll demoExt demoRequests demoState).2).
Proof.
  destruct (byFormat_adds_up demoExt demoRequests demoState 0)
    as [Hinit Hrun].
  split; [by vm_compute|]. apply Hrun. exact Hinit.
Defined.

(** ** Quality analysis *)

Section Analysis.

Variable ext : Externals.

Lemma decodeFromImage_result imagePath s :
  wp (decodeFromImage ext imagePath) s (fun o s' =>
    untouched s s'
    /\ filter (fun e => isProbe e = true) (trace s')
       = filter (fun e => isProbe e = true) (trace s)
    /\ match o with
       | inl e => exists m, e = QRAnalysisError m (ImagePathDetails imagePath)
       | inr res =>
           an_quality res = None
           /\ if an_success res
              then is_Some (an_content res) /\ an_error res = None
              else an_content res = None
                   /\ an_error res = Some "No QR code found in image"
       end).
Proof.
  unfold decodeFromImage. wp_step. wp_step. unfold fs_pathExists.
  wp_step. apply wp_call. apply wp_fun. simpl.
  set (s1 := mkState _ _ _ _ _ _ _ _).
  assert (untouched s s1) as Hu1 by (by repeat split).
  assert (filter (fun e => isProbe e = true) (trace s1)
          = filter (fun e => isProbe e = true) (trace s)) as Ht1.
  { subst s1. simpl. rewrite filter_app, filter_cons_False by done.
    by rewrite filter_nil, app_nil_r. }
  wp_step. destruct (negb _).
  { wp_step. wp_step. eauto. }
  wp_step. wp_step. apply wp_call. wp_step. apply wp_fun. simpl.
  assert (forall e0 e1,
            isProbe e0 = false -> isProbe e1 = false ->
            filter (fun e => isProbe e = true) ((trace s1 ++ [e0]) ++ [e1])
            = filter (fun e => isProbe e = true) (trace s)) as Ht2.
  { intros e0 e1 H0 H1. rewrite !filter_app, !filter_cons_False
      by (by rewrite ?H0, ?H1).
    by rewrite filter_nil, !app_nil_r. }
  assert (forall e0,
            isProbe e0 = false ->
            filter (fun e => isProbe e = true) (trace s1 ++ [e0])
            = filter (fun e => isProbe e = true) (trace s)) as Ht3.
  { intros e0 H0. rewrite !filter_app, !filter_cons_False by (by rewrite ?H0).
    by rewrite filter_nil, !app_nil_r. }
  wp_step. wp_step.
  { wp_step. split; [by repeat split|]. split; [by apply Ht3|eauto]. }
  wp_step. apply wp_call. simpl.
  wp_step; wp_step; (split; [by repeat split|]); (split; [by apply Ht2|]);
    simpl; eauto.
Qed.

Lemma assessQuality_bounds metadata stats content :
  40 <= score (assessQuality metadata stats content) <= 100.
Proof.
  unfold assessQuality.
  destruct (ltNumber (meta_width metadata) 200
            || ltNumber (meta_height metadata) 200),
    (ltNumber _ 128), (1000 <? String.length content)%nat; simpl; lia.
Qed.

Lemma analyzeQuality_spec (imagePath : string) (s : State) :
  wp (analyzeQuality ext imagePath) s (fun o s' =>
    untouched s s'
    /\ match o with
       | inl e => exists m, e = QRAnalysisError m (ImagePathDetails imagePath)
       | inr res =>
           if an_success res
           then exists metadata stats content,
                  an_content res = Some content
                  /\ an_quality res
                     = Some (assessQuality metadata stats content)
                  /\ 40 <= score (assessQuality metadata stats content) <= 100
           else an_quality res = Some undecodedQuality
                /\ an_error res = Some "No QR code found in image"
                /\ filter (fun e => isProbe e = true) (trace s')
                   = filter (fun e => isProbe e = true) (trace s)
       end).
Proof.
  unfold analyzeQuality. wp_step. wp_step. wp_use decodeFromImage_result.
  intros [e|res] s1 (Hu1 & Ht1 & Hres); [wp_step; eauto|].
  destruct Hres as [Hq Hres].
  destruct (an_success res) eqn:Hok; simpl.
  - destruct Hres as [[content Hc] He].
    wp_step. apply wp_call. wp_step. apply wp_fun. simpl.
    wp_step. wp_step.
    { wp_step. split; [|eauto]. destruct Hu1 as (? & ? & ? & ?).
      by repeat split. }
    wp_step. simpl. rewrite Hok. split.
    { destruct Hu1 as (? & ? & ? & ?). by repeat split. }
    destruct p as [metadata stats]. exists metadata, stats, content.
    rewrite Hc. simpl. repeat split; apply assessQuality_bounds.
  - destruct Hres as [Hc He]. wp_step. simpl. rewrite Hok.
    split; [done|]. by repeat split.
Qed.

(** X15. Quality analysis is read-only and every result it returns carries
    a quality.  When nothing was decoded the result has [success] false, the
    score 0, the tier poor and two fixed recommendations, and the image is
    not probed at all; when a symbol was decoded the quality is the
    assessor's, for the decoded content, and its score lies between 40 and
    100.  So a score of 0 means exactly that no symbol was decoded.  Every
    error it throws is an analysis error. *)
Theorem analyzeQuality_results (imagePath : string) (s : State) :
  match analyzeQuality ext imagePath s with
  | (inl e, s') =>
      untouched s s'
      /\ exists m, e = QRAnalysisError m (ImagePathDetails imagePath)
  | (inr res, s') =>
      untouched s s'
      /\ if an_success res
         then exists metadata stats content,
                an_content res = Some content
                /\ an_quality res = Some (assessQuality metadata stats content)
                /\ 40 <= score (assessQuality metadata stats content) <= 100
         else an_quality res = Some undecodedQuality
              /\ an_error res = Some "No QR code found in image"
              /\ filter (fun e => isProbe e = true) (trace s')
                 = filter (fun e => isProbe e = true) (trace s)
  end.
Proof.
  pose proof (analyzeQuality_spec imagePath s) as H. unfold wp in H.
  by destruct (analyzeQuality ext imagePath s) as [[e|res] s'].
Qed.

End Analysis.

Lemma analyzeQuality_results_demo :
  exists res s',
    analyzeQuality demoExt "photo.png" demoState = (inr res, s')
    /\ an_success res = false
    /\ an_quality res = Some undecodedQuality.
Proof.
  pose proof (analyzeQuality_results demoExt "photo.png" demoState) as H.
  destruct (analyzeQuality demoExt "photo.png" demoState) as [o s'] eqn:Hrun.
  vm_compute in Hrun. injection Hrun as <- <-. simpl in H.
  destruct H as (_ & Hq & _). do 2 eexists. split; [reflexivity|].
  split; [reflexivity|exact Hq].
Defined.

(** ** Handlers *)

Lemma inRange_bounds lo hi d o :
  lo <= d <= hi -> inRange lo hi o = true -> lo <= default d o <= hi.
Proof.
  intros Hd. destruct o as [n|]; simpl; [|done].
  intros [?%Z.leb_le ?%Z.leb_le]%andb_true_iff. done.
Qed.

(** X16. The basic handler is a gate in front of the engine.  A size
    outside 50..2000 or a margin outside 0..10 is refused with the
    validation error "Invalid basic QR configuration" before anything
    happens.  Whatever the handler returns was made with the schema's
    defaults filled in (size 300, margin 1, level M), and for a raster result
    the PNG encoder was called with a width within 50..2000 and a margin
    within 0..10. *)
Theorem handleGenerateBasic_gate (ext : Externals) (args : BasicArgs)
    (s : State) :
  (QRConfigSchema_accepts (basic_config args) = false ->
   handleGenerateBasic ext args s
   = (inl (QRValidationError "Invalid basic QR configuration" SchemaIssues),
      s))
  /\ forall r s',
       handleGenerateBasic ext args s = (inr r, s') ->
       let width := default 300 (config_size (basic_config args)) in
       let margin := default 1 (config_margin (basic_config args)) in
       let level :=
         default LevelM (config_errorCorrectionLevel (basic_config args)) in
       50 <= width <= 2000
       /\ 0 <= margin <= 10
       /\ (config_format (basic_config args) <> Some svg ->
           exists buf,
             QRCode_toBuffer ext (basic_content args)
               {| opt_width := Some width;
                  opt_margin := Some margin;
                  opt_errorCorrectionLevel := Some level;
                  opt_color := None |} = inr buf
             /\ gen_data r = Some (Buffer buf)).
Proof.
  unfold handleGenerateBasic. split.
  - by intros ->.
  - intros r s'.
    destruct (QRConfigSchema_accepts (basic_config args)) eqn:Hacc;
      [|discriminate].
    simpl. intros Hrun.
    apply andb_true_iff in Hacc as [Hsize Hmargin].
    split; [by apply inRange_bounds|]. split; [by apply inRange_bounds|].
    intros Hfmt.
    pose proof (wp_run _ _ _ _ _ (generateBasic_spec ext _ _ s) Hrun)
      as (_ & _ & _ & _ & p & _ & [[Hsvg _]|(_ & _ & _ & buf & Hbuf & Hd & _)]).
    + simpl in Hsvg. by destruct (config_format (basic_config args)) as [[]|].
    + by exists buf.
Qed.

Lemma handleGenerateBasic_gate_demo :
  handleGenerateBasic demoExt (mkBasicArgs "hello" tinyConfig) demoState
  = (inl (QRValidationError "Invalid basic QR configuration" SchemaIssues),
     demoState)
  /\ 50 <= default 300 (config_size emptyConfig) <= 2000.
Proof.
  destruct (handleGenerateBasic_gate demoExt (mkBasicArgs "hello" tinyConfig)
              demoState) as [Hrefused _].
  destruct (handleGenerateBasic_gate demoExt (mkBasicArgs "hello" emptyConfig)
              demoState) as [_ Hreturned].
  split; [exact (Hrefused eq_refl)|].
  eapply Hreturned. vm_compute. reflexivity.
Defined.

(** X17. The network handler fills in the schema's defaults before
    encoding: what a returned result records as its content is the payload
    with security WPA2 when none was given and H:false when [hidden] was
    not given; with only an ssid it is [WIFI:T:WPA2;S:<ssid>;P:;H:false;;]. *)
Theorem handleGenerateWiFi_defaults (ext : Externals) (args : WiFiArgs)
    (s s' : State) (r : QRGenerationResult) :
  handleGenerateWiFi ext args s = (inr r, s') ->
  originalContent <$> gen_metadata r
  = Some ("WIFI:T:"
          +:+ Security_toString (default WPA2 (wifiArgs_security args))
          +:+ ";S:" +:+ wifiArgs_ssid args
          +:+ ";P:" +:+ default EmptyString (wifiArgs_password args)
          +:+ ";H:"
          +:+ (if default false (wifiArgs_hidden args) then "true"
               else "false")
          +:+ ";;")
  /\ (wifiArgs_password args = None -> wifiArgs_security args = None ->
      wifiArgs_hidden args = None ->
      originalContent <$> gen_metadata r
      = Some ("WIFI:T:WPA2;S:" +:+ wifiArgs_ssid args +:+ ";P:;H:false;;")).
Proof.
  unfold handleGenerateWiFi, generateWiFi. intros Hrun.
  pose proof (wp_run _ _ _ _ _ (generateBasic_spec ext _ _ s) Hrun)
    as (_ & _ & _ & Hcontent & _).
  rewrite Hcontent. unfold buildWiFiContent, WiFiSchema_data. simpl.
  rewrite orElse_empty. split; [done|].
  by intros -> -> ->.
Qed.

Lemma handleGenerateWiFi_defaults_demo :
  exists r s',
    handleGenerateWiFi demoExt (mkWiFiArgs "Guest" None None None None)
      demoState = (inr r, s')
    /\ originalContent <$> gen_metadata r
       = Some "WIFI:T:WPA2;S:Guest;P:;H:false;;".
Proof.
  destruct (handleGenerateWiFi demoExt (mkWiFiArgs "Guest" None None None None)
              demoState) as [[e|r] s'] eqn:Hrun;
    [vm_compute in Hrun; discriminate|].
  exists r, s'. split; [reflexivity|].
  destruct (handleGenerateWiFi_defaults demoExt _ _ _ _ Hrun) as [_ Honly].
  exact (Honly eq_refl eq_refl eq_refl).
Defined.

(** ** Batch output *)

Section BatchOutput.

Variable ext : Externals.

Lemma generateStyled_keeps_directory dir content style config s :
  dir ∈ directories s ->
  dir ∈ directories (generateStyled ext content style config s).2.
Proof.
  intros Hdir.
  change (wp (generateStyled ext content style config) s
             (fun _ s' => dir ∈ directories s')).
  unfold generateStyled, validateContent, generateOutputPath, fs_ensureDir,
    applyAdvancedStyling, canvas_loadImage, fs_pathExists, fs_writeFile,
    updateStatistics, Date_now, Date_toISOString, readFileAt.
  repeat first
    [ wp_step
    | apply wp_call
    | apply wp_fun; simpl ];
    simpl; try set_solver.
Qed.

Lemma itemRuns_keeps_directory dir args items s :
  dir ∈ directories s -> dir ∈ directories (itemRuns ext args items s).2.
Proof.
  revert s. induction items as [|item rest IH]; intros s Hdir; simpl; [done|].
  pose proof (generateStyled_keeps_directory dir (item_content item)
                (default emptyStyle (item_style item)) (batchConfig args) s
                Hdir) as H1.
  destruct (generateStyled ext _ _ _ s) as [o s1]. simpl in H1.
  specialize (IH s1 H1). by destruct (itemRuns ext args rest s1) as [os s2].
Qed.

Lemma fs_ensureDir_setting dir s :
  QR_OUTPUT_DIR (fs_ensureDir ext dir s).2 = QR_OUTPUT_DIR s.
Proof.
  pose proof (fs_ensureDir_untouched ext dir s) as H. unfold wp in H.
  by destruct H as (_ & _ & _ & ?).
Qed.

Lemma generateStyled_stored content style config s :
  QR_OUTPUT_DIR (generateStyled ext content style config s).2
  = QR_OUTPUT_DIR s
  /\ storedByEngine ext (formatOrPng config) s
       (generateStyled ext content style config s).2.
Proof.
  pose proof (generateStyled_generated ext content style config s) as H.
  unfold wp in H.
  unfold storedByEngine.
  destruct (generateStyled ext content style config s) as [[e|r] s'];
    simpl in *.
  - destruct H as (Hf & _ & _ & ?). split; [done|].
    intros path _. simpl. by rewrite Hf.
  - apply generated_describesFile in H
      as (_ & data & _ & _ & Hf & _ & ?).
    split; [done|]. intros path Hpath. simpl. rewrite Hf.
    apply lookup_insert_ne. intros <-. apply Hpath.
    by exists (uuidv4 ext (uuidsDrawn s)).
Qed.

Lemma itemRuns_stored args items s :
  QR_OUTPUT_DIR (itemRuns ext args items s).2 = QR_OUTPUT_DIR s
  /\ storedByEngine ext (formatOrPng (batchConfig args)) s
       (itemRuns ext args items s).2.
Proof.
  revert s. induction items as [|item rest IH]; intros s; simpl; [done|].
  pose proof (generateStyled_stored (item_content item)
                (default emptyStyle (item_style item)) (batchConfig args) s)
    as [Hs1 Hf1].
  destruct (generateStyled ext _ _ _ s) as [o s1]. simpl in Hs1, Hf1.
  destruct (IH s1) as [Hs2 Hf2].
  destruct (itemRuns ext args rest s1) as [os s2]. simpl in *.
  split; [congruence|]. intros path Hpath.
  rewrite Hf2, Hf1; [done|done|].
  unfold enginePath in *. by rewrite Hs1.
Qed.

(** X18. Where a batch puts its files.  A batch that passes its schema and
    whose output directory can be made returns a report with one entry per
    item.  The directory it makes and reports is its own [outputDir]
    (./qr-codes without one); yet every file it reports, and every file it
    stores at all, lies in the directory of the QR_OUTPUT_DIR setting
    (./qr-codes when that is not set) under a generated name
    qr-<uuid>.<format>: neither [outputDir] nor an item's [filename] decides
    where a file goes. *)
Theorem batch_files_ignore_outputDir (args : BatchArgs) (s : State) :
  BatchQRSchema_accepts args = true ->
  ensureDir_fault ext (JsString.orElse (batch_outputDir args) "./qr-codes")
  = None ->
  exists report s',
    handleGenerateBatch ext args s = (inr report, s')
    /\ report_outputDir report
       = JsString.orElse (batch_outputDir args) "./qr-codes"
    /\ report_outputDir report ∈ directories s'
    /\ length (report_results report) = length (batch_items args)
    /\ (forall k entry,
          report_results report !! k = Some entry ->
          entry_success entry = true ->
          exists path,
            entry_file entry = Some path
            /\ enginePath ext s (formatOrPng (batchConfig args)) path)
    /\ storedByEngine ext (formatOrPng (batchConfig args)) s s'.
Proof.
  intros Hacc Hdir. unfold handleGenerateBatch. rewrite Hacc. simpl.
  set (dir := JsString.orElse (batch_outputDir args) "./qr-codes") in *.
  unfold bind at 1.
  assert (fs_ensureDir ext dir s
          = (inr tt,
             with_directories ({[dir]} ∪ directories s)
               (call ext (EnsureDir dir) s).2)) as Hensure.
  { unfold fs_ensureDir, bind. simpl. by rewrite Hdir. }
  rewrite Hensure. set (s0 := with_directories _ _).
  unfold bind. rewrite batchLoop_run. simpl.
  destruct (itemRuns_stored args (batch_items args) s0) as [Hsetting Hstored].
  do 2 eexists. split; [reflexivity|]. simpl.
  split; [done|]. split.
  { apply itemRuns_keeps_directory. subst s0. simpl. set_solver. }
  split.
  { by rewrite length_entriesFrom, length_itemRuns. }
  split; [|exact Hstored].
  intros k entry Hk Hok.
  rewrite entriesFrom_lookup in Hk. simpl in Hk.
  destruct ((itemRuns ext args (batch_items args) s0).1 !! k) as [o|] eqn:Ho;
    [|done].
  injection Hk as <-.
  destruct (batch_items args !! k) as [item|] eqn:Hitem.
  2: { apply lookup_ge_None in Hitem. apply lookup_lt_Some in Ho.
       rewrite length_itemRuns in Ho. lia. }
  rewrite (itemRuns_lookup ext args _ k item s0 Hitem) in Ho.
  injection Ho as <-.
  set (sk := (itemRuns ext args (take k (batch_items args)) s0).2) in *.
  assert (QR_OUTPUT_DIR sk = QR_OUTPUT_DIR s) as Hsk.
  { subst sk. by destruct (itemRuns_stored args (take k (batch_items args)) s0)
      as [-> _]. }
  pose proof (generateStyled_generated ext (item_content item)
                (default emptyStyle (item_style item)) (batchConfig args) sk)
    as Hgen.
  unfold wp in Hgen.
  destruct (generateStyled ext _ _ _ sk) as [[e|r] sk']; [done|].
  simpl in *. destruct Hgen as (_ & _ & Hpath & _).
  eexists. split; [exact Hpath|].
  exists (uuidv4 ext (uuidsDrawn sk)). unfold outputPathOf. by rewrite Hsk.
Qed.

End BatchOutput.

Lemma batch_files_ignore_outputDir_demo :
  exists report s',
    handleGenerateBatch demoExt namedBatch demoState = (inr report, s')
    /\ report_outputDir report = "./elsewhere"
    /\ "./elsewhere" ∈ directories s'
    /\ entry_file <$> report_results report
       = [Some "./qr-codes/qr-0.svg"; Some "./qr-codes/qr-1.svg"]
    /\ files s' !! "./elsewhere/one.png" = None.
Proof.
  destruct (batch_files_ignore_outputDir demoExt namedBatch demoState
              eq_refl eq_refl)
    as (report & s' & Hrun & Hdir & Hmade & _ & _ & Hstored).
  exists report, s'. split; [exact Hrun|]. split; [exact Hdir|].
  split; [rewrite Hdir in Hmade; exact Hmade|]. split.
  - vm_compute in Hrun. by injection Hrun as <- _.
  - rewrite (Hstored "./elsewhere/one.png"); [reflexivity|].
    intros [uuid Hpath]. vm_compute in Hpath. discriminate Hpath.
Defined.

(** ** Content optimisation *)

Lemma trim_https (rest : string) :
  JsString.trim ("https://" +:+ rest) = "https://" +:+ JsString.trimEnd rest.
Proof.
  rewrite trim_stripEnd, trimEnd_stripEnd.
  change (JsString.trimStart ("https://" +:+ rest)) with ("https://" +:+ rest).
  rewrite !string_app_cons.
  by rewrite !stripEnd_cons_visible by done.
Qed.

Lemma eqb_trim_upgraded (content : string) :
  (if negb (String.eqb (JsString.trim content) content)
   then JsString.trim content else content) = JsString.trim content.
Proof.
  by destruct (String.eqb_spec (JsString.trim content) content) as [Heq|].
Qed.

Lemma handleOptimizeContent_content (args : OptimizeArgs) :
  optimizedContent (handleOptimizeContent args)
  = JsString.trim
      (if JsText.startsWith "http://" (optimize_content args)
       then JsText.replaceFirst "http://" "https://" (optimize_content args)
       else optimize_content args).
Proof.
  unfold handleOptimizeContent.
  destruct (JsText.startsWith "http://" (optimize_content args)).
  - set (u := JsText.replaceFirst _ _ _).
    pose proof (eqb_trim_upgraded u) as H.
    by destruct (negb (String.eqb (JsString.trim u) u)).
  - set (u := optimize_content args).
    pose proof (eqb_trim_upgraded u) as H.
    by destruct (negb (String.eqb (JsString.trim u) u)).
Qed.

(** X19. What the optimisation tool returns never begins or ends with white
    space.  A content that begins with http:// comes back beginning with
    https://, its end trimmed, and the upgrade is reported; any other
    content comes back trimmed and nothing else, so an http:// address behind
    a leading blank is trimmed but not upgraded.  The reported size reduction
    is never below -1 (the upgrade adds one character), and a reply that
    lists no optimisation returns the content as it was given. *)
Theorem handleOptimizeContent_result (args : OptimizeArgs) :
  let content := optimize_content args in
  let reply := handleOptimizeContent args in
  trimmed (optimizedContent reply)
  /\ (forall rest,
        content = "http://" +:+ rest ->
        optimizedContent reply = "https://" +:+ JsString.trimEnd rest
        /\ In "Upgraded HTTP to HTTPS" (optimizations reply))
  /\ (JsText.startsWith "http://" content = false ->
      optimizedContent reply = JsString.trim content
      /\ ~ In "Upgraded HTTP to HTTPS" (optimizations reply)
      /\ 0 <= sizeReduction reply)
  /\ -1 <= sizeReduction reply
  /\ (optimizations reply = [] -> optimizedContent reply = content).
Proof.
  intros content reply.
  pose proof (handleOptimizeContent_content args) as Hc.
  fold content reply in Hc.
  assert (sizeReduction reply
          = Z.of_nat (String.length content)
            - Z.of_nat (String.length (optimizedContent reply))) as Hsize.
  { subst reply content. unfold handleOptimizeContent.
    by repeat case_match. }
  split; [rewrite Hc; apply trim_idempotent|].
  split; [|split; [|split]].
  - intros rest Hrest. rewrite Hc, Hrest.
    unfold JsText.startsWith. rewrite prefix_app, replaceFirst_prefix.
    split; [apply trim_https|].
    subst reply content. unfold handleOptimizeContent.
    rewrite Hrest. unfold JsText.startsWith at 1. rewrite prefix_app.
    repeat case_match; simplify_eq; simpl; auto.
  - intros Hno. rewrite Hno in Hc. split; [done|]. split.
    + subst reply content. unfold handleOptimizeContent. rewrite Hno.
      repeat case_match; simplify_eq; simpl; intuition discriminate.
    + rewrite Hsize, Hc. pose proof (length_trim content). lia.
  - rewrite Hsize, Hc.
    destruct (JsText.startsWith "http://" content) eqn:Hp.
    + apply prefix_inv in Hp as [rest Hrest]. rewrite Hrest.
      rewrite replaceFirst_prefix.
      pose proof (length_trim ("https://" +:+ rest)) as Hl.
      rewrite !length_string_app in *. simpl in *. lia.
    + pose proof (length_trim content). lia.
  - subst reply content. unfold handleOptimizeContent.
    repeat case_match; simplify_eq; simpl; try done;
      try (by intros ?%app_eq_nil; intuition discriminate).
    all: try by destruct (String.eqb_spec (JsString.trim (optimize_content args)) (optimize_content args)).
Qed.

Lemma handleOptimizeContent_result_demo :
  optimizedContent
    (handleOptimizeContent (mkOptimizeArgs "http://example.com " None))
  = "https://example.com"
  /\ optimizedContent
       (handleOptimizeContent (mkOptimizeArgs " http://example.com" None))
     = "http://example.com".
Proof.
  split.
  - destruct (handleOptimizeContent_result
                (mkOptimizeArgs "http://example.com " None))
      as (_ & Hupgraded & _).
    exact (proj1 (Hupgraded "example.com " eq_refl)).
  - destruct (handleOptimizeContent_result
                (mkOptimizeArgs " http://example.com" None))
      as (_ & _ & Hkept & _).
    exact (proj1 (Hkept eq_refl)).
Defined.

(** ** The address pattern of the validation tool *)

Lemma string_app_empty_inv (a b : string) :
  a +:+ b = EmptyString -> a = EmptyString /\ b = EmptyString.
Proof. by destruct a. Qed.

Lemma nullable_Matches (r : Regex.t) :
  Regex.nullable r = true <-> Regex.Matches r EmptyString.
Proof.
  induction r as [| |p|r1 IH1 r2 IH2|r1 IH1 r2 IH2|r IH]; simpl.
  - split; [done|]. inversion 1.
  - split; [constructor|done].
  - split; [done|]. inversion 1.
  - rewrite andb_true_iff, IH1, IH2. split.
    + intros [H1 H2]. exact (Regex.MSeq _ _ _ _ H1 H2).
    + inversion 1 as [| |? ? s1 s2 H1 H2 [E1 E2] Hs| | | |]; subst.
      apply string_app_empty_inv in Hs as [-> ->]. done.
  - rewrite orb_true_iff, IH1, IH2. split.
    + intros [H|H]; [by apply Regex.MAltL|by apply Regex.MAltR].
    + inversion 1; subst; auto.
  - split; [constructor|done].
Qed.

Lemma Matches_cons_derive (r : Regex.t) (c : ascii) (s : string) :
  Regex.Matches r (String c s) -> Regex.Matches (Regex.derive c r) s.
Proof.
  intros H. remember (String c s) as cs eqn:E. revert s E.
  induction H as [|p x Hp|r1 r2 s1 s2 H1 IH1 H2 IH2|r1 r2 s0 H IH
                  |r1 r2 s0 H IH| |r s1 s2 H1 IH1 H2 IH2];
    intros s E; simpl.
  - discriminate.
  - injection E as -> <-. rewrite Hp. constructor.
  - destruct s1 as [|x s1].
    + change (s2 = String c s) in E.
      apply nullable_Matches in H1 as ->.
      apply Regex.MAltR. by apply IH2.
    + rewrite string_app_cons in E. injection E as -> <-.
      assert (Regex.Matches (Regex.Seq (Regex.derive c r1) r2) (s1 +:+ s2))
        by (constructor; [by apply IH1|done]).
      destruct (Regex.nullable r1); [by apply Regex.MAltL|done].
  - apply Regex.MAltL. by apply IH.
  - apply Regex.MAltR. by apply IH.
  - discriminate.
  - destruct s1 as [|x s1].
    + change (s2 = String c s) in E. by apply IH2.
    + rewrite string_app_cons in E. injection E as -> <-.
      constructor; [by apply IH1|done].
Qed.

Lemma Matches_derive_cons (r : Regex.t) (c : ascii) (s : string) :
  Regex.Matches (Regex.derive c r) s -> Regex.Matches r (String c s).
Proof.
  revert s.
  induction r as [| |p|r1 IH1 r2 IH2|r1 IH1 r2 IH2|r IH]; intros s; simpl.
  - inversion 1.
  - inversion 1.
  - destruct (p c) eqn:Hp; inversion 1; subst. by constructor.
  - assert (Regex.Matches (Regex.Seq (Regex.derive c r1) r2) s ->
            Regex.Matches (Regex.Seq r1 r2) (String c s)) as Hleft.
    { inversion 1 as [| |? ? s1 s2 H1 H2| | | |]; subst.
      rewrite <- string_app_cons. constructor; [by apply IH1|done]. }
    destruct (Regex.nullable r1) eqn:Hn; [|done].
    inversion 1 as [| | |? ? ? H1|? ? ? H2| |]; subst; [by apply Hleft|].
    change (String c s) with (EmptyString +:+ String c s).
    constructor; [by apply nullable_Matches|by apply IH2].
  - inversion 1; subst; [apply Regex.MAltL|apply Regex.MAltR]; auto.
  - inversion 1 as [| |? ? s1 s2 H1 H2| | | |]; subst.
    rewrite <- string_app_cons. constructor; [by apply IH|done].
Qed.

(** Matching by derivatives decides the language of the expression. *)
Lemma test_Matches (r : Regex.t) (s : string) :
  Regex.test r s = true <-> Regex.Matches r s.
Proof.
  revert r. induction s as [|c s IH]; intros r; simpl.
  - apply nullable_Matches.
  - rewrite IH. split; [apply Matches_derive_cons|apply Matches_cons_derive].
Qed.

Lemma Matches_Class (p : ascii -> bool) (s : string) :
  Regex.Matches (Regex.Class p) s <->
  exists c, s = String c EmptyString /\ p c = true.
Proof.
  split.
  - inversion 1; subst. eauto.
  - intros (c & -> & Hp). by constructor.
Qed.

Lemma Matches_Star_Class (p : ascii -> bool) (s : string) :
  Regex.Matches (Regex.Star (Regex.Class p)) s <->
  JsText.removeAll p s = EmptyString.
Proof.
  split.
  - intros H. remember (Regex.Star (Regex.Class p)) as r eqn:E.
    induction H as [| | | | | |r s1 s2 H1 _ H2 IH2]; try discriminate.
    + done.
    + injection E as ->. apply Matches_Class in H1 as (c & -> & Hp).
      rewrite string_app_cons. simpl. rewrite Hp. by apply IH2.
  - induction s as [|c s IH]; simpl; [constructor|].
    destruct (p c) eqn:Hp; [|discriminate]. intros Hs.
    change (String c s) with (String c EmptyString +:+ s).
    constructor; [by constructor|by apply IH].
Qed.

Lemma Matches_Plus_Class (p : ascii -> bool) (s : string) :
  Regex.Matches (Regex.Plus (Regex.Class p)) s <->
  s <> EmptyString /\ JsText.removeAll p s = EmptyString.
Proof.
  unfold Regex.Plus. split.
  - inversion 1 as [| |? ? s1 s2 H1 H2| | | |]; subst.
    apply Matches_Class in H1 as (c & -> & Hp).
    apply Matches_Star_Class in H2.
    rewrite string_app_cons. simpl. by rewrite Hp.
  - intros [Hne Hs]. destruct s as [|c s]; [done|]. simpl in Hs.
    destruct (p c) eqn:Hp; [|discriminate].
    change (String c s) with (String c EmptyString +:+ s).
    constructor; [by constructor|by apply Matches_Star_Class].
Qed.

Lemma Matches_Seq (r1 r2 : Regex.t) (s : string) :
  Regex.Matches (Regex.Seq r1 r2) s <->
  exists s1 s2, s = s1 +:+ s2 /\ Regex.Matches r1 s1 /\ Regex.Matches r2 s2.
Proof.
  split.
  - inversion 1; subst. eauto.
  - intros (s1 & s2 & -> & H1 & H2). by constructor.
Qed.

Lemma Matches_char (x : ascii) (s : string) :
  Regex.Matches (Regex.Class (fun c => Ascii.eqb c x)) s <->
  s = String x EmptyString.
Proof.
  rewrite Matches_Class. split.
  - by intros (c & -> & ->%Ascii.eqb_eq).
  - intros ->. exists x. by rewrite Ascii.eqb_refl.
Qed.

Lemma emailRegex_shape (s : string) :
  Regex.test emailRegex s = true <-> emailShape s.
Proof.
  rewrite test_Matches. unfold emailRegex, emailShape, plainPart.
  split.
  - intros (a & ? & -> & Ha & (at' & ? & -> & ->%Matches_char
            & (b & ? & -> & Hb & (dot & c & -> & ->%Matches_char & Hc)
               %Matches_Seq)%Matches_Seq)%Matches_Seq)%Matches_Seq.
    apply Matches_Plus_Class in Ha, Hb, Hc. by exists a, b, c.
  - intros (a & b & c & -> & Ha & Hb & Hc).
    apply Matches_Plus_Class in Ha, Hb, Hc.
    apply Matches_Seq. exists a, ("@" +:+ b +:+ "." +:+ c).
    split; [done|]. split; [done|].
    apply Matches_Seq. exists "@", (b +:+ "." +:+ c).
    split; [done|]. split; [by apply Matches_char|].
    apply Matches_Seq. exists b, ("." +:+ c).
    split; [done|]. split; [done|].
    apply Matches_Seq. exists ".", c.
    split; [done|]. split; [by apply Matches_char|done].
Qed.

(** X20. For a content type of email, the validation tool of a content that
    passes the basic checks adds no advice exactly when the content has the
    shape local@domain.tld, where each of the three parts is a non-empty run
    of characters that are neither white space nor [@]; for every other
    content its only advice is that the content does not appear to be a valid
    email address. *)
Theorem email_advice (URL_parses : string -> bool) (content : string) :
  validContent content = true ->
  exists recommendations,
    handleValidateContent URL_parses (mkValidateArgs content (Some ctEmail))
    = ValidationSuccessful (String.length content) "email"
        (estimateQRComplexity content) recommendations
    /\ (emailShape content -> recommendations = [])
    /\ (~ emailShape content -> recommendations
        = ["Content does not appear to be a valid email address"]).
Proof.
  unfold validContent. intros [Hw Hlen]%andb_true_iff.
  apply negb_true_iff in Hw. apply Nat.leb_le in Hlen.
  unfold handleValidateContent. simpl. rewrite blank_test, Hw.
  destruct (Nat.ltb_spec 4296 (String.length content)) as [|_]; [lia|].
  pose proof (emailRegex_shape content) as Hshape.
  destruct (Regex.test emailRegex content); simpl; eexists; split; try done.
  - split; [done|]. intros Hno. destruct Hno. by apply Hshape.
  - split; [|done]. intros Hyes. by apply Hshape in Hyes.
Qed.

Lemma email_advice_demo :
  exists recommendations,
    handleValidateContent demo_URL_parses
      (mkValidateArgs "user@example.com" (Some ctEmail))
    = ValidationSuccessful 16 "email" "Low" recommendations
    /\ recommendations = [].
Proof.
  destruct (email_advice demo_URL_parses "user@example.com" eq_refl)
    as (recommendations & Hreply & Hshape & _).
  exists recommendations. split; [exact Hreply|].
  apply Hshape. exists "user", "example", "com".
  by repeat split.
Defined.
